(** * Output sinks of the render pipeline (lib/jxl/render_pipeline/stage_write.cc)

    A shallow embedding of the four writing stages of the render pipeline:
    - [WriteToU8Stage]            interleaved 8-bit RGB(A) into a caller buffer,
    - [WriteToPixelCallbackStage] batches of pixels handed to a caller callback,
    - [WriteToImageBundleStage]   row copy into an image bundle,
    - [WriteToImage3FStage]       row copy into a three-plane float image,
    followed by the properties proved about them.

    Conventions.
    - A [size_t] is a [Z]; sums and products are taken exactly (buffer sizes
      are far below 2^64), differences are reduced modulo 2^64 ([wrap]) as the
      unsigned subtraction of the source does; [to_ssize] is the conversion to
      [ssize_t].
    - A [float] is an IEEE-754 binary32 value, [spec_float] of the standard
      library at precision 24 and maximal exponent 128.
    - A pointer to samples is the function from element offsets to the value
      read there ([Z -> float]); pointer arithmetic shifts the argument.
    - Highway vectors are computed lane by lane; the lane operations follow
      the semantics of the portable (scalar) target. *)

From Stdlib Require Import ZArith Lia Bool List.
From Stdlib.Floats Require Import SpecFloat.
From stdpp Require Import base list.

Local Open Scope Z_scope.

(** ** Machine integers *)

Definition wrap (z : Z) : Z := z mod 2 ^ 64.

Definition to_ssize (z : Z) : Z :=
  let w := wrap z in if w <? 2 ^ 63 then w else w - 2 ^ 64.

(** Modelled from the spec: [DivCeil] and [RoundUpTo] of lib/jxl/common.h
    are not part of the sources verified here.  Section 4.3 has the row
    processed in whole vectors with a tail of fewer pixels than lanes:
    [RoundUpTo(what, align)] is the next multiple of [align]. *)
Definition DivCeil (a b : Z) : Z := (a + b - 1) / b.

(** Modelled from the spec: see [DivCeil]. *)
Definition RoundUpTo (what align : Z) : Z := DivCeil what align * align.

(** Modelled from the spec: [JXL_BSWAP16] and [BSwapFloat] of
    lib/jxl/base/byte_order.h are not part of the sources verified here.
    Section 4.4: the samples are delivered "with optional byte-swap";
    [JXL_BSWAP16] exchanges the two bytes of a 16-bit value. *)
Definition JXL_BSWAP16 (x : Z) : Z := (x mod 256) * 256 + (x / 256) mod 256.

(** Modelled from the spec: see [JXL_BSWAP16]; the four bytes of a 32-bit
    value in reverse order. *)
Definition BSwap32 (x : Z) : Z :=
  (x mod 256) * 2 ^ 24 + ((x / 2 ^ 8) mod 256) * 2 ^ 16
  + ((x / 2 ^ 16) mod 256) * 2 ^ 8 + (x / 2 ^ 24) mod 256.

(** ** binary32 arithmetic *)

Module F32.

Definition prec : Z := 24.
Definition emax : Z := 128.

Definition float : Type := spec_float.

Definition of_Z (z : Z) : float := binary_normalize prec emax z 0 false.

Definition zero : float := S754_zero false.
Definition one : float := of_Z 1.

Definition Mul (a b : float) : float := SFmul prec emax a b.
Definition Div (a b : float) : float := SFdiv prec emax a b.
Definition ltb (a b : float) : bool := SFltb a b.
Definition leb (a b : float) : bool := SFleb a b.

Definition is_nan (a : float) : bool :=
  match a with S754_nan => true | _ => false end.

Definition is_finite (a : float) : bool :=
  match a with S754_zero _ | S754_finite _ _ _ => true | _ => false end.

(** [std::max(a, b)]: [(a < b) ? b : a]. *)
Definition std_max (a b : float) : float := if ltb a b then b else a.

(** Highway [Max] and [Min]: a NaN operand yields the other operand. *)
Definition Max (a b : float) : float :=
  if is_nan a then b else if is_nan b then a else if ltb b a then a else b.
Definition Min (a b : float) : float :=
  if is_nan a then b else if is_nan b then a else if ltb a b then a else b.

(** Highway [Clamp(v, lo, hi)] is [Min(Max(lo, v), hi)]. *)
Definition Clamp (v lo hi : float) : float := Min (Max lo v) hi.

(** Nearest integer to [m / d], ties to even ([0 < d]). *)
Definition round_half_even (m d : Z) : Z :=
  let q := m / d in
  let r2 := 2 * (m mod d) in
  if r2 <? d then q
  else if d <? r2 then q + 1
  else if Z.even q then q else q + 1.

(** Highway [NearestInt]: float to int32, round to nearest even; values
    out of range saturate and NaN gives the smallest int32. *)
Definition NearestInt (v : float) : Z :=
  match v with
  | S754_nan => - 2 ^ 31
  | S754_infinity s => if s then - 2 ^ 31 else 2 ^ 31 - 1
  | S754_zero _ => 0
  | S754_finite s m e =>
      let mag := if 0 <=? e then Zpos m * 2 ^ e
                 else round_half_even (Zpos m) (2 ^ (- e)) in
      let i := if s then - mag else mag in
      Z.max (- 2 ^ 31) (Z.min (2 ^ 31 - 1) i)
  end.

(** [BitCast] of an int32 lane to uint32. *)
Definition BitCastU32 (i : Z) : Z := i mod 2 ^ 32.

(** [U8FromU32]: the low byte of each lane. *)
Definition U8FromU32 (u : Z) : Z := u mod 256.

(** [DemoteTo] from int32 to uint16 and to uint8 saturates. *)
Definition DemoteToU16 (i : Z) : Z := Z.max 0 (Z.min 65535 i).
Definition DemoteToU8 (i : Z) : Z := Z.max 0 (Z.min 255 i).

(** The bit pattern of a binary32 value (NaN is the quiet NaN) and the
    value of a bit pattern. *)
Definition sign_bit (s : bool) : Z := if s then 2 ^ 31 else 0.

Definition to_bits (f : float) : Z :=
  match f with
  | S754_zero s => sign_bit s
  | S754_infinity s => sign_bit s + 255 * 2 ^ 23
  | S754_nan => 255 * 2 ^ 23 + 2 ^ 22
  | S754_finite s m e =>
      sign_bit s +
      (if Zpos m <? 2 ^ 23 then Zpos m
       else (e + 150) * 2 ^ 23 + (Zpos m - 2 ^ 23))
  end.

Definition of_bits (b : Z) : float :=
  let s := Z.testbit b 31 in
  let ex := (b / 2 ^ 23) mod 256 in
  let mant := b mod 2 ^ 23 in
  if ex =? 0 then
    (if mant =? 0 then S754_zero s else S754_finite s (Z.to_pos mant) (- 149))
  else if ex =? 255 then
    (if mant =? 0 then S754_infinity s else S754_nan)
  else S754_finite s (Z.to_pos (mant + 2 ^ 23)) (ex - 150).

(** Modelled from the spec: see [JXL_BSWAP16]; [BSwapFloat] gives the
    float whose bytes are those of the argument in reverse order. *)
Definition BSwapFloat (f : float) : float := of_bits (BSwap32 (to_bits f)).

(** [DemoteTo] from float to float16 followed by [BitCast] to uint16:
    round to nearest even at precision 11, maximal exponent 16. *)
Definition to_f16 (f : float) : spec_float :=
  match f with
  | S754_finite s m e => binary_normalize 11 16 (if s then Zneg m else Zpos m) e s
  | _ => f
  end.

Definition f16_bits (h : spec_float) : Z :=
  let sb (s : bool) := if s then 2 ^ 15 else 0 in
  match h with
  | S754_zero s => sb s
  | S754_infinity s => sb s + 31 * 2 ^ 10
  | S754_nan => 31 * 2 ^ 10 + 2 ^ 9
  | S754_finite s m e =>
      sb s + (if Zpos m <? 2 ^ 10 then Zpos m
              else (e + 25) * 2 ^ 10 + (Zpos m - 2 ^ 10))
  end.

Definition DemoteToF16Bits (f : float) : Z := f16_bits (to_f16 f).

End F32.

Abbreviation float := F32.float.

(** ** Loops, pointers and vectors *)

(** [for (i = i0; cond(i); i += step) body] with the loop-carried state
    threaded through; the final value of the counter is returned with the
    state.  Every use supplies a [fuel] that covers all iterations. *)
Fixpoint loop {S : Type} (fuel : nat) (cond : Z -> bool) (step : Z)
    (body : Z -> S -> S) (i : Z) (s : S) : Z * S :=
  match fuel with
  | O => (i, s)
  | Datatypes.S fuel' =>
      if cond i then loop fuel' cond step body (i + step) (body i s)
      else (i, s)
  end.

(** [for (i = 0; i < n; i++) body]. *)
Definition for_n {S : Type} (n : Z) (body : Z -> S -> S) (s : S) : S :=
  snd (loop (Z.to_nat n) (fun i => i <? n) 1 body 0 s).

(** A pointer to elements of type [A]: the value read at each offset. *)
Definition ptr (A : Type) : Type := Z -> A.

Definition ptr_add {A : Type} (p : ptr A) (k : Z) : ptr A := fun i => p (k + i).

(** Writable memory: [store m a v] is [m[a] = v]. *)
Definition store {A : Type} (m : ptr A) (a : Z) (v : A) : ptr A :=
  fun x => if x =? a then v else m x.

(** A Highway vector is the function from the lane index to the lane; only
    lanes below [Lanes(d)] are ever used. *)
Definition vec (A : Type) : Type := Z -> A.

Definition LoadU {A : Type} (p : ptr A) : vec A := fun i => p i.
Definition Set_ {A : Type} (v : A) : vec A := fun _ => v.
Definition vMul (a b : vec float) : vec float := fun i => F32.Mul (a i) (b i).
Definition vClamp (v lo hi : vec float) : vec float :=
  fun i => F32.Clamp (v i) (lo i) (hi i).
Definition vNearestInt (v : vec float) : vec Z := fun i => F32.NearestInt (v i).
Definition vBitCastU32 (v : vec Z) : vec Z := fun i => F32.BitCastU32 (v i).
Definition vU8FromU32 (v : vec Z) : vec Z := fun i => F32.U8FromU32 (v i).

(** Modelled from the spec: [RowInfo] and [GetInputRow] of
    render_pipeline_stage.h are not part of the sources verified here.
    Section 2: a stage receives "a set of pointers to one row per channel";
    [GetInputRow(input_rows, c, 0)] is the pointer to the first sample of
    channel [c] in the current row. *)
Definition RowInfo : Type := Z -> ptr float.

(** Modelled from the spec: see [RowInfo]. *)
Definition GetInputRow (input_rows : RowInfo) (c : Z) : ptr float := input_rows c.

(** ** WriteToU8Stage *)

Module U8.

Record Stage := {
  stride_ : Z;
  height_ : Z;
  rgba_ : bool;
  has_alpha_ : bool;
  alpha_c_ : Z
}.

(** [StoreRGBA], portable target: one pixel. *)
Definition StoreRGBA_scalar (r g b a : vec Z) (alpha : bool) (n extra : Z)
    (buf : Z) (m : ptr Z) : ptr Z :=
  let m := store m (buf + 0) (r 0) in
  let m := store m (buf + 1) (g 0) in
  let m := store m (buf + 2) (b 0) in
  if alpha then store m (buf + 3) (a 0) else m.

(** [StoreRGBA], generic vector target: [n] pixels, channel by channel. *)
Definition StoreRGBA (r g b a : vec Z) (alpha : bool) (n extra : Z)
    (buf : Z) (m : ptr Z) : ptr Z :=
  let mul := if alpha then 4 else 3 in
  let m := for_n n (fun i m => store m (buf + mul * i) (r i)) m in
  let m := for_n n (fun i m => store m (buf + (mul * i + 1)) (g i)) m in
  let m := for_n n (fun i m => store m (buf + (mul * i + 2)) (b i)) m in
  if alpha then for_n n (fun i m => store m (buf + (4 * i + 3)) (a i)) m
  else m.

Section Target.

(** [Lanes(d)] for [HWY_CAPPED(float, 4)]: 1, 2 or 4 by target. *)
Variable Lanes : Z.

(** One iteration of the loop over [x]. *)
Definition row_step (s : Stage) (row_in_r row_in_g row_in_b : ptr float)
    (row_in_a : option (ptr float)) (bytes base_ptr xsize : Z)
    (x : Z) (rgb : ptr Z) : ptr Z :=
  let zero := Set_ F32.zero in
  let one := Set_ F32.one in
  let mul := Set_ (F32.of_Z 255) in
  let rf := vMul (vClamp zero (LoadU (ptr_add row_in_r x)) one) mul in
  let gf := vMul (vClamp zero (LoadU (ptr_add row_in_g x)) one) mul in
  let bf := vMul (vClamp zero (LoadU (ptr_add row_in_b x)) one) mul in
  let af := match row_in_a with
            | Some row_in_a =>
                vMul (vClamp zero (LoadU (ptr_add row_in_a x)) one) mul
            | None => Set_ (F32.of_Z 255)
            end in
  let r8 := vU8FromU32 (vBitCastU32 (vNearestInt rf)) in
  let g8 := vU8FromU32 (vBitCastU32 (vNearestInt gf)) in
  let b8 := vU8FromU32 (vBitCastU32 (vNearestInt bf)) in
  let a8 := vU8FromU32 (vBitCastU32 (vNearestInt af)) in
  let n := wrap (xsize - x) in
  if Lanes <=? n then
    StoreRGBA r8 g8 b8 a8 (rgba_ s) Lanes n (base_ptr + bytes * x) rgb
  else
    StoreRGBA r8 g8 b8 a8 (rgba_ s) n n (base_ptr + bytes * x) rgb.

(** [ProcessRow]; [rgb] is the memory behind [rgb_], indexed by byte
    offset from it.  The debug assertion [xextra == 0] is not compiled
    in. *)
Definition ProcessRow (s : Stage) (input_rows : RowInfo)
    (xextra xsize xpos ypos thread_id : Z) (rgb : ptr Z) : ptr Z :=
  if height_ s <=? ypos then rgb
  else
    let bytes := if rgba_ s then 4 else 3 in
    let row_in_r := GetInputRow input_rows 0 in
    let row_in_g := GetInputRow input_rows 1 in
    let row_in_b := GetInputRow input_rows 2 in
    let row_in_a :=
      if has_alpha_ s then Some (GetInputRow input_rows (alpha_c_ s))
      else None in
    let base_ptr := ypos * stride_ s + bytes * wrap (xpos - xextra) in
    let x1 := RoundUpTo xsize Lanes in
    snd (loop (Z.to_nat (DivCeil xsize Lanes)) (fun x => x <? x1) Lanes
           (row_step s row_in_r row_in_g row_in_b row_in_a bytes base_ptr xsize)
           0 rgb).

End Target.

Definition GetChannelMode (s : Stage) (c : Z) : bool :=
  (c <? 3) || (has_alpha_ s && (c =? alpha_c_ s)).

End U8.

(** ** WriteToPixelCallbackStage *)

(** Modelled from the spec: the declarations of [Orientation] and
    [JxlDataType] are not part of the sources verified here; section 6 of the
    specification lists the eight orientations and the four numeric types
    a sink is configured with. *)
Inductive Orientation :=
  | kIdentity | kFlipHorizontal | kRotate180 | kFlipVertical
  | kTranspose | kRotate90 | kAntiTranspose | kRotate270.

(** Modelled from the spec: see [Orientation]. *)
Inductive JxlDataType :=
  | JXL_TYPE_FLOAT | JXL_TYPE_UINT8 | JXL_TYPE_UINT16 | JXL_TYPE_FLOAT16.

(** One output sample as the callback finds it in memory. *)
Inductive Sample :=
  | SampleF32 (f : float)
  | SampleU16 (u : Z)
  | SampleU8 (u : Z).

(** What the stage does to the caller's callback object, in order. *)
Inductive Event :=
  | EvInit (num_threads num_pixels : Z)
  | EvRun (opaque thread_id x y num_pixels : Z) (pixels : list Sample)
  | EvDestroy (opaque : Z).

(** The callback object: [Init] returns the opaque handle, 0 for
    [nullptr]. *)
Record PixelCallback := { Init : Z -> Z -> Z }.

#[global] Instance float_inhabited : Inhabited float := populate F32.zero.
#[global] Instance Sample_inhabited : Inhabited Sample := populate (SampleU8 0).

Module CB.

Definition kMaxPixelsPerCall : Z := 1024.

Record Stage := {
  pixel_callback_ : PixelCallback;
  width_ : Z;
  height_ : Z;
  num_channels_ : Z;
  num_color_ : Z;
  want_alpha_ : bool;
  has_alpha_ : bool;
  unpremul_alpha_ : bool;
  alpha_c_ : Z;
  swap_endianness_ : bool;
  flip_x_ : bool;
  flip_y_ : bool;
  transpose_ : bool;
  data_type_ : JxlDataType
}.

(** The mutable part: the handle, the number of per-thread scratch
    buffers allocated, and the log of calls made to the callback. *)
Record State := {
  run_opaque_ : Z;
  tempf_ : Z;
  tempu_ : Z;
  events : list Event
}.

Definition initial : State :=
  {| run_opaque_ := 0; tempf_ := 0; tempu_ := 0; events := [] |}.

Definition emit (e : Event) (st : State) : State :=
  {| run_opaque_ := run_opaque_ st; tempf_ := tempf_ st; tempu_ := tempu_ st;
     events := events st ++ [e] |}.

Definition ShouldFlipX (undo_orientation : Orientation) : bool :=
  match undo_orientation with
  | kFlipHorizontal | kRotate180 | kRotate270 | kAntiTranspose => true
  | _ => false
  end.

Definition ShouldFlipY (undo_orientation : Orientation) : bool :=
  match undo_orientation with
  | kFlipVertical | kRotate180 | kRotate90 | kAntiTranspose => true
  | _ => false
  end.

Definition ShouldTranspose (undo_orientation : Orientation) : bool :=
  match undo_orientation with
  | kTranspose | kRotate90 | kRotate270 | kAntiTranspose => true
  | _ => false
  end.

(** The constructor. *)
Definition WriteToPixelCallbackStage (pixel_callback : PixelCallback)
    (width height num_channels : Z) (has_alpha unpremul_alpha : bool)
    (alpha_c : Z) (swap_endianness : bool) (undo_orientation : Orientation)
    (data_type : JxlDataType) : Stage :=
  {| pixel_callback_ := pixel_callback;
     width_ := width;
     height_ := height;
     num_channels_ := num_channels;
     num_color_ := if num_channels <? 3 then 1 else 3;
     want_alpha_ := (num_channels =? 2) || (num_channels =? 4);
     has_alpha_ := has_alpha;
     unpremul_alpha_ := unpremul_alpha;
     alpha_c_ := alpha_c;
     swap_endianness_ := swap_endianness;
     flip_x_ := ShouldFlipX undo_orientation;
     flip_y_ := ShouldFlipY undo_orientation;
     transpose_ := ShouldTranspose undo_orientation;
     data_type_ := data_type |}.

(** [std::swap(temp[i], temp[j])]. *)
Definition swap_at (temp : list float) (i j : Z) : list float :=
  let a := temp !!! Z.to_nat i in
  let b := temp !!! Z.to_nat j in
  <[Z.to_nat j := a]> (<[Z.to_nat i := b]> temp).

(** The [flip_x_] block: reverse the pixels of the batch and mirror
    [xstart]. *)
Definition FlipX (s : Stage) (temp : list float) (xstart xlen : Z)
    : list float * Z :=
  let last := wrap (xlen - 1) * num_channels_ s in
  let num := (xlen / 2) * num_channels_ s in
  let temp :=
    snd (loop (Z.to_nat (xlen / 2)) (fun i => i <? num) (num_channels_ s)
           (fun i temp =>
              for_n (num_channels_ s)
                (fun c temp => swap_at temp (i + c) (wrap (last - i) + c))
                temp)
           0 temp) in
  (temp, wrap (wrap (width_ s - xstart) - xlen)).

(** [WriteToCallback]; [output] holds the samples from the pointer on,
    the callback is handed the pixels it is told to read. *)
Definition run (s : Stage) (thread_id x y num_pixels : Z)
    (output : list Sample) (st : State) : State :=
  emit (EvRun (run_opaque_ st) thread_id x y num_pixels
          (take (Z.to_nat (num_pixels * num_channels_ s)) output)) st.

Definition WriteToCallback (s : Stage) (thread_id ypos xstart xlen : Z)
    (output : list Sample) (st : State) : State :=
  if transpose_ s then
    for_n xlen
      (fun i st =>
         let j := i * num_channels_ s in
         run s thread_id ypos (xstart + i) 1 (drop (Z.to_nat j) output) st)
      st
  else run s thread_id xstart ypos xlen output st.

Section Alpha.

(** The clamp constant of lib/jxl/alpha.h, which is not part of the
    sources verified here. *)
Variable kSmallAlpha : float.

(** Modelled from the spec: [UnpremultiplyAlpha] of lib/jxl/alpha.cc is
    not part of the sources verified here.  Section 4.4 (2): "each pixel's color
    channels are divided by its alpha (clamped away from
    division-by-zero)".  The buffer holds [num_pixels] pixels of
    [num_color] colour samples followed by the alpha sample. *)
Definition UnpremultiplyAlpha (rgba : list float) (num_color num_pixels : Z)
    : list float :=
  for_n num_pixels
    (fun x rgba =>
       let ix := x * (num_color + 1) in
       let alpha := rgba !!! Z.to_nat (ix + num_color) in
       let divisor := F32.std_max kSmallAlpha alpha in
       for_n num_color
         (fun c rgba =>
            <[Z.to_nat (ix + c) :=
                F32.Div (rgba !!! Z.to_nat (ix + c)) divisor]> rgba)
         rgba)
    rgba.

(** The numeric conversion of the first [len] scratch samples; the
    vector loops convert element [j] into element [j]. *)
Definition convert (s : Stage) (temp : list float) : list Sample :=
  match data_type_ s with
  | JXL_TYPE_FLOAT =>
      let temp :=
        if swap_endianness_ s then F32.BSwapFloat <$> temp else temp in
      SampleF32 <$> temp
  | JXL_TYPE_UINT16 =>
      let mul := F32.of_Z 65535 in
      let tempu :=
        (fun v => F32.DemoteToU16
                    (F32.NearestInt
                       (F32.Mul (F32.Clamp F32.zero v F32.one) mul)))
          <$> temp in
      let tempu :=
        if swap_endianness_ s then JXL_BSWAP16 <$> tempu else tempu in
      SampleU16 <$> tempu
  | JXL_TYPE_FLOAT16 =>
      let tempu := F32.DemoteToF16Bits <$> temp in
      let tempu :=
        if swap_endianness_ s then JXL_BSWAP16 <$> tempu else tempu in
      SampleU16 <$> tempu
  | JXL_TYPE_UINT8 =>
      let mul := F32.of_Z 255 in
      let tempu :=
        (fun v => F32.DemoteToU8
                    (F32.NearestInt
                       (F32.Mul (F32.Clamp F32.zero v F32.one) mul)))
          <$> temp in
      SampleU8 <$> tempu
  end.

(** The gathering loops: up to [kMaxPixelsPerCall] pixels, channel
    interleaved; returns [ix] and the scratch. *)
Definition gather (s : Stage) (line_buffers : list (ptr float))
    (x0 limit : Z) : Z * list float :=
  loop (Z.to_nat kMaxPixelsPerCall)
    (fun ix => (ix <? kMaxPixelsPerCall) && (ix + x0 <? limit)) 1
    (fun ix temp =>
       for_n (num_channels_ s)
         (fun c temp => temp ++ [(line_buffers !!! Z.to_nat c) ix])
         temp)
    0 [].

(** The pointer increments that close an iteration. *)
Definition advance (s : Stage) (line_buffers : list (ptr float))
    : list (ptr float) :=
  imap (fun c p =>
          if (Z.of_nat c <? num_color_ s)
             || (has_alpha_ s && (Z.of_nat c =? num_color_ s))
          then ptr_add p kMaxPixelsPerCall else p)
       line_buffers.

(** One iteration of the loop over [x0]. *)
Definition batch (s : Stage) (xpos ypos thread_id limit : Z) (x0 : Z)
    (acc : list (ptr float) * State) : list (ptr float) * State :=
  let '(line_buffers, st) := acc in
  let '(ix, temp) := gather s line_buffers x0 limit in
  let xstart := wrap (xpos + x0) in
  let xlen := ix in
  let temp :=
    if has_alpha_ s && want_alpha_ s && unpremul_alpha_ s
    then UnpremultiplyAlpha temp (num_color_ s) xlen else temp in
  let '(temp, xstart) :=
    if flip_x_ s then FlipX s temp xstart xlen else (temp, xstart) in
  let st := WriteToCallback s thread_id ypos xstart xlen (convert s temp) st in
  (advance s line_buffers, st).

(** [ProcessRow].  The debug assertion on [run_opaque_] is not compiled
    in. *)
Definition ProcessRow (s : Stage) (input_rows : RowInfo)
    (xextra xsize xpos ypos thread_id : Z) (st : State) : State :=
  if height_ s <=? ypos then st
  else
    let opaque_alpha : ptr float := fun _ => F32.one in
    let line_buffers :=
      ((fun c => ptr_add (GetInputRow input_rows c) (- xextra))
         <$> seqZ 0 (num_color_ s))
      ++ [if has_alpha_ s
          then ptr_add (GetInputRow input_rows (alpha_c_ s)) (- xextra)
          else opaque_alpha] in
    let ypos := if flip_y_ s then wrap (wrap (height_ s - 1) - ypos) else ypos in
    let limit := to_ssize (Z.min (xextra + xsize) (wrap (width_ s - xpos))) in
    let x0 := to_ssize (- xextra) in
    snd (snd (loop (Z.to_nat (DivCeil (limit - x0) kMaxPixelsPerCall))
                (fun x0 => x0 <? limit) kMaxPixelsPerCall
                (batch s xpos ypos thread_id limit)
                x0 (line_buffers, st))).

Definition GetChannelMode (s : Stage) (c : Z) : bool :=
  (c <? num_color_ s) || (has_alpha_ s && (c =? alpha_c_ s)).

End Alpha.

(** [PrepareForThreads]: the status and the state after it. *)
Definition PrepareForThreads (s : Stage) (num_threads : Z) (st : State)
    : bool * State :=
  let h := Init (pixel_callback_ s) num_threads kMaxPixelsPerCall in
  let st := {| run_opaque_ := h; tempf_ := tempf_ st; tempu_ := tempu_ st;
               events := events st ++ [EvInit num_threads kMaxPixelsPerCall] |} in
  if h =? 0 then (false, st)
  else
    (true,
     {| run_opaque_ := run_opaque_ st;
        tempf_ := num_threads;
        tempu_ := match data_type_ s with
                  | JXL_TYPE_FLOAT => tempu_ st
                  | _ => num_threads
                  end;
        events := events st |}).

(** The destructor. *)
Definition Destroy (s : Stage) (st : State) : State :=
  if run_opaque_ st =? 0 then st else emit (EvDestroy (run_opaque_ st)) st.

End CB.

(** ** The pipeline driver, as far as a sink sees it *)

(** The arguments of one [ProcessRow] call. *)
Record RowCall := {
  rc_input_rows : RowInfo;
  rc_xextra : Z;
  rc_xsize : Z;
  rc_xpos : Z;
  rc_ypos : Z;
  rc_thread_id : Z
}.

Module Driver.

(** Modelled from the spec: the pipeline driver is not part of the
    sources verified here.  Section 4.2: [PrepareForThreads] is "invoked once, before
    any row processing"; "failure here is fatal for the whole decode
    (propagated, not retried)".  Section 5: teardown happens "strictly
    after the last ProcessRow", "on every exit path including early
    pipeline abort".  The result is the decode status and the final
    state. *)
Definition RunSink (kSmallAlpha : float) (s : CB.Stage) (num_threads : Z)
    (rows : list RowCall) (st : CB.State) : bool * CB.State :=
  match CB.PrepareForThreads s num_threads st with
  | (false, st) => (false, CB.Destroy s st)
  | (true, st) =>
      let st :=
        foldl (fun st r =>
                 CB.ProcessRow kSmallAlpha s (rc_input_rows r) (rc_xextra r)
                   (rc_xsize r) (rc_xpos r) (rc_ypos r) (rc_thread_id r) st)
              st rows in
      (true, CB.Destroy s st)
  end.

End Driver.

(** ** WriteToImageBundleStage and WriteToImage3FStage *)

(** [memcpy(dst + doff, src, n * sizeof(float))] on the row behind [dst]. *)
Definition memcpy {A : Type} (dst : ptr A) (doff : Z) (src : ptr A) (n : Z)
    : ptr A :=
  for_n n (fun k m => store m (doff + k) (src k)) dst.

Module Planar.

(** Modelled from the spec: the image classes (lib/jxl/image.h,
    image_bundle.h) are not part of the sources verified here.  Section 3: a frame
    structure "owns 3 color planes + N extra-channel planes"; a plane is
    read and written one row at a time. *)
Record ImageF := { xsize : Z; ysize : Z; Row : Z -> ptr float }.

#[global] Instance ImageF_inhabited : Inhabited ImageF :=
  populate {| xsize := 0; ysize := 0; Row := fun _ _ => F32.zero |}.

Definition Image3F : Type := Z -> ImageF.

Definition PlaneRow (im : Image3F) (c y : Z) : ptr float := Row (im c) y.

Definition set_Row (p : ImageF) (y : Z) (r : ptr float) : ImageF :=
  {| xsize := xsize p; ysize := ysize p;
     Row := fun y' => if y' =? y then r else Row p y' |}.

Definition set_PlaneRow (im : Image3F) (c y : Z) (r : ptr float) : Image3F :=
  fun c' => if c' =? c then set_Row (im c) y r else im c'.

Record ImageBundle := { color : Image3F; extra_channels : list ImageF }.

(** The copy of one row window into the row [y] of a plane. *)
Definition copy_row (row_out row_in : ptr float) (xextra xsize xpos : Z)
    : ptr float :=
  memcpy row_out (xpos - xextra) (ptr_add row_in (- xextra)) (xsize + 2 * xextra).

(** The three colour planes, common to both stages. *)
Definition copy_color (im : Image3F) (input_rows : RowInfo)
    (xextra xsize xpos ypos : Z) : Image3F :=
  for_n 3
    (fun c im =>
       set_PlaneRow im c ypos
         (copy_row (PlaneRow im c ypos) (GetInputRow input_rows c)
            xextra xsize xpos))
    im.

(** [WriteToImage3FStage::ProcessRow]. *)
Definition ProcessRow_Image3F (input_rows : RowInfo)
    (xextra xsize xpos ypos thread_id : Z) (image : Image3F) : Image3F :=
  copy_color image input_rows xextra xsize xpos ypos.

(** [WriteToImageBundleStage::ProcessRow]; [None] is the abort of a
    failed [JXL_ASSERT]. *)
Definition ProcessRow_ImageBundle (input_rows : RowInfo)
    (xextra xsize_ xpos ypos thread_id : Z) (ib : ImageBundle)
    : option ImageBundle :=
  let ib := {| color := copy_color (color ib) input_rows xextra xsize_ xpos ypos;
               extra_channels := extra_channels ib |} in
  for_n (Z.of_nat (length (extra_channels ib)))
    (fun ec acc =>
       match acc with
       | None => None
       | Some ib =>
           let e := extra_channels ib !!! Z.to_nat ec in
           if xsize e <? xpos + xsize_ + xextra then None
           else
             Some {| color := color ib;
                     extra_channels :=
                       <[Z.to_nat ec :=
                           set_Row e ypos
                             (copy_row (Row e ypos)
                                (GetInputRow input_rows (3 + ec))
                                xextra xsize_ xpos)]> (extra_channels ib) |}
       end)
    (Some ib).

End Planar.

(** ** Observations and specification functions *)

(** *** The raw buffer sink *)

(** The byte of component [k] of lane [i]. *)
Definition lane_byte (r g b a : vec Z) (k i : Z) : Z :=
  if k =? 0 then r i else if k =? 1 then g i else if k =? 2 then b i else a i.

(** Clamp to [0,1], scale by 255, round to nearest, narrow to 8 bits. *)
Definition to_u8 (v : float) : Z :=
  F32.U8FromU32
    (F32.BitCastU32
       (F32.NearestInt (F32.Mul (F32.Clamp F32.zero v F32.one) (F32.of_Z 255)))).

(** Component [k] of the output pixel for the sample position [x]. *)
Definition pixel_byte (s : U8.Stage) (input_rows : RowInfo) (k x : Z) : Z :=
  if k =? 0 then to_u8 (input_rows 0 x)
  else if k =? 1 then to_u8 (input_rows 1 x)
  else if k =? 2 then to_u8 (input_rows 2 x)
  else if U8.has_alpha_ s then to_u8 (input_rows (U8.alpha_c_ s) x)
  else 255.

Definition bytes_per_pixel (s : U8.Stage) : Z := if U8.rgba_ s then 4 else 3.

Definition base_ptr (s : U8.Stage) (xextra xpos ypos : Z) : Z :=
  ypos * U8.stride_ s + bytes_per_pixel s * wrap (xpos - xextra).

(** *** Arrays of interleaved pixels *)

(** The array of [n] pixels whose pixel [p] has channel [c] equal to
    [f p c]. *)
Definition pixels {A} (nc n : Z) (f : Z -> Z -> A) : list A :=
  (fun j => f (j / nc) (j mod nc)) <$> seqZ 0 (n * nc).

(** *** The callback sink *)

(** The sample of line buffer [c] at position [r], counted from [xpos]. *)
Definition chan (s : CB.Stage) (input_rows : RowInfo) (c r : Z) : float :=
  if c <? CB.num_color_ s then input_rows c r
  else if CB.has_alpha_ s then input_rows (CB.alpha_c_ s) r
  else F32.one.

(** The same sample after the unpremultiplication step. *)
Definition unpremultiplied (k : float) (s : CB.Stage) (input_rows : RowInfo)
    (c r : Z) : float :=
  if CB.has_alpha_ s && CB.want_alpha_ s && CB.unpremul_alpha_ s
     && (c <? CB.num_color_ s)
  then F32.Div (chan s input_rows c r)
         (F32.std_max k (chan s input_rows (CB.num_color_ s) r))
  else chan s input_rows c r.

(** The numeric conversion of one sample. *)
Definition narrow (s : CB.Stage) (v : float) : Sample :=
  match CB.data_type_ s with
  | JXL_TYPE_FLOAT =>
      SampleF32 (if CB.swap_endianness_ s then F32.BSwapFloat v else v)
  | JXL_TYPE_UINT16 =>
      let u := F32.DemoteToU16
                 (F32.NearestInt
                    (F32.Mul (F32.Clamp F32.zero v F32.one) (F32.of_Z 65535))) in
      SampleU16 (if CB.swap_endianness_ s then JXL_BSWAP16 u else u)
  | JXL_TYPE_FLOAT16 =>
      let u := F32.DemoteToF16Bits v in
      SampleU16 (if CB.swap_endianness_ s then JXL_BSWAP16 u else u)
  | JXL_TYPE_UINT8 =>
      SampleU8 (F32.DemoteToU8
                  (F32.NearestInt
                     (F32.Mul (F32.Clamp F32.zero v F32.one) (F32.of_Z 255))))
  end.

(** The calls of [WriteToCallback] for a batch of [xlen] pixels whose pixel
    [p] has the samples [f p]. *)
Definition call_events (s : CB.Stage) (h thread_id ypos xstart xlen : Z)
    (f : Z -> Z -> Sample) : list Event :=
  if CB.transpose_ s then
    (fun i => EvRun h thread_id ypos (xstart + i) 1
                (pixels (CB.num_channels_ s) 1 (fun _ c => f i c)))
      <$> seqZ 0 xlen
  else [EvRun h thread_id xstart ypos xlen (pixels (CB.num_channels_ s) xlen f)].

Definition with_events (st : CB.State) (evs : list Event) : CB.State :=
  {| CB.run_opaque_ := CB.run_opaque_ st; CB.tempf_ := CB.tempf_ st;
     CB.tempu_ := CB.tempu_ st; CB.events := CB.events st ++ evs |}.

(** The shape a stage has when it is built for 1 to 4 channels. *)
Definition wf_stage (s : CB.Stage) : Prop :=
  0 < CB.num_channels_ s <= 4
  /\ 0 < CB.num_color_ s
  /\ CB.num_channels_ s <= CB.num_color_ s + 1
  /\ (CB.want_alpha_ s = true -> CB.num_channels_ s = CB.num_color_ s + 1).

(** The calls of one batch, which starts [x0] samples from [xpos]. *)
Definition batch_events (k : float) (s : CB.Stage) (input_rows : RowInfo)
    (h thread_id xpos ypos limit x0 : Z) : list Event :=
  let xlen := Z.min CB.kMaxPixelsPerCall (limit - x0) in
  let xstart := xpos + x0 in
  call_events s h thread_id ypos
    (if CB.flip_x_ s then CB.width_ s - xstart - xlen else xstart) xlen
    (fun p c =>
       narrow s
         (unpremultiplied k s input_rows c
            (x0 + (if CB.flip_x_ s then xlen - 1 - p else p)))).

(** The line buffers as [ProcessRow] sets them up. *)
Definition line_buffers0 (s : CB.Stage) (input_rows : RowInfo) (xextra : Z)
    : list (ptr float) :=
  ((fun c => ptr_add (GetInputRow input_rows c) (- xextra))
     <$> seqZ 0 (CB.num_color_ s))
  ++ [if CB.has_alpha_ s
      then ptr_add (GetInputRow input_rows (CB.alpha_c_ s)) (- xextra)
      else fun _ => F32.one].

Definition ypos_out (s : CB.Stage) (ypos : Z) : Z :=
  if CB.flip_y_ s then CB.height_ s - 1 - ypos else ypos.

Definition row_limit (s : CB.Stage) (xextra xsize xpos : Z) : Z :=
  Z.min (xextra + xsize) (CB.width_ s - xpos).

(** The calls of a whole row: batch after batch. *)
Definition row_events (k : float) (s : CB.Stage) (input_rows : RowInfo)
    (h xextra xsize xpos ypos thread_id : Z) : list Event :=
  let limit := row_limit s xextra xsize xpos in
  concat
    ((fun b =>
        batch_events k s input_rows h thread_id xpos (ypos_out s ypos) limit
          (- xextra + CB.kMaxPixelsPerCall * b))
       <$> seqZ 0 (DivCeil (limit + xextra) CB.kMaxPixelsPerCall)).

(** The arguments a row call gets from the driver. *)
Definition row_args_ok (s : CB.Stage) (xextra xsize xpos ypos : Z) : Prop :=
  0 <= xextra <= xpos /\ xpos <= CB.width_ s /\ CB.width_ s < 2 ^ 63
  /\ 0 <= xsize /\ xextra + xsize < 2 ^ 63
  /\ 0 <= ypos < CB.height_ s /\ CB.height_ s < 2 ^ 64.

(** *** Rows driven through a sink, and sample data *)

(** Driving a sink over the rows [ys], one call per row. *)
Definition U8_drive (Lanes : Z) (s : U8.Stage) (rows : Z -> RowInfo)
    (xsize : Z) (ys : list Z) (rgb : ptr Z) : ptr Z :=
  foldl (fun m y => U8.ProcessRow Lanes s (rows y) 0 xsize 0 y 0 m) rgb ys.

Definition CB_drive (k : float) (s : CB.Stage) (rows : Z -> RowInfo)
    (xsize : Z) (ys : list Z) (st : CB.State) : CB.State :=
  foldl (fun st y => CB.ProcessRow k s (rows y) 0 xsize 0 y 0 st) st ys.

(** The [y] arguments of the [run] calls in a log. *)
Definition run_rows (evs : list Event) : list Z :=
  omap (fun e => match e with EvRun _ _ _ y _ _ => Some y | _ => None end) evs.

Definition u8_rgba_h4 : U8.Stage :=
  {| U8.stride_ := 8; U8.height_ := 4; U8.rgba_ := true;
     U8.has_alpha_ := true; U8.alpha_c_ := 3 |}.

Definition cb_rgba_h4 (cb : PixelCallback) : CB.Stage :=
  CB.WriteToPixelCallbackStage cb 2 4 4 true false 3 false kIdentity
    JXL_TYPE_UINT8.

Definition f_half : float := S754_finite false 8388608 (-24).
Definition f_quarter : float := S754_finite false 8388608 (-25).

(** Sample rows for the instances below: channel [c] holds [(10 c + x) / 100]
    at position [x]. *)
Definition ramp_rows : RowInfo :=
  fun c x => F32.Div (F32.of_Z (10 * c + x)) (F32.of_Z 100).

Definition cb_ok : PixelCallback := {| Init := fun _ _ => 77 |}.
Definition cb_null : PixelCallback := {| Init := fun _ _ => 0 |}.

(** The clamp constant used in the instances below, 2^-26. *)
Definition k26 : float := S754_finite false 8388608 (-49).

(** A row of two pixels with the red samples [r0], [r1], the green and blue
    samples of [g] and [b], and alpha 1.0 in channel 3. *)
Definition tile_row (r0 r1 : float) (g b : ptr float) : RowInfo :=
  fun c x =>
    if c =? 0 then (if x =? 0 then r0 else r1)
    else if c =? 1 then g x
    else if c =? 2 then b x
    else F32.one.

Definition u8_rgba_h2 : U8.Stage :=
  {| U8.stride_ := 8; U8.height_ := 2; U8.rgba_ := true;
     U8.has_alpha_ := true; U8.alpha_c_ := 3 |}.

Definition u8_rgbx : U8.Stage :=
  {| U8.stride_ := 8; U8.height_ := 2; U8.rgba_ := true;
     U8.has_alpha_ := false; U8.alpha_c_ := 3 |}.

(** *** The copying sinks *)

(** Whether [x] lies in the span of a row window copied at [xpos]. *)
Definition in_span (xextra xsize xpos x : Z) : bool :=
  (xpos - xextra <=? x) && (x <? xpos - xextra + (xsize + 2 * xextra)).

(** The extra channel [e] after the copy of the row window of channel
    [ch]. *)
Definition copied_extra (input_rows : RowInfo) (xextra xsize xpos ypos : Z)
    (ch : Z) (e : Planar.ImageF) : Planar.ImageF :=
  Planar.set_Row e ypos
    (Planar.copy_row (Planar.Row e ypos) (GetInputRow input_rows ch)
       xextra xsize xpos).

Definition plane8 : Planar.ImageF :=
  {| Planar.xsize := 8; Planar.ysize := 1; Planar.Row := fun _ _ => F32.zero |}.

Definition bundle8 : Planar.ImageBundle :=
  {| Planar.color := fun _ => plane8; Planar.extra_channels := [plane8] |}.

Definition cb_flip : CB.Stage :=
  CB.WriteToPixelCallbackStage cb_ok 8 1 1 false false 0 false kFlipHorizontal
    JXL_TYPE_FLOAT.

(** *** The pixels handed to the callback *)

(** The pixels of one [run] call, each with its x position in the stored
    frame (the flip and the transposition of the arguments undone) and its
    samples as the callback reads them. *)
Definition call_pixels (s : CB.Stage) (e : Event) : list (Z * list Sample) :=
  match e with
  | EvRun _ _ x y n data =>
      let ox := if CB.transpose_ s then y else x in
      (fun i =>
         (if CB.flip_x_ s then CB.width_ s - 1 - (ox + i) else ox + i,
          take (Z.to_nat (1 * CB.num_channels_ s))
            (drop (Z.to_nat (i * CB.num_channels_ s)) data)))
        <$> seqZ 0 n
  | _ => []
  end.

Definition delivered_pixels (s : CB.Stage) (evs : list Event)
    : list (Z * list Sample) :=
  evs ≫= call_pixels s.

(** The samples of the output pixel for the input position [r], counted
    from [xpos]. *)
Definition out_pixel (k : float) (s : CB.Stage) (input_rows : RowInfo)
    (r : Z) : list Sample :=
  (fun c => narrow s (unpremultiplied k s input_rows c r))
    <$> seqZ 0 (CB.num_channels_ s).

(** The x positions, in the stored frame, of the pixels handed over. *)
Definition delivered_xs (s : CB.Stage) (evs : list Event) : list Z :=
  fst <$> delivered_pixels s evs.

Definition cb_gray_w100 : CB.Stage :=
  CB.WriteToPixelCallbackStage cb_ok 100 1 1 false false 0 false kIdentity
    JXL_TYPE_UINT8.

(** The orientation with the same flips and no transposition. *)
Definition untransposed (o : Orientation) : Orientation :=
  match o with
  | kTranspose => kIdentity
  | kRotate90 => kFlipVertical
  | kRotate270 => kFlipHorizontal
  | kAntiTranspose => kRotate180
  | _ => o
  end.

(** A batch call cut into single-pixel calls with the coordinate arguments
    exchanged. *)
Definition split_call (nc : Z) (e : Event) : list Event :=
  match e with
  | EvRun h t x y n data =>
      (fun i => EvRun h t y (x + i) 1
                  (take (Z.to_nat (1 * nc)) (drop (Z.to_nat (i * nc)) data)))
        <$> seqZ 0 n
  | _ => [e]
  end.

(** A call for a batch of 1 to [kMaxPixelsPerCall] pixels. *)
Definition batch_call (e : Event) : Prop :=
  match e with
  | EvRun _ _ _ _ n _ => 1 <= n <= CB.kMaxPixelsPerCall
  | _ => False
  end.

Definition single_pixel_call (e : Event) : Prop :=
  match e with
  | EvRun _ _ _ _ n _ => n = 1
  | _ => False
  end.

Definition cb_transposed : CB.Stage :=
  CB.WriteToPixelCallbackStage cb_ok 8 4 3 false false 3 false kTranspose
    JXL_TYPE_UINT8.

Definition is_zero (a : float) : bool :=
  match a with S754_zero _ => true | _ => false end.

(** The statement of C1 for the calls [new] of a row: every delivered
    pixel carries, in each colour channel, the narrowed quotient of its
    colour sample by its clamped alpha sample. *)
Definition divided_by_alpha (k : float) (s : CB.Stage) (input_rows : RowInfo)
    (xpos : Z) (new : list Event) : Prop :=
  forall x px c,
    (x, px) ∈ delivered_pixels s new ->
    0 <= c < CB.num_color_ s -> c < CB.num_channels_ s ->
    px !! Z.to_nat c
    = Some (narrow s
              (F32.Div (input_rows c (x - xpos))
                 (F32.std_max k (input_rows (CB.alpha_c_ s) (x - xpos))))).

(** A row of one RGB pixel with colour 0.25 and alpha 0.5. *)
Definition quarter_rows : RowInfo :=
  fun c _ => if c =? 3 then f_half else f_quarter.

Definition cb_rgb_unpremul : CB.Stage :=
  CB.WriteToPixelCallbackStage cb_ok 1 1 3 true true 3 false kIdentity
    JXL_TYPE_FLOAT.

(** The statement of C7 for the calls [new] of a row: every delivered
    pixel whose input alpha is exactly 0 carries finite float samples in its
    colour channels. *)
Definition finite_at_zero_alpha (s : CB.Stage) (input_rows : RowInfo)
    (xpos : Z) (new : list Event) : Prop :=
  forall x px c,
    (x, px) ∈ delivered_pixels s new ->
    is_zero (input_rows (CB.alpha_c_ s) (x - xpos)) = true ->
    0 <= c < CB.num_color_ s ->
    exists v, px !! Z.to_nat c = Some (SampleF32 v) /\ F32.is_finite v = true.

Definition cb_ga_unpremul : CB.Stage :=
  CB.WriteToPixelCallbackStage cb_ok 1 1 2 true true 1 false kIdentity
    JXL_TYPE_FLOAT.

(** Rows of one grey pixel [g] with alpha 0 (alpha is channel 1). *)
Definition zero_alpha_rows (g : float) : RowInfo :=
  fun c _ => if c =? 1 then F32.zero else g.

(** The largest finite binary32 value. *)
Definition f_max : float := S754_finite false 16777215 104.

(** The binary exponent [E] of a finite non-zero float:
    [2 ^ (E - 1) <= |v| < 2 ^ E]. *)
Definition binary_exponent (v : float) : Z :=
  match v with
  | S754_finite _ m e => Z.pos (digits2_pos m) + e
  | _ => 0
  end.

(** [v] is zero, or finite with [|v| < 2 ^ n]. *)
Definition below_pow2 (v : float) (n : Z) : bool :=
  match v with
  | S754_zero _ => true
  | S754_finite _ m e => Z.pos (digits2_pos m) + e <=? n
  | _ => false
  end.

(** The grey and alpha stage of [cb_ga_unpremul] with float16 output. *)
Definition cb_ga_unpremul_f16 : CB.Stage :=
  CB.WriteToPixelCallbackStage cb_ok 1 1 2 true true 1 false kIdentity
    JXL_TYPE_FLOAT16.

(** ** Further code and observations *)

(** ** [StoreRGBA] and [WriteToU8Stage::ProcessRow] on every target *)

Module U8Target.

(** [vst4_u8] and [vst3_u8]: the 8 lanes of each register, interleaved;
    byte [k] of structure [i] is lane [i] of register [k]. *)
Definition vst4_u8 (r g b a : vec Z) (buf : Z) (m : ptr Z) : ptr Z :=
  fun x =>
    if (buf <=? x) && (x <? buf + 4 * 8)
    then lane_byte r g b a ((x - buf) mod 4) ((x - buf) / 4)
    else m x.

Definition vst3_u8 (r g b : vec Z) (buf : Z) (m : ptr Z) : ptr Z :=
  fun x =>
    if (buf <=? x) && (x <? buf + 3 * 8)
    then lane_byte r g b b ((x - buf) mod 3) ((x - buf) / 3)
    else m x.

(** [StoreRGBA], NEON target.  [tmp] is written in full before it is
    read. *)
Definition StoreRGBA_neon (r g b a : vec Z) (alpha : bool) (n extra : Z)
    (buf : Z) (m : ptr Z) : ptr Z :=
  if alpha then
    if 8 <=? extra then vst4_u8 r g b a buf m
    else
      let tmp := vst4_u8 r g b a 0 (fun _ => 0) in
      memcpy m buf tmp (n * 4)
  else
    if 8 <=? extra then vst3_u8 r g b buf m
    else
      let tmp := vst3_u8 r g b 0 (fun _ => 0) in
      memcpy m buf tmp (n * 3).

Section AnyTarget.

(** [Lanes(d)], the [StoreRGBA] of the target, and what the byte registers
    hold beyond the [Lanes] lanes the stage computes: [pad x k] is the
    register of component [k] in the iteration at [x]. *)
Variable Lanes : Z.
Variable Store :
  vec Z -> vec Z -> vec Z -> vec Z -> bool -> Z -> Z -> Z -> ptr Z -> ptr Z.
Variable pad : Z -> Z -> vec Z.

Definition reg (x k : Z) (v : vec Z) : vec Z :=
  fun i => if i <? Lanes then v i else pad x k i.

(** One iteration of the loop over [x]. *)
Definition row_step (s : U8.Stage) (row_in_r row_in_g row_in_b : ptr float)
    (row_in_a : option (ptr float)) (bytes base_ptr xsize : Z)
    (x : Z) (rgb : ptr Z) : ptr Z :=
  let zero := Set_ F32.zero in
  let one := Set_ F32.one in
  let mul := Set_ (F32.of_Z 255) in
  let rf := vMul (vClamp zero (LoadU (ptr_add row_in_r x)) one) mul in
  let gf := vMul (vClamp zero (LoadU (ptr_add row_in_g x)) one) mul in
  let bf := vMul (vClamp zero (LoadU (ptr_add row_in_b x)) one) mul in
  let af := match row_in_a with
            | Some row_in_a =>
                vMul (vClamp zero (LoadU (ptr_add row_in_a x)) one) mul
            | None => Set_ (F32.of_Z 255)
            end in
  let r8 := reg x 0 (vU8FromU32 (vBitCastU32 (vNearestInt rf))) in
  let g8 := reg x 1 (vU8FromU32 (vBitCastU32 (vNearestInt gf))) in
  let b8 := reg x 2 (vU8FromU32 (vBitCastU32 (vNearestInt bf))) in
  let a8 := reg x 3 (vU8FromU32 (vBitCastU32 (vNearestInt af))) in
  let n := wrap (xsize - x) in
  if Lanes <=? n then
    Store r8 g8 b8 a8 (U8.rgba_ s) Lanes n (base_ptr + bytes * x) rgb
  else
    Store r8 g8 b8 a8 (U8.rgba_ s) n n (base_ptr + bytes * x) rgb.

(** [ProcessRow] with the [StoreRGBA] of the target. *)
Definition ProcessRow (s : U8.Stage) (input_rows : RowInfo)
    (xextra xsize xpos ypos thread_id : Z) (rgb : ptr Z) : ptr Z :=
  if U8.height_ s <=? ypos then rgb
  else
    let bytes := if U8.rgba_ s then 4 else 3 in
    let row_in_r := GetInputRow input_rows 0 in
    let row_in_g := GetInputRow input_rows 1 in
    let row_in_b := GetInputRow input_rows 2 in
    let row_in_a :=
      if U8.has_alpha_ s then Some (GetInputRow input_rows (U8.alpha_c_ s))
      else None in
    let base_ptr := ypos * U8.stride_ s + bytes * wrap (xpos - xextra) in
    let x1 := RoundUpTo xsize Lanes in
    snd (loop (Z.to_nat (DivCeil xsize Lanes)) (fun x => x <? x1) Lanes
           (row_step s row_in_r row_in_g row_in_b row_in_a bytes base_ptr xsize)
           0 rgb).

End AnyTarget.

End U8Target.

(** What [ProcessRow] relies on in a [StoreRGBA]: called for [n] pixels,
    [1 <= n <= Lanes], with [extra >= n] pixels left in the row, it stores
    the first [n] lanes of the registers, interleaved, and touches nothing
    outside the [extra] pixels from [buf] on. *)
Definition store_ok (Lanes : Z)
    (Store : vec Z -> vec Z -> vec Z -> vec Z -> bool -> Z -> Z -> Z ->
             ptr Z -> ptr Z) : Prop :=
  forall r g b a (alpha : bool) (n extra buf : Z) m x,
    1 <= n <= Lanes -> n <= extra ->
    let mul := if alpha then 4 else 3 in
    (buf <= x < buf + mul * n ->
     Store r g b a alpha n extra buf m x
     = lane_byte r g b a ((x - buf) mod mul) ((x - buf) / mul))
    /\ (x < buf \/ buf + mul * extra <= x ->
        Store r g b a alpha n extra buf m x = m x).

(** The garbage used for the unspecified lanes in the instances below. *)
Definition pad99 : Z -> Z -> vec Z := fun _ _ _ => 99.

(** The byte at address [a] of an image whose rows [ys] went through the
    raw buffer sink, whole rows of [xsize] pixels at a time. *)
Definition u8_image (s : U8.Stage) (rows : Z -> RowInfo) (xsize : Z)
    (ys : list Z) (rgb : ptr Z) (a : Z) : Z :=
  let y := a / U8.stride_ s in
  let o := a mod U8.stride_ s in
  if bool_decide (y ∈ ys) && (o <? bytes_per_pixel s * xsize)
  then pixel_byte s (rows y) (o mod bytes_per_pixel s) (o / bytes_per_pixel s)
  else rgb a.

(** *** Where the callback is told to put the pixels *)

(** The pixels of one [run] call with the coordinates the call gives them:
    [num_pixels] pixels from [(x, y)] on, along the row [y]. *)
Definition placed_pixels (nc : Z) (e : Event) : list ((Z * Z) * list Sample) :=
  match e with
  | EvRun _ _ x y n data =>
      (fun i => ((x + i, y),
                 take (Z.to_nat (1 * nc)) (drop (Z.to_nat (i * nc)) data)))
        <$> seqZ 0 n
  | _ => []
  end.

(** The coordinates at which the pixel [(x, y)] of the stored frame is
    handed over. *)
Definition oriented (s : CB.Stage) (x y : Z) : Z * Z :=
  let fx := if CB.flip_x_ s then CB.width_ s - 1 - x else x in
  let fy := if CB.flip_y_ s then CB.height_ s - 1 - y else y in
  if CB.transpose_ s then (fy, fx) else (fx, fy).

(** The input rows seen from [n] samples further on. *)
Definition shift_rows (n : Z) (rows : RowInfo) : RowInfo :=
  fun c => ptr_add (rows c) n.

(** *** A stage from [PrepareForThreads] to its destructor *)




Definition cb_rot90 : CB.Stage :=
  CB.WriteToPixelCallbackStage cb_ok 8 4 3 false false 3 false kRotate90
    JXL_TYPE_UINT8.


Definition cb_gray_alpha : CB.Stage :=
  CB.WriteToPixelCallbackStage cb_ok 8 4 2 false true 1 false kIdentity
    JXL_TYPE_UINT16.

(** *** Orientations *)

(** The orientation that undoes [o]. *)
Definition inverse (o : Orientation) : Orientation :=
  match o with
  | kRotate90 => kRotate270
  | kRotate270 => kRotate90
  | _ => o
  end.

(** A callback stage for a stored frame of [w] by [h] pixels that undoes
    [o]; the other settings do not matter for the coordinates. *)
Definition cb_oriented (o : Orientation) (w h : Z) : CB.Stage :=
  CB.WriteToPixelCallbackStage cb_ok w h 1 false false 0 false o
    JXL_TYPE_FLOAT.

(** The coordinates [o] gives to the pixel [p] of a frame of [w] by [h]
    pixels, and the size of the frame they lie in. *)
Definition place (o : Orientation) (w h : Z) (p : Z * Z) : Z * Z :=
  oriented (cb_oriented o w h) (fst p) (snd p).

Definition placed_size (o : Orientation) (w h : Z) : Z * Z :=
  if CB.ShouldTranspose o then (h, w) else (w, h).

(** *** The copying sinks: channel modes *)

(** [WriteToImage3FStage::GetChannelMode]; [true] is [kInput]. *)
Definition GetChannelMode_Image3F (c : Z) : bool := c <? 3.

(** An extra channel too narrow for the row window. *)
Definition too_narrow (xextra xsize xpos : Z) (e : Planar.ImageF) : Prop :=
  Planar.xsize e < xpos + xsize + xextra.

Definition plane4 : Planar.ImageF :=
  {| Planar.xsize := 4; Planar.ysize := 1; Planar.Row := fun _ _ => F32.zero |}.

Definition bundle84 : Planar.ImageBundle :=
  {| Planar.color := fun _ => plane8; Planar.extra_channels := [plane8; plane4] |}.

(** *** Scaled samples *)

(** A binary32 value as the representation of one: the mantissa is
    normalised or the exponent is the smallest one. *)
Definition is_binary32 (v : float) : bool := valid_binary F32.prec F32.emax v.

(** The integer a sample is scaled to before it is narrowed: clamped to
    [0, 1], multiplied by the largest code [mul] and rounded to nearest. *)
Definition scaled (mul : Z) (v : float) : Z :=
  F32.NearestInt (F32.Mul (F32.Clamp F32.zero v F32.one) (F32.of_Z mul)).

(** *** Calls the callback can rely on *)

(** A sample of the output type [dt], within the range of its integer
    type. *)
Definition sample_of (dt : JxlDataType) (x : Sample) : Prop :=
  match dt, x with
  | JXL_TYPE_FLOAT, SampleF32 _ => True
  | JXL_TYPE_UINT16, SampleU16 u => 0 <= u <= 65535
  | JXL_TYPE_FLOAT16, SampleU16 _ => True
  | JXL_TYPE_UINT8, SampleU8 u => 0 <= u <= 255
  | _, _ => False
  end.

(** A [run] call for 1 to [kMaxPixelsPerCall] pixels whose buffer holds
    [num_channels] samples of the output type for each of them. *)
Definition well_formed_call (s : CB.Stage) (e : Event) : Prop :=
  match e with
  | EvRun _ _ _ _ n data =>
      1 <= n <= CB.kMaxPixelsPerCall
      /\ Z.of_nat (length data) = n * CB.num_channels_ s
      /\ Forall (sample_of (CB.data_type_ s)) data
  | _ => False
  end.

(** * Properties *)

(** ** Loop rules *)

Section LoopRules.

Context {S : Type}.
Implicit Types (body : Z -> S -> S) (P : Z -> S -> Prop).

Lemma loop_ext fuel (c1 c2 : Z -> bool) step body i s :
  (forall j, c1 j = c2 j) ->
  loop fuel c1 step body i s = loop fuel c2 step body i s.
Proof.
  intros Hc. revert i s.
  induction fuel as [|fuel IH]; intros i s; simpl; [reflexivity|].
  rewrite Hc. destruct (c2 i); [apply IH | reflexivity].
Qed.

(** The invariant rule for [for (i = i0; i < hi; i += step)]. *)
Lemma loop_rule P fuel hi step body i0 s0 :
  0 < step ->
  hi - i0 <= Z.of_nat fuel * step ->
  P i0 s0 ->
  (forall i s, i < hi -> P i s -> P (i + step) (body i s)) ->
  hi <= fst (loop fuel (fun i => i <? hi) step body i0 s0)
  /\ P (fst (loop fuel (fun i => i <? hi) step body i0 s0))
       (snd (loop fuel (fun i => i <? hi) step body i0 s0)).
Proof.
  intros Hstep Hfuel H0 Hbody. revert i0 s0 Hfuel H0.
  induction fuel as [|fuel IH]; intros i0 s0 Hfuel H0; simpl.
  - split; [lia | assumption].
  - destruct (Z.ltb_spec i0 hi) as [Hlt|Hge]; simpl.
    + apply IH; [lia | auto].
    + split; [lia | assumption].
Qed.

Lemma for_n_rule P n body s0 :
  P 0 s0 ->
  (forall i s, 0 <= i < n -> P i s -> P (i + 1) (body i s)) ->
  P (Z.max 0 n) (for_n n body s0).
Proof.
  intros H0 Hbody. unfold for_n.
  destruct (loop_rule (fun i s => 0 <= i <= Z.max 0 n /\ P i s)
              (Z.to_nat n) n 1 body 0 s0) as (Hhi & Hr & HP).
  - lia.
  - lia.
  - split; [lia | assumption].
  - intros i s Hi [Hr HP]. split; [lia|]. apply Hbody; [lia | assumption].
  - replace (Z.max 0 n)
      with (fst (loop (Z.to_nat n) (fun i => i <? n) 1 body 0 s0)) by lia.
    exact HP.
Qed.

End LoopRules.

(** ** Memory and arrays *)

Lemma store_eq {A} (m : ptr A) a v : store m a v a = v.
Proof. unfold store. rewrite Z.eqb_refl. reflexivity. Qed.

Lemma store_ne {A} (m : ptr A) a v x : x <> a -> store m a v x = m x.
Proof. unfold store. intros H. destruct (Z.eqb_spec x a); congruence. Qed.

(** A loop of stores to pairwise distinct addresses. *)
Lemma for_n_store {A} n (addr : Z -> Z) (v : Z -> A) (m : ptr A) a :
  (forall i j, 0 <= i < n -> 0 <= j < n -> addr i = addr j -> i = j) ->
  (forall i, 0 <= i < n -> addr i = a ->
     for_n n (fun i m => store m (addr i) (v i)) m a = v i)
  /\ ((forall i, 0 <= i < n -> addr i <> a) ->
     for_n n (fun i m => store m (addr i) (v i)) m a = m a).
Proof.
  intros Hinj.
  pose proof (for_n_rule
    (fun k m' => (forall i, 0 <= i < k -> addr i = a -> m' a = v i)
                 /\ ((forall i, 0 <= i < k -> addr i <> a) -> m' a = m a))
    n (fun i m => store m (addr i) (v i)) m) as H.
  destruct H as [Hhit Hmiss].
  - split; [intros; lia | reflexivity].
  - intros k m' Hk [Hh Hm]. split.
    + intros i Hi Ha. destruct (Z.eq_dec i k) as [->|Hne].
      * rewrite <- Ha. apply store_eq.
      * rewrite store_ne.
        -- apply Hh; [lia | assumption].
        -- intros E. apply Hne. apply Hinj; [lia | lia | congruence].
    + intros Hno. rewrite store_ne.
      * apply Hm. intros i Hi. apply Hno. lia.
      * intros E. apply (Hno k); [lia | congruence].
  - split.
    + intros i Hi Ha. apply Hhit; [lia | assumption].
    + intros Hno. apply Hmiss. intros i Hi. apply Hno. lia.
Qed.

(** A loop of stores at stride [mul], offset [k]. *)
Lemma for_n_store_stride {A} n buf mul k (addr : Z -> Z) (v : Z -> A)
    (m : ptr A) x :
  0 < mul ->
  (forall i, addr i = buf + mul * i + k) ->
  for_n n (fun i m => store m (addr i) (v i)) m x =
    if (0 <=? x - buf - k) && (x - buf - k <? mul * n)
       && ((x - buf - k) mod mul =? 0)
    then v ((x - buf - k) / mul) else m x.
Proof.
  intros Hmul Haddr.
  destruct (for_n_store n addr v m x) as [Hhit Hmiss].
  { intros i j _ _. rewrite !Haddr. nia. }
  destruct (Z.leb_spec 0 (x - buf - k)) as [H1|H1]; simpl.
  2:{ apply Hmiss. intros i Hi. rewrite Haddr. nia. }
  destruct (Z.ltb_spec (x - buf - k) (mul * n)) as [H2|H2]; simpl.
  2:{ apply Hmiss. intros i Hi. rewrite Haddr. nia. }
  destruct (Z.eqb_spec ((x - buf - k) mod mul) 0) as [H3|H3].
  - apply Hhit.
    + pose proof (Z.div_mod (x - buf - k) mul ltac:(lia)).
      assert (0 <= (x - buf - k) / mul) by (apply Z.div_pos; lia).
      split; [assumption|].
      apply Z.div_lt_upper_bound; lia.
    + rewrite Haddr.
      pose proof (Z.div_mod (x - buf - k) mul ltac:(lia)). lia.
  - apply Hmiss. intros i Hi. rewrite Haddr. intros E. apply H3.
    replace (x - buf - k) with (i * mul) by lia.
    apply Z.mod_mul. lia.
Qed.

Lemma stride_cond x buf mul k n :
  0 < mul -> 0 <= k < mul ->
  ((0 <=? x - buf - k) && (x - buf - k <? mul * n)
   && ((x - buf - k) mod mul =? 0))
  = ((buf <=? x) && (x <? buf + mul * n) && ((x - buf) mod mul =? k)).
Proof.
  intros Hmul Hk.
  pose proof (Z.div_mod (x - buf) mul ltac:(lia)) as Hd.
  pose proof (Z.mod_pos_bound (x - buf) mul Hmul) as Hm.
  pose proof (Z.div_mod (x - buf - k) mul ltac:(lia)) as Hd'.
  pose proof (Z.mod_pos_bound (x - buf - k) mul Hmul) as Hm'.
  apply eq_true_iff_eq.
  rewrite !andb_true_iff, !Z.leb_le, !Z.ltb_lt, !Z.eqb_eq.
  split.
  - intros [[H1 H2] H3]. rewrite H3 in Hd'.
    assert (Hq : (x - buf) mod mul = k).
    { symmetry. apply (Z.mod_unique_pos _ _ ((x - buf - k) / mul)); lia. }
    repeat split; [lia | | exact Hq].
    assert ((x - buf - k) / mul < n) by (apply Z.div_lt_upper_bound; lia).
    nia.
  - intros [[H1 H2] H3]. rewrite H3 in Hd.
    assert (Hq : (x - buf - k) mod mul = 0).
    { symmetry. apply (Z.mod_unique_pos _ _ ((x - buf) / mul)); lia. }
    assert (0 <= (x - buf) / mul) by (apply Z.div_pos; lia).
    repeat split; [nia | lia | exact Hq].
Qed.

Lemma stride_div x buf mul k :
  0 < mul -> (x - buf) mod mul = k -> (x - buf - k) / mul = (x - buf) / mul.
Proof.
  intros Hmul Hk.
  pose proof (Z.div_mod (x - buf) mul ltac:(lia)) as Hd.
  pose proof (Z.mod_pos_bound (x - buf) mul Hmul) as Hm.
  symmetry. apply (Z.div_unique_pos _ _ _ 0); lia.
Qed.

Lemma StoreRGBA_spec r g b a alpha n extra buf m x :
  U8.StoreRGBA r g b a alpha n extra buf m x =
    let mul := if alpha then 4 else 3 in
    if (buf <=? x) && (x <? buf + mul * n)
    then lane_byte r g b a ((x - buf) mod mul) ((x - buf) / mul)
    else m x.
Proof.
  unfold U8.StoreRGBA, lane_byte.
  destruct alpha; cbv zeta.
  - rewrite (for_n_store_stride n buf 4 3) by (intros; lia).
    rewrite (for_n_store_stride n buf 4 2) by (intros; lia).
    rewrite (for_n_store_stride n buf 4 1) by (intros; lia).
    rewrite (for_n_store_stride n buf 4 0) by (intros; lia).
    rewrite !stride_cond by lia.
    pose proof (Z.mod_pos_bound (x - buf) 4 ltac:(lia)) as Hm.
    destruct ((buf <=? x) && (x <? buf + 4 * n)); simpl; [|reflexivity].
    destruct (Z.eqb_spec ((x - buf) mod 4) 3) as [E|N3];
      [rewrite ?E; simpl; f_equal; apply stride_div; lia|].
    destruct (Z.eqb_spec ((x - buf) mod 4) 2) as [E|N2];
      [rewrite ?E; simpl; f_equal; apply stride_div; lia|].
    destruct (Z.eqb_spec ((x - buf) mod 4) 1) as [E|N1];
      [rewrite ?E; simpl; f_equal; apply stride_div; lia|].
    destruct (Z.eqb_spec ((x - buf) mod 4) 0) as [E|N0];
      [rewrite ?E; simpl; f_equal; apply stride_div; lia|].
    lia.
  - rewrite (for_n_store_stride n buf 3 2) by (intros; lia).
    rewrite (for_n_store_stride n buf 3 1) by (intros; lia).
    rewrite (for_n_store_stride n buf 3 0) by (intros; lia).
    rewrite !stride_cond by lia.
    pose proof (Z.mod_pos_bound (x - buf) 3 ltac:(lia)) as Hm.
    destruct ((buf <=? x) && (x <? buf + 3 * n)); simpl; [|reflexivity].
    destruct (Z.eqb_spec ((x - buf) mod 3) 2) as [E|N2];
      [rewrite ?E; simpl; f_equal; apply stride_div; lia|].
    destruct (Z.eqb_spec ((x - buf) mod 3) 1) as [E|N1];
      [rewrite ?E; simpl; f_equal; apply stride_div; lia|].
    destruct (Z.eqb_spec ((x - buf) mod 3) 0) as [E|N0];
      [rewrite ?E; simpl; f_equal; apply stride_div; lia|].
    lia.
Qed.

(** ** WriteToU8Stage: the bytes written by [ProcessRow] *)

Lemma RoundUpTo_bounds n L :
  0 < L -> 0 <= n ->
  n <= RoundUpTo n L /\ RoundUpTo n L < n + L /\ 0 <= DivCeil n L.
Proof.
  intros HL Hn. unfold RoundUpTo, DivCeil.
  pose proof (Z.div_mod (n + L - 1) L ltac:(lia)).
  pose proof (Z.mod_pos_bound (n + L - 1) L HL).
  assert (0 <= (n + L - 1) / L) by (apply Z.div_pos; lia).
  nia.
Qed.

Lemma row_step_spec Lanes s input_rows xextra xsize xpos ypos x rgb a :
  0 < Lanes -> 0 <= x < xsize -> xsize < 2 ^ 64 ->
  U8.row_step Lanes s (GetInputRow input_rows 0) (GetInputRow input_rows 1)
    (GetInputRow input_rows 2)
    (if U8.has_alpha_ s then Some (GetInputRow input_rows (U8.alpha_c_ s))
     else None)
    (bytes_per_pixel s) (base_ptr s xextra xpos ypos) xsize x rgb a =
  let buf := base_ptr s xextra xpos ypos + bytes_per_pixel s * x in
  if (buf <=? a) && (a <? buf + bytes_per_pixel s * Z.min Lanes (xsize - x))
  then pixel_byte s input_rows ((a - buf) mod bytes_per_pixel s)
         (x + (a - buf) / bytes_per_pixel s)
  else rgb a.
Proof.
  intros HL Hx Hxs. unfold U8.row_step. cbv zeta.
  assert (Hn : wrap (xsize - x) = xsize - x).
  { unfold wrap. apply Z.mod_small. lia. }
  rewrite Hn.
  assert (Hcnt : forall (f : Z -> ptr Z),
    (if Lanes <=? xsize - x then f Lanes else f (xsize - x))
    = f (Z.min Lanes (xsize - x))).
  { intros f. destruct (Z.leb_spec Lanes (xsize - x)).
    - rewrite Z.min_l by lia. reflexivity.
    - rewrite Z.min_r by lia. reflexivity. }
  match goal with
  | |- (if _ then U8.StoreRGBA ?r ?g ?b ?al ?rg _ ?e ?bf ?m
        else U8.StoreRGBA _ _ _ _ _ _ ?e ?bf ?m) a = _ =>
      rewrite (Hcnt (fun c => U8.StoreRGBA r g b al rg c e bf m))
  end.
  rewrite StoreRGBA_spec. cbv zeta. unfold bytes_per_pixel.
  destruct ((base_ptr s xextra xpos ypos + (if U8.rgba_ s then 4 else 3) * x <=? a)
            && (a <? base_ptr s xextra xpos ypos + (if U8.rgba_ s then 4 else 3) * x
                     + (if U8.rgba_ s then 4 else 3) * Z.min Lanes (xsize - x)));
    [|reflexivity].
  unfold lane_byte, pixel_byte.
  repeat match goal with
         | |- context [Z.eqb ?u ?v] => destruct (Z.eqb_spec u v)
         end; try reflexivity.
  destruct (U8.has_alpha_ s); reflexivity.
Qed.

Lemma U8_ProcessRow_spec Lanes s input_rows xextra xsize xpos ypos thread_id rgb a :
  0 < Lanes -> 0 <= xsize < 2 ^ 64 -> ypos < U8.height_ s ->
  U8.ProcessRow Lanes s input_rows xextra xsize xpos ypos thread_id rgb a =
  let base := base_ptr s xextra xpos ypos in
  if (base <=? a) && (a <? base + bytes_per_pixel s * xsize)
  then pixel_byte s input_rows ((a - base) mod bytes_per_pixel s)
         ((a - base) / bytes_per_pixel s)
  else rgb a.
Proof.
  intros HL Hxs Hy. unfold U8.ProcessRow.
  destruct (Z.leb_spec (U8.height_ s) ypos) as [?|_]; [lia|].
  cbv zeta. fold (bytes_per_pixel s). fold (base_ptr s xextra xpos ypos).
  set (base := base_ptr s xextra xpos ypos).
  set (bpp := bytes_per_pixel s).
  assert (Hbpp : bpp = 3 \/ bpp = 4).
  { unfold bpp, bytes_per_pixel. destruct (U8.rgba_ s); auto. }
  destruct (RoundUpTo_bounds xsize Lanes HL ltac:(lia)) as (Hr1 & Hr2 & Hr3).
  match goal with
  | |- snd (loop ?fuel ?c ?st ?body 0 rgb) a = _ =>
      destruct (loop_rule
        (fun x m => 0 <= x /\ x mod Lanes = 0 /\
           forall a, m a =
             if (base <=? a) && (a <? base + bpp * Z.min x xsize)
             then pixel_byte s input_rows ((a - base) mod bpp) ((a - base) / bpp)
             else rgb a)
        fuel (RoundUpTo xsize Lanes) Lanes body 0 rgb)
        as (Hend & Hx0 & Hxm & Hinv)
  end.
  - exact HL.
  - unfold RoundUpTo in *. lia.
  - split; [lia|]. split; [apply Z.mod_0_l; lia|].
    intros a'. rewrite Z.min_l by lia.
    destruct (Z.leb_spec base a'), (Z.ltb_spec a' (base + bpp * 0));
      simpl; try reflexivity; lia.
  - intros x m Hlt (Hx0 & Hxm & Hinv).
    assert (Hxlt : x < xsize).
    { unfold RoundUpTo in *.
      pose proof (Z.div_mod x Lanes ltac:(lia)) as Hd. rewrite Hxm in Hd.
      assert (x / Lanes < DivCeil xsize Lanes) by nia.
      nia. }
    split; [lia|]. split.
    { rewrite <- (Z.mul_1_l Lanes) at 1. rewrite Z.mod_add by lia. exact Hxm. }
    intros a'. unfold base, bpp. rewrite row_step_spec by lia.
    cbv zeta. fold base. fold bpp. rewrite Hinv.
    rewrite (Z.min_l x xsize) by lia.
    assert (Hmin : Z.min (x + Lanes) xsize = x + Z.min Lanes (xsize - x)) by lia.
    rewrite Hmin.
    destruct (Z.leb_spec (base + bpp * x) a'),
      (Z.ltb_spec a' (base + bpp * x + bpp * Z.min Lanes (xsize - x)));
      simpl.
    + destruct (Z.leb_spec base a'); [|nia].
      destruct (Z.ltb_spec a' (base + bpp * (x + Z.min Lanes (xsize - x))));
        [|nia]. simpl.
      replace (a' - (base + bpp * x)) with (a' - base + (- x) * bpp) by lia.
      rewrite Z.mod_add by lia. rewrite Z.div_add by lia.
      f_equal. lia.
    + destruct (Z.leb_spec base a'), (Z.ltb_spec a' (base + bpp * x)),
        (Z.ltb_spec a' (base + bpp * (x + Z.min Lanes (xsize - x))));
        simpl; try reflexivity; nia.
    + destruct (Z.leb_spec base a'), (Z.ltb_spec a' (base + bpp * x)),
        (Z.ltb_spec a' (base + bpp * (x + Z.min Lanes (xsize - x))));
        simpl; try reflexivity; nia.
    + destruct (Z.leb_spec base a'), (Z.ltb_spec a' (base + bpp * x)),
        (Z.ltb_spec a' (base + bpp * (x + Z.min Lanes (xsize - x))));
        simpl; try reflexivity; nia.
  - rewrite Hinv. rewrite Z.min_r by lia. reflexivity.
Qed.

(** ** Arrays of interleaved pixels *)

Lemma lookup_total_insert_Z {A} `{!Inhabited A} (l : list A) i j x :
  0 <= i -> 0 <= j -> i < Z.of_nat (length l) ->
  (<[Z.to_nat i := x]> l) !!! Z.to_nat j = if j =? i then x else l !!! Z.to_nat j.
Proof.
  intros Hi Hj Hlen. destruct (Z.eqb_spec j i) as [->|Hne].
  - apply list_lookup_total_insert_eq. lia.
  - apply list_lookup_total_insert_ne. lia.
Qed.

Lemma swap_at_length temp i j : length (CB.swap_at temp i j) = length temp.
Proof. unfold CB.swap_at. rewrite !length_insert. reflexivity. Qed.

Lemma swap_at_lookup temp i j x :
  0 <= i < Z.of_nat (length temp) -> 0 <= j < Z.of_nat (length temp) ->
  0 <= x ->
  CB.swap_at temp i j !!! Z.to_nat x =
    if x =? j then temp !!! Z.to_nat i
    else if x =? i then temp !!! Z.to_nat j
    else temp !!! Z.to_nat x.
Proof.
  intros Hi Hj Hx. unfold CB.swap_at.
  rewrite lookup_total_insert_Z by (rewrite ?length_insert; lia).
  destruct (Z.eqb_spec x j); [reflexivity|].
  rewrite lookup_total_insert_Z by lia. reflexivity.
Qed.

(** Pixel [p], channel [c] of an array of [nc]-channel pixels sits at
    index [p * nc + c]. *)
Lemma pix_div p c nc : 0 <= c < nc -> (p * nc + c) / nc = p.
Proof.
  intros Hc. symmetry. apply (Z.div_unique_pos _ _ _ c); lia.
Qed.

Lemma pix_mod p c nc : 0 <= c < nc -> (p * nc + c) mod nc = c.
Proof.
  intros Hc. symmetry. apply (Z.mod_unique_pos _ _ p); lia.
Qed.

Lemma pix_inj p c p' c' nc :
  0 <= c < nc -> 0 <= c' < nc -> p * nc + c = p' * nc + c' -> p = p' /\ c = c'.
Proof.
  intros Hc Hc' E.
  assert (p = p').
  { rewrite <- (pix_div p c nc Hc), <- (pix_div p' c' nc Hc'). congruence. }
  subst. lia.
Qed.

Lemma pix_split j nc :
  0 < nc -> j = (j / nc) * nc + j mod nc /\ 0 <= j mod nc < nc.
Proof.
  intros Hnc. pose proof (Z.div_mod j nc ltac:(lia)).
  pose proof (Z.mod_pos_bound j nc Hnc). lia.
Qed.

Lemma pix_range p c nc n :
  0 <= p < n -> 0 <= c < nc -> 0 <= p * nc + c < n * nc.
Proof. intros Hp Hc. nia. Qed.

Lemma pixels_length {A} nc n (f : Z -> Z -> A) :
  Z.of_nat (length (pixels nc n f)) = Z.max 0 (n * nc).
Proof. unfold pixels. rewrite length_fmap, length_seqZ. lia. Qed.

Lemma pixels_lookup {A} `{!Inhabited A} nc n (f : Z -> Z -> A) p c :
  0 <= p < n -> 0 <= c < nc ->
  pixels nc n f !!! Z.to_nat (p * nc + c) = f p c.
Proof.
  intros Hp Hc. unfold pixels.
  pose proof (pix_range p c nc n Hp Hc) as Hr.
  apply list_lookup_total_correct.
  rewrite list_lookup_fmap, lookup_seqZ_lt by lia. simpl.
  rewrite Z2Nat.id by lia. simpl. rewrite Z.add_0_l.
  rewrite pix_div, pix_mod by lia. reflexivity.
Qed.

Lemma pixels_eq {A} `{!Inhabited A} nc n (f : Z -> Z -> A) (l : list A) :
  0 < nc -> 0 <= n ->
  Z.of_nat (length l) = n * nc ->
  (forall p c, 0 <= p < n -> 0 <= c < nc ->
     l !!! Z.to_nat (p * nc + c) = f p c) ->
  l = pixels nc n f.
Proof.
  intros Hnc Hn Hlen Hl.
  apply (list_eq_same_length _ _ (length l)); [|reflexivity|].
  { apply Nat2Z.inj. rewrite pixels_length. lia. }
  intros i x y Hi Hx Hy.
  destruct (pix_split (Z.of_nat i) nc Hnc) as [Hs Hm].
  assert (Hp : 0 <= Z.of_nat i / nc < n).
  { split; [apply Z.div_pos; lia|]. apply Z.div_lt_upper_bound; lia. }
  apply list_lookup_total_correct in Hx, Hy.
  rewrite <- Hx, <- Hy.
  replace i with (Z.to_nat (Z.of_nat i / nc * nc + Z.of_nat i mod nc)) by lia.
  rewrite Hl, pixels_lookup by lia. reflexivity.
Qed.

Lemma pixels_fmap {A B} (g : A -> B) nc n (f : Z -> Z -> A) :
  g <$> pixels nc n f = pixels nc n (fun p c => g (f p c)).
Proof. unfold pixels. rewrite <- list_fmap_compose. reflexivity. Qed.

Lemma pixels_ext {A} nc n (f g : Z -> Z -> A) :
  0 < nc ->
  (forall p c, 0 <= p < n -> 0 <= c < nc -> f p c = g p c) ->
  pixels nc n f = pixels nc n g.
Proof.
  intros Hnc Hfg. unfold pixels. apply list_fmap_ext.
  intros i j Hj. apply lookup_seqZ in Hj as [-> Hlt].
  rewrite Z.add_0_l.
  destruct (pix_split (Z.of_nat i) nc Hnc) as [Hs Hm].
  apply Hfg; [|lia].
  split; [apply Z.div_pos; lia|]. apply Z.div_lt_upper_bound; lia.
Qed.

(** The pixel [i] of an array, as the callback reads it from the pointer
    to its first sample. *)
Lemma pixels_take_drop {A} `{!Inhabited A} nc n (f : Z -> Z -> A) i :
  0 < nc -> 0 <= i < n ->
  take (Z.to_nat (1 * nc)) (drop (Z.to_nat (i * nc)) (pixels nc n f))
  = pixels nc 1 (fun _ c => f i c).
Proof.
  intros Hnc Hi. apply pixels_eq; [lia | lia | |].
  - rewrite length_take, length_drop.
    pose proof (pixels_length nc n f). nia.
  - intros p c Hp Hc. assert (p = 0) as -> by lia.
    rewrite lookup_total_take_lt by lia.
    rewrite lookup_total_drop.
    replace (Z.to_nat (i * nc) + Z.to_nat (0 * nc + c))%nat
      with (Z.to_nat (i * nc + c)) by nia.
    apply pixels_lookup; lia.
Qed.

(** ** Unpremultiplication, pixel by pixel *)

Lemma UnpremultiplyAlpha_spec k (l : list float) ncol n :
  0 <= ncol -> 0 <= n ->
  Z.of_nat (length l) = n * (ncol + 1) ->
  length (CB.UnpremultiplyAlpha k l ncol n) = length l
  /\ forall p c, 0 <= p < n -> 0 <= c < ncol + 1 ->
       CB.UnpremultiplyAlpha k l ncol n !!! Z.to_nat (p * (ncol + 1) + c) =
         if c <? ncol
         then F32.Div (l !!! Z.to_nat (p * (ncol + 1) + c))
                (F32.std_max k (l !!! Z.to_nat (p * (ncol + 1) + ncol)))
         else l !!! Z.to_nat (p * (ncol + 1) + c).
Proof.
  intros Hncol Hn Hlen. unfold CB.UnpremultiplyAlpha.
  set (nc := ncol + 1) in *.
  set (done p c := F32.Div (l !!! Z.to_nat (p * nc + c))
                     (F32.std_max k (l !!! Z.to_nat (p * nc + ncol)))).
  match goal with
  | |- context [for_n n ?body l] =>
      pose proof (for_n_rule
        (fun x t => length t = length l /\
           forall p c, 0 <= p < n -> 0 <= c < nc ->
             t !!! Z.to_nat (p * nc + c) =
               if (p <? x) && (c <? ncol) then done p c
               else l !!! Z.to_nat (p * nc + c))
        n body l) as H
  end.
  destruct H as [Hl Hp].
  - split; [reflexivity|]. intros p c Hp Hc.
    destruct (Z.ltb_spec p 0); [lia|]. reflexivity.
  - intros x t Hx [Ht Hinv]. cbv beta zeta.
    match goal with
    | |- context [for_n ncol ?body t] =>
        pose proof (for_n_rule
          (fun c' t' => length t' = length l /\
             forall p c, 0 <= p < n -> 0 <= c < nc ->
               t' !!! Z.to_nat (p * nc + c) =
                 if ((p <? x) || ((p =? x) && (c <? c'))) && (c <? ncol)
                 then done p c
                 else l !!! Z.to_nat (p * nc + c))
          ncol body t) as H
    end.
    destruct H as [Hl' Hp'].
    + split; [exact Ht|]. intros p c Hp Hc. rewrite Hinv by assumption.
      destruct (Z.ltb_spec p x), (Z.eqb_spec p x), (Z.ltb_spec c 0),
        (Z.ltb_spec c ncol); simpl; try reflexivity; lia.
    + intros c' t' Hc' [Ht' Hinv']. cbv beta. split.
      { rewrite length_insert. exact Ht'. }
      intros p c Hp Hc.
      pose proof (pix_range x c' nc n Hx ltac:(lia)) as Hr1.
      pose proof (pix_range p c nc n Hp Hc) as Hr2.
      rewrite lookup_total_insert_Z by lia.
      destruct (Z.eqb_spec (p * nc + c) (x * nc + c')) as [E|NE].
      * apply pix_inj in E as [-> ->]; [|lia|lia].
        rewrite Hinv' by lia.
        rewrite (Hinv x ncol) by lia.
        unfold done.
        destruct (Z.ltb_spec x x), (Z.eqb_spec x x), (Z.ltb_spec c' c'),
          (Z.ltb_spec c' (c' + 1)), (Z.ltb_spec c' ncol),
          (Z.ltb_spec ncol ncol); simpl; try reflexivity; lia.
      * rewrite Hinv' by lia.
        assert (p <> x \/ c <> c') by (destruct (Z.eq_dec p x); [right|left]; congruence).
        destruct (Z.ltb_spec p x), (Z.eqb_spec p x), (Z.ltb_spec c c'),
          (Z.ltb_spec c (c' + 1)), (Z.ltb_spec c ncol);
          simpl; try reflexivity; lia.
    + split; [rewrite Hl'; reflexivity|]. intros p c Hp Hc.
      rewrite Hp' by assumption. rewrite Z.max_r by lia.
      destruct (Z.ltb_spec p x), (Z.eqb_spec p x), (Z.ltb_spec p (x + 1)),
        (Z.ltb_spec c ncol); simpl; try reflexivity; lia.
  - split; [exact Hl|]. intros p c Hp' Hc. rewrite Hp by assumption.
    rewrite Z.max_r by lia.
    destruct (Z.ltb_spec p n), (Z.ltb_spec c ncol); simpl; try reflexivity; lia.
Qed.

(** ** The horizontal flip reverses the pixels of a batch *)

Lemma wrap_small z : 0 <= z < 2 ^ 64 -> wrap z = z.
Proof. intros H. unfold wrap. apply Z.mod_small. exact H. Qed.

Lemma to_ssize_small z : - 2 ^ 63 <= z < 2 ^ 63 -> to_ssize z = z.
Proof.
  intros H. unfold to_ssize, wrap.
  destruct (Z.neg_nonneg_cases z) as [Hneg|Hpos].
  - replace (z mod 2 ^ 64) with (z + 2 ^ 64).
    + destruct (Z.ltb_spec (z + 2 ^ 64) (2 ^ 63)); lia.
    + apply (Z.mod_unique_pos _ _ (- 1)); lia.
  - rewrite Z.mod_small by lia.
    destruct (Z.ltb_spec z (2 ^ 63)); lia.
Qed.

Lemma FlipX_spec s (l : list float) xstart xlen :
  0 < CB.num_channels_ s -> 0 <= xlen ->
  xlen * CB.num_channels_ s < 2 ^ 64 ->
  Z.of_nat (length l) = xlen * CB.num_channels_ s ->
  length (fst (CB.FlipX s l xstart xlen)) = length l
  /\ forall p c, 0 <= p < xlen -> 0 <= c < CB.num_channels_ s ->
       fst (CB.FlipX s l xstart xlen) !!! Z.to_nat (p * CB.num_channels_ s + c)
       = l !!! Z.to_nat ((xlen - 1 - p) * CB.num_channels_ s + c).
Proof.
  intros Hnc Hxlen Hbound Hlen. unfold CB.FlipX. cbv zeta. simpl fst.
  set (nc := CB.num_channels_ s) in *.
  pose proof (Z.div_mod xlen 2 ltac:(lia)) as Hd2.
  pose proof (Z.mod_pos_bound xlen 2 ltac:(lia)) as Hm2.
  set (h := xlen / 2) in *.
  assert (Hh : 0 <= h) by lia.
  match goal with
  | |- context [loop ?fuel ?cnd ?st ?body 0 l] =>
      destruct (loop_rule
        (fun i t => exists q, i = q * nc /\ 0 <= q <= h /\
           length t = length l /\
           forall p c, 0 <= p < xlen -> 0 <= c < nc ->
             t !!! Z.to_nat (p * nc + c) =
               l !!! Z.to_nat
                 ((if (p <? q) || (xlen - q <=? p) then xlen - 1 - p else p)
                  * nc + c))
        fuel (h * nc) nc body 0 l) as (Hend & q & Hq & Hqr & Hl & Hinv)
  end.
  - exact Hnc.
  - rewrite Z2Nat.id by lia. lia.
  - exists 0. repeat split; try lia.
    intros p c Hp Hc.
    destruct (Z.ltb_spec p 0), (Z.leb_spec (xlen - 0) p); simpl;
      try reflexivity; lia.
  - intros i t Hi (q & -> & Hqr & Ht & Hinv).
    assert (Hq : q < h) by nia.
    exists (q + 1). split; [lia|]. split; [lia|].
    assert (Hw1 : wrap (xlen - 1) = xlen - 1) by (apply wrap_small; nia).
    rewrite Hw1.
    assert (Hw2 : wrap ((xlen - 1) * nc - q * nc) = (xlen - 1 - q) * nc).
    { rewrite wrap_small by nia. lia. }
    rewrite Hw2.
    match goal with
    | |- context [for_n nc ?body t] =>
        pose proof (for_n_rule
          (fun c' t' => length t' = length l /\
             forall p c, 0 <= p < xlen -> 0 <= c < nc ->
               t' !!! Z.to_nat (p * nc + c) =
                 l !!! Z.to_nat
                   ((if (p <? q) || (xlen - q <=? p)
                        || (((p =? q) || (p =? xlen - 1 - q)) && (c <? c'))
                     then xlen - 1 - p else p) * nc + c))
          nc body t) as H
    end.
    destruct H as [Hl' Hp'].
    + split; [exact Ht|]. intros p c Hp Hc. rewrite Hinv by assumption.
      destruct (Z.ltb_spec p q), (Z.leb_spec (xlen - q) p), (Z.ltb_spec c 0);
        simpl; rewrite ?andb_false_r; try reflexivity; lia.
    + intros c' t' Hc' [Ht' Hinv']. split.
      { rewrite swap_at_length. exact Ht'. }
      intros p c Hp Hc.
      pose proof (pix_range q c' nc xlen ltac:(lia) Hc') as Hr1.
      pose proof (pix_range (xlen - 1 - q) c' nc xlen ltac:(lia) Hc') as Hr2.
      pose proof (pix_range p c nc xlen Hp Hc) as Hr3.
      rewrite swap_at_lookup by lia.
      destruct (Z.eqb_spec (p * nc + c) ((xlen - 1 - q) * nc + c')) as [E|NE].
      { apply pix_inj in E as [-> ->]; [|lia|lia].
        rewrite Hinv' by lia.
        destruct (Z.ltb_spec q q), (Z.leb_spec (xlen - q) q), (Z.eqb_spec q q),
          (Z.ltb_spec c' c'), (Z.ltb_spec (xlen - 1 - q) q),
          (Z.leb_spec (xlen - q) (xlen - 1 - q)),
          (Z.eqb_spec (xlen - 1 - q) q),
          (Z.eqb_spec (xlen - 1 - q) (xlen - 1 - q)),
          (Z.ltb_spec c' (c' + 1));
          simpl; try lia.
        do 2 f_equal. lia. }
      destruct (Z.eqb_spec (p * nc + c) (q * nc + c')) as [E|NE'].
      { apply pix_inj in E as [-> ->]; [|lia|lia].
        rewrite Hinv' by lia.
        destruct (Z.ltb_spec q q), (Z.leb_spec (xlen - q) q), (Z.eqb_spec q q),
          (Z.ltb_spec c' c'), (Z.ltb_spec (xlen - 1 - q) q),
          (Z.leb_spec (xlen - q) (xlen - 1 - q)),
          (Z.eqb_spec (xlen - 1 - q) q),
          (Z.eqb_spec (xlen - 1 - q) (xlen - 1 - q)),
          (Z.ltb_spec c' (c' + 1));
          simpl; try lia.
        do 2 f_equal. }
      rewrite Hinv' by lia.
      assert (Hd1 : p <> q \/ c <> c')
        by (destruct (Z.eq_dec p q); [right|left]; congruence).
      assert (Hd3 : p <> xlen - 1 - q \/ c <> c')
        by (destruct (Z.eq_dec p (xlen - 1 - q)); [right|left]; congruence).
      destruct (Z.ltb_spec p q), (Z.leb_spec (xlen - q) p), (Z.eqb_spec p q),
        (Z.eqb_spec p (xlen - 1 - q)), (Z.ltb_spec c c'),
        (Z.ltb_spec c (c' + 1));
        simpl; try reflexivity; lia.
    + split; [rewrite Hl'; reflexivity|]. intros p c Hp Hc.
      rewrite Hp' by assumption. rewrite Z.max_r by lia.
      destruct (Z.ltb_spec p q), (Z.leb_spec (xlen - q) p), (Z.eqb_spec p q),
        (Z.eqb_spec p (xlen - 1 - q)), (Z.ltb_spec c nc),
        (Z.ltb_spec p (q + 1)), (Z.leb_spec (xlen - (q + 1)) p);
        simpl; try reflexivity; try lia.
  - simpl in *. split; [exact Hl|]. intros p c Hp Hc.
    rewrite Hinv by assumption.
    assert (q = h) by nia. subst q.
    destruct (Z.ltb_spec p h), (Z.leb_spec (xlen - h) p); simpl;
      try reflexivity.
    replace (xlen - 1 - p) with p by lia. reflexivity.
Qed.

(** ** Gathering *)

Lemma seqZ_snoc m n : 0 <= n -> seqZ m (n + 1) = seqZ m n ++ [m + n].
Proof.
  intros Hn. rewrite seqZ_app by lia. f_equal.
Qed.

Lemma pixels_snoc {A} nc n (f : Z -> Z -> A) :
  0 < nc -> 0 <= n ->
  pixels nc (n + 1) f = pixels nc n f ++ (f n <$> seqZ 0 nc).
Proof.
  intros Hnc Hn. unfold pixels.
  replace ((n + 1) * nc) with (n * nc + nc) by lia.
  rewrite seqZ_app by nia. rewrite fmap_app. f_equal.
  rewrite Z.add_0_l.
  replace (n * nc) with (n * nc + 0) at 1 by lia.
  rewrite <- fmap_add_seqZ, <- list_fmap_compose.
  apply list_fmap_ext. intros i c Hc.
  apply lookup_seqZ in Hc as [-> Hlt]. simpl.
  rewrite Z.add_0_l, pix_div, pix_mod by lia. reflexivity.
Qed.

Lemma gather_spec s (line_buffers : list (ptr float)) x0 limit :
  0 < CB.num_channels_ s ->
  CB.gather s line_buffers x0 limit =
    let xlen := Z.max 0 (Z.min CB.kMaxPixelsPerCall (limit - x0)) in
    (xlen,
     pixels (CB.num_channels_ s) xlen
       (fun p c => (line_buffers !!! Z.to_nat c) p)).
Proof.
  intros Hnc. unfold CB.gather. cbv zeta.
  set (nc := CB.num_channels_ s) in *.
  set (hi := Z.min CB.kMaxPixelsPerCall (limit - x0)).
  set (f := fun p c : Z => (line_buffers !!! Z.to_nat c) p).
  erewrite loop_ext with (c2 := fun ix => ix <? hi).
  2:{ intros j. unfold hi, CB.kMaxPixelsPerCall.
      destruct (Z.ltb_spec j 1024), (Z.ltb_spec (j + x0) limit),
        (Z.ltb_spec j (Z.min 1024 (limit - x0))); simpl; try reflexivity; lia. }
  match goal with
  | |- loop ?fuel ?cnd 1 ?body 0 [] = _ =>
      destruct (loop_rule
        (fun ix t => 0 <= ix <= Z.max 0 hi /\ t = pixels nc ix f)
        fuel hi 1 body 0 []) as (Hend & Hr & Ht)
  end.
  - lia.
  - unfold hi, CB.kMaxPixelsPerCall. lia.
  - split; [lia | reflexivity].
  - intros ix t Hix [Hr ->]. split; [lia|].
    match goal with
    | |- for_n nc ?body ?t0 = _ =>
        pose proof (for_n_rule
          (fun c t' => t' = pixels nc ix f ++ (f ix <$> seqZ 0 c))
          nc body t0) as H
    end.
    rewrite H.
    + rewrite Z.max_r by lia. symmetry. apply pixels_snoc; lia.
    + simpl. rewrite app_nil_r. reflexivity.
    + intros c t' Hc ->. rewrite seqZ_snoc by lia.
      rewrite fmap_app, app_assoc. reflexivity.
  - destruct (loop _ _ _ _ _ _) as [ix t]. simpl in *.
    assert (ix = Z.max 0 hi) as -> by lia.
    rewrite Ht. reflexivity.
Qed.

(** ** WriteToPixelCallbackStage: the calls made by [ProcessRow] *)

Lemma convert_narrow s temp : CB.convert s temp = narrow s <$> temp.
Proof.
  unfold CB.convert, narrow.
  destruct (CB.data_type_ s), (CB.swap_endianness_ s); cbv zeta;
    rewrite <- ?list_fmap_compose; reflexivity.
Qed.

Lemma with_events_nil st : with_events st [] = st.
Proof. destruct st. unfold with_events. simpl. rewrite app_nil_r. reflexivity. Qed.

Lemma with_events_app st e1 e2 :
  with_events (with_events st e1) e2 = with_events st (e1 ++ e2).
Proof. unfold with_events. simpl. rewrite app_assoc. reflexivity. Qed.

Lemma WriteToCallback_spec s thread_id ypos xstart xlen f st :
  0 < CB.num_channels_ s -> 0 <= xlen ->
  CB.WriteToCallback s thread_id ypos xstart xlen
    (pixels (CB.num_channels_ s) xlen f) st
  = with_events st
      (call_events s (CB.run_opaque_ st) thread_id ypos xstart xlen f).
Proof.
  intros Hnc Hxlen. unfold CB.WriteToCallback, call_events.
  destruct (CB.transpose_ s).
  - match goal with
    | |- for_n xlen ?body st = _ =>
        pose proof (for_n_rule
          (fun i st' => st' = with_events st
             ((fun i => EvRun (CB.run_opaque_ st) thread_id ypos (xstart + i) 1
                          (pixels (CB.num_channels_ s) 1 (fun _ c => f i c)))
                <$> seqZ 0 i))
          xlen body st) as H
    end.
    rewrite H.
    + rewrite Z.max_r by lia. reflexivity.
    + simpl. rewrite with_events_nil. reflexivity.
    + intros i st' Hi ->. unfold CB.run, CB.emit. cbv zeta. simpl.
      rewrite pixels_take_drop by lia.
      rewrite seqZ_snoc, fmap_app by lia. unfold with_events. simpl.
      rewrite app_assoc. reflexivity.
  - unfold CB.run, CB.emit, with_events. simpl.
    rewrite take_ge; [reflexivity|].
    pose proof (pixels_length (CB.num_channels_ s) xlen f). nia.
Qed.

Lemma constructor_wf cb width height num_channels has_alpha unpremul_alpha
    alpha_c swap_endianness undo_orientation data_type :
  1 <= num_channels <= 4 ->
  wf_stage (CB.WriteToPixelCallbackStage cb width height num_channels has_alpha
              unpremul_alpha alpha_c swap_endianness undo_orientation data_type).
Proof.
  intros H. unfold wf_stage. simpl.
  assert (num_channels = 1 \/ num_channels = 2 \/ num_channels = 3
          \/ num_channels = 4) as [-> | [-> | [-> | ->]]] by lia;
    simpl; repeat split; try lia; discriminate.
Qed.

Lemma Unpremultiply_pixels k s input_rows x0 xlen :
  wf_stage s -> 0 <= xlen ->
  (if CB.has_alpha_ s && CB.want_alpha_ s && CB.unpremul_alpha_ s
   then CB.UnpremultiplyAlpha k
          (pixels (CB.num_channels_ s) xlen
             (fun p c => chan s input_rows c (x0 + p)))
          (CB.num_color_ s) xlen
   else pixels (CB.num_channels_ s) xlen
          (fun p c => chan s input_rows c (x0 + p)))
  = pixels (CB.num_channels_ s) xlen
      (fun p c => unpremultiplied k s input_rows c (x0 + p)).
Proof.
  intros (Hnc & Hncol & Hle & Hwant) Hxlen. unfold unpremultiplied.
  destruct (CB.has_alpha_ s && CB.want_alpha_ s && CB.unpremul_alpha_ s)
    eqn:Hcond; simpl; [|reflexivity].
  assert (Hw : CB.want_alpha_ s = true).
  { destruct (CB.has_alpha_ s), (CB.want_alpha_ s); simpl in Hcond;
      congruence. }
  specialize (Hwant Hw).
  set (l := pixels (CB.num_channels_ s) xlen
              (fun p c => chan s input_rows c (x0 + p))).
  assert (Hlen : Z.of_nat (length l) = xlen * (CB.num_color_ s + 1)).
  { unfold l. rewrite pixels_length, Hwant. nia. }
  destruct (UnpremultiplyAlpha_spec k l (CB.num_color_ s) xlen
              ltac:(lia) Hxlen Hlen) as [HL HP].
  apply pixels_eq; [lia | lia | rewrite HL, Hwant; exact Hlen |].
  intros p c Hp Hc. rewrite Hwant in *. rewrite HP by lia.
  unfold l. rewrite <- Hwant.
  rewrite !pixels_lookup by lia.
  destruct (Z.ltb_spec c (CB.num_color_ s)); reflexivity.
Qed.

Lemma FlipX_pixels s g xstart xlen :
  0 < CB.num_channels_ s <= 4 -> 0 <= xlen <= CB.kMaxPixelsPerCall ->
  CB.FlipX s (pixels (CB.num_channels_ s) xlen g) xstart xlen
  = (pixels (CB.num_channels_ s) xlen (fun p c => g (xlen - 1 - p) c),
     wrap (wrap (CB.width_ s - xstart) - xlen)).
Proof.
  intros Hnc Hxlen. unfold CB.kMaxPixelsPerCall in Hxlen.
  set (l := pixels (CB.num_channels_ s) xlen g).
  assert (Hlen : Z.of_nat (length l) = xlen * CB.num_channels_ s).
  { unfold l. rewrite pixels_length. nia. }
  destruct (FlipX_spec s l xstart xlen ltac:(lia) ltac:(lia) ltac:(nia) Hlen)
    as [HL HP].
  rewrite (surjective_pairing (CB.FlipX s l xstart xlen)). f_equal.
  apply pixels_eq; [lia | lia | rewrite HL; exact Hlen |].
  intros p c Hp Hc. rewrite HP by lia. unfold l.
  rewrite pixels_lookup by lia. reflexivity.
Qed.

Lemma batch_spec k s input_rows thread_id xpos ypos limit x0
    (line_buffers : list (ptr float)) st :
  wf_stage s ->
  0 <= xpos + x0 -> x0 < limit -> xpos + limit <= CB.width_ s ->
  CB.width_ s < 2 ^ 64 ->
  (forall c i, 0 <= c <= CB.num_color_ s ->
     (line_buffers !!! Z.to_nat c) i = chan s input_rows c (x0 + i)) ->
  CB.batch k s xpos ypos thread_id limit x0 (line_buffers, st)
  = (CB.advance s line_buffers,
     with_events st
       (batch_events k s input_rows (CB.run_opaque_ st) thread_id xpos ypos
          limit x0)).
Proof.
  intros Hwf Hx0 Hlim Hw Hw64 Hlb.
  pose proof Hwf as (Hnc & Hncol & Hle & Hwant).
  unfold CB.batch. rewrite gather_spec by lia. cbv zeta.
  set (xlen := Z.min CB.kMaxPixelsPerCall (limit - x0)).
  assert (Hxlen : 0 < xlen <= CB.kMaxPixelsPerCall)
    by (unfold xlen, CB.kMaxPixelsPerCall; lia).
  rewrite (Z.max_r 0 xlen) by lia.
  rewrite (pixels_ext _ _ _ (fun p c => chan s input_rows c (x0 + p)))
    by (lia || (intros p c Hp Hc; apply Hlb; lia)).
  rewrite Unpremultiply_pixels by (assumption || lia).
  rewrite (wrap_small (xpos + x0)) by lia.
  f_equal. unfold batch_events. cbv zeta. fold xlen.
  destruct (CB.flip_x_ s).
  - rewrite FlipX_pixels by lia.
    rewrite convert_narrow, pixels_fmap.
    rewrite WriteToCallback_spec by lia.
    assert (Hxl : xlen <= limit - x0) by (unfold xlen; lia).
    rewrite (wrap_small (CB.width_ s - (xpos + x0))) by lia.
    rewrite wrap_small by lia.
    f_equal.
  - rewrite convert_narrow, pixels_fmap.
    rewrite WriteToCallback_spec by lia.
    reflexivity.
Qed.

Lemma advance_spec s (line_buffers : list (ptr float)) c i :
  0 <= c < Z.of_nat (length line_buffers) ->
  (CB.advance s line_buffers !!! Z.to_nat c) i =
    if (c <? CB.num_color_ s) || (CB.has_alpha_ s && (c =? CB.num_color_ s))
    then (line_buffers !!! Z.to_nat c) (CB.kMaxPixelsPerCall + i)
    else (line_buffers !!! Z.to_nat c) i.
Proof.
  intros Hc. unfold CB.advance.
  erewrite list_lookup_total_imap; [|lia].
  rewrite Z2Nat.id by lia.
  destruct ((c <? CB.num_color_ s) || (CB.has_alpha_ s && (c =? CB.num_color_ s)));
    reflexivity.
Qed.

Lemma line_buffers0_length s input_rows xextra :
  0 <= CB.num_color_ s ->
  Z.of_nat (length (line_buffers0 s input_rows xextra)) = CB.num_color_ s + 1.
Proof.
  intros H. unfold line_buffers0.
  rewrite length_app, length_fmap, length_seqZ. simpl. lia.
Qed.

Lemma line_buffers0_spec s input_rows xextra c i :
  0 <= c <= CB.num_color_ s ->
  (line_buffers0 s input_rows xextra !!! Z.to_nat c) i
  = chan s input_rows c (- xextra + i).
Proof.
  intros Hc. unfold line_buffers0, chan.
  destruct (Z.ltb_spec c (CB.num_color_ s)).
  - rewrite lookup_total_app_l by (rewrite length_fmap, length_seqZ; lia).
    erewrite list_lookup_total_fmap; [|rewrite length_seqZ; lia].
    rewrite lookup_total_seqZ_lt by lia.
    rewrite Z.add_0_l, Z2Nat.id by lia. reflexivity.
  - rewrite lookup_total_app_r by (rewrite length_fmap, length_seqZ; lia).
    rewrite length_fmap, length_seqZ.
    replace (Z.to_nat c - Z.to_nat (CB.num_color_ s))%nat with 0%nat by lia.
    simpl. destruct (CB.has_alpha_ s); reflexivity.
Qed.

Lemma CB_ProcessRow_spec k s input_rows xextra xsize xpos ypos thread_id st :
  wf_stage s -> row_args_ok s xextra xsize xpos ypos ->
  CB.ProcessRow k s input_rows xextra xsize xpos ypos thread_id st
  = with_events st
      (row_events k s input_rows (CB.run_opaque_ st) xextra xsize xpos ypos
         thread_id).
Proof.
  intros Hwf (Hxe & Hxp & Hw & Hxs & Hsum & Hy & Hh).
  pose proof Hwf as (Hnc & Hncol & Hle & Hwant).
  unfold CB.ProcessRow.
  destruct (Z.leb_spec (CB.height_ s) ypos) as [?|_]; [lia|].
  cbv zeta. fold (line_buffers0 s input_rows xextra).
  assert (Hyo : (if CB.flip_y_ s then wrap (wrap (CB.height_ s - 1) - ypos)
                 else ypos) = ypos_out s ypos).
  { unfold ypos_out. destruct (CB.flip_y_ s); [|reflexivity].
    rewrite (wrap_small (CB.height_ s - 1)) by lia. apply wrap_small. lia. }
  rewrite Hyo.
  rewrite (wrap_small (CB.width_ s - xpos)) by lia.
  fold (row_limit s xextra xsize xpos).
  set (limit := row_limit s xextra xsize xpos).
  assert (Hlim : 0 <= limit <= CB.width_ s - xpos /\ limit < 2 ^ 63)
    by (unfold limit, row_limit; lia).
  rewrite (to_ssize_small limit) by lia.
  rewrite (to_ssize_small (- xextra)) by lia.
  unfold row_events. fold limit. cbv zeta.
  set (bev := fun b =>
         batch_events k s input_rows (CB.run_opaque_ st) thread_id xpos
           (ypos_out s ypos) limit (- xextra + CB.kMaxPixelsPerCall * b)).
  set (nb := DivCeil (limit - - xextra) CB.kMaxPixelsPerCall).
  destruct (RoundUpTo_bounds (limit - - xextra) CB.kMaxPixelsPerCall
              ltac:(unfold CB.kMaxPixelsPerCall; lia) ltac:(lia))
    as (Hr1 & Hr2 & Hr3).
  unfold RoundUpTo in Hr1, Hr2. fold nb in Hr1, Hr2, Hr3.
  replace (limit + xextra) with (limit - - xextra) by lia. fold nb.
  match goal with
  | |- snd (snd (loop ?fuel ?cnd ?stp ?body ?i0 ?acc)) = _ =>
      destruct (loop_rule
        (fun x0 a => exists b, 0 <= b /\ x0 = - xextra + CB.kMaxPixelsPerCall * b
           /\ (b = 0 \/ - xextra + CB.kMaxPixelsPerCall * (b - 1) < limit)
           /\ Z.of_nat (length (fst a)) = CB.num_color_ s + 1
           /\ (forall c i, 0 <= c <= CB.num_color_ s ->
                 (fst a !!! Z.to_nat c) i = chan s input_rows c (x0 + i))
           /\ snd a = with_events st (concat (bev <$> seqZ 0 b)))
        fuel limit CB.kMaxPixelsPerCall body i0 acc)
        as (Hend & b & Hb & Hx0 & Hlast & Hlen & Hlb & Hst)
  end.
  - unfold CB.kMaxPixelsPerCall. lia.
  - rewrite Z2Nat.id by lia. lia.
  - exists 0. simpl. rewrite with_events_nil.
    repeat split; try lia.
    + apply line_buffers0_length. lia.
    + intros c i Hc. apply line_buffers0_spec. exact Hc.
  - intros x0 [lb st'] Hlt (b & Hb & -> & Hlast & Hlen & Hlb & Hst).
    simpl in Hlen, Hlb, Hst. subst st'.
    unfold CB.kMaxPixelsPerCall in *.
    rewrite (batch_spec k s input_rows) by (assumption || lia).
    exists (b + 1). simpl. repeat split; try lia.
    + unfold CB.advance. rewrite length_imap. exact Hlen.
    + intros c i Hc. rewrite advance_spec by lia.
      destruct ((c <? CB.num_color_ s)
                || (CB.has_alpha_ s && (c =? CB.num_color_ s))) eqn:Hadv.
      * rewrite Hlb by lia. unfold CB.kMaxPixelsPerCall. f_equal. lia.
      * rewrite Hlb by lia. unfold chan.
        destruct (Z.ltb_spec c (CB.num_color_ s)); [discriminate|].
        destruct (Z.eqb_spec c (CB.num_color_ s)); [|lia].
        destruct (CB.has_alpha_ s); [discriminate | reflexivity].
    + rewrite with_events_app. f_equal.
      rewrite seqZ_snoc, fmap_app, concat_app by lia. simpl.
      rewrite app_nil_r. reflexivity.
  - rewrite Hst. replace b with nb; [reflexivity|].
    unfold nb, DivCeil, CB.kMaxPixelsPerCall in *. symmetry.
    apply (Z.div_unique_pos _ _ _ (limit - - xextra + 1024 - 1 - 1024 * b)); lia.
Qed.

(** ** Rows beyond the configured height *)

Lemma run_rows_app e1 e2 : run_rows (e1 ++ e2) = run_rows e1 ++ run_rows e2.
Proof. unfold run_rows. apply omap_app. Qed.

(** C3.  A [ProcessRow] call of the raw buffer sink or of the callback sink
    with [ypos >= height] writes nothing, calls nothing and leaves the state
    as it was; with [height = 4] and the rows 0..7 driven through a sink,
    the buffer rows 0..3 receive the converted pixels and nothing else is
    touched, and the callback is run for the rows 0, 1, 2, 3 only. *)
Theorem C3_border_skip Lanes k s8 sc input_rows xextra xsize xpos ypos
    thread_id rgb st :
  U8.height_ s8 <= ypos -> CB.height_ sc <= ypos ->
  U8.ProcessRow Lanes s8 input_rows xextra xsize xpos ypos thread_id rgb = rgb
  /\ CB.ProcessRow k sc input_rows xextra xsize xpos ypos thread_id st = st
  /\ (forall rows rgb0 a,
        U8_drive 4 u8_rgba_h4 rows 2 (seqZ 0 8) rgb0 a =
          if (0 <=? a) && (a <? 32)
          then pixel_byte u8_rgba_h4 (rows (a / 8)) (a mod 4) ((a mod 8) / 4)
          else rgb0 a)
  /\ (forall cb rows st0,
        run_rows (CB.events (CB_drive k (cb_rgba_h4 cb) rows 2 (seqZ 0 8) st0))
        = run_rows (CB.events st0) ++ [0; 1; 2; 3]).
Proof.
  intros H8 Hc. split; [|split; [|split]].
  - unfold U8.ProcessRow. destruct (Z.leb_spec (U8.height_ s8) ypos); [reflexivity | lia].
  - unfold CB.ProcessRow. destruct (Z.leb_spec (CB.height_ sc) ypos); [reflexivity | lia].
  - intros rows rgb0 a. unfold U8_drive.
    change (seqZ 0 8) with [0; 1; 2; 3; 4; 5; 6; 7]. simpl foldl.
    change (U8.ProcessRow 4 u8_rgba_h4 (rows 7) 0 2 0 7 0 ?m) with m.
    change (U8.ProcessRow 4 u8_rgba_h4 (rows 6) 0 2 0 6 0 ?m) with m.
    change (U8.ProcessRow 4 u8_rgba_h4 (rows 5) 0 2 0 5 0 ?m) with m.
    change (U8.ProcessRow 4 u8_rgba_h4 (rows 4) 0 2 0 4 0 ?m) with m.
    rewrite !U8_ProcessRow_spec by (simpl; lia).
    unfold base_ptr, bytes_per_pixel. simpl U8.rgba_. simpl U8.stride_.
    cbv zeta. change (wrap (0 - 0)) with 0.
    destruct (Z.leb_spec 0 a), (Z.ltb_spec a 32); simpl;
      try (repeat (match goal with
                   | |- context [Z.leb ?u ?v] => destruct (Z.leb_spec u v)
                   | |- context [Z.ltb ?u ?v] => destruct (Z.ltb_spec u v)
                   end; simpl; try lia); reflexivity).
    assert (Hy : a / 8 = 0 \/ a / 8 = 1 \/ a / 8 = 2 \/ a / 8 = 3)
      by (Z.div_mod_to_equations; lia).
    destruct Hy as [Hy | [Hy | [Hy | Hy]]]; rewrite Hy;
      repeat (match goal with
              | |- context [Z.leb ?u ?v] => destruct (Z.leb_spec u v)
              | |- context [Z.ltb ?u ?v] => destruct (Z.ltb_spec u v)
              end; simpl; try (exfalso; Z.div_mod_to_equations; lia));
      f_equal; Z.div_mod_to_equations; lia.
  - intros cb rows st0. unfold CB_drive.
    change (seqZ 0 8) with [0; 1; 2; 3; 4; 5; 6; 7]. simpl foldl.
    change (CB.ProcessRow k (cb_rgba_h4 cb) (rows 7) 0 2 0 7 0 ?m) with m.
    change (CB.ProcessRow k (cb_rgba_h4 cb) (rows 6) 0 2 0 6 0 ?m) with m.
    change (CB.ProcessRow k (cb_rgba_h4 cb) (rows 5) 0 2 0 5 0 ?m) with m.
    change (CB.ProcessRow k (cb_rgba_h4 cb) (rows 4) 0 2 0 4 0 ?m) with m.
    rewrite !CB_ProcessRow_spec
      by (apply constructor_wf; lia) || (unfold row_args_ok; simpl; lia).
    simpl CB.events. rewrite !run_rows_app, <- !app_assoc. reflexivity.
Qed.

Lemma C3_border_skip_witness :
  U8.ProcessRow 4 u8_rgba_h4 ramp_rows 0 2 0 5 0 (fun _ => 7) = (fun _ => 7)
  /\ CB.ProcessRow k26 (cb_rgba_h4 cb_ok) ramp_rows 0 2 0 5 0 CB.initial
     = CB.initial.
Proof.
  destruct (C3_border_skip 4 k26 u8_rgba_h4 (cb_rgba_h4 cb_ok) ramp_rows
              0 2 0 5 0 (fun _ => 7) CB.initial) as (H1 & H2 & _).
  - simpl. lia.
  - simpl. lia.
  - split; [exact H1 | exact H2].
Defined.

(** ** The bytes of the raw buffer sink *)

(** ** The lane conversion: clamping and rounding *)

Lemma ltb_leb a b : F32.ltb a b = true -> F32.leb a b = true.
Proof.
  unfold F32.ltb, F32.leb, SFltb, SFleb.
  destruct (SFcompare a b) as [[]|]; intros H; try discriminate H; reflexivity.
Qed.

Lemma Clamp_unit v :
  F32.leb F32.zero (F32.Clamp F32.zero v F32.one) = true
  /\ F32.leb (F32.Clamp F32.zero v F32.one) F32.one = true.
Proof.
  unfold F32.Clamp.
  destruct v as [s|s| |s m e].
  - destruct s; vm_compute; split; reflexivity.
  - destruct s; vm_compute; split; reflexivity.
  - vm_compute; split; reflexivity.
  - destruct s.
    + change (F32.Max (S754_finite true m e) F32.zero) with F32.zero.
      vm_compute. split; reflexivity.
    + change (F32.Max (S754_finite false m e) F32.zero)
        with (S754_finite false m e).
      change (F32.Min (S754_finite false m e) F32.one)
        with (if F32.ltb (S754_finite false m e) F32.one
              then S754_finite false m e else F32.one).
      destruct (F32.ltb (S754_finite false m e) F32.one) eqn:Hlt.
      * split; [reflexivity | apply ltb_leb; exact Hlt].
      * vm_compute. split; reflexivity.
Qed.

Lemma round_half_even_nearest m d :
  0 < d ->
  2 * m - d <= 2 * d * F32.round_half_even m d <= 2 * m + d.
Proof.
  intros Hd. unfold F32.round_half_even. cbv zeta.
  pose proof (Z.div_mod m d ltac:(lia)) as Hdm.
  pose proof (Z.mod_pos_bound m d Hd) as Hb.
  destruct (Z.ltb_spec (2 * (m mod d)) d); [nia|].
  destruct (Z.ltb_spec d (2 * (m mod d))); [nia|].
  destruct (Z.even (m / d)); nia.
Qed.

(** The byte of component [c] of pixel [x] after a row call. *)
Lemma U8_ProcessRow_pixel Lanes s input_rows xextra xsize xpos ypos thread_id
    rgb x c :
  0 < Lanes -> 0 <= x < xsize -> xsize < 2 ^ 64 -> ypos < U8.height_ s ->
  0 <= c < bytes_per_pixel s ->
  U8.ProcessRow Lanes s input_rows xextra xsize xpos ypos thread_id rgb
    (base_ptr s xextra xpos ypos + bytes_per_pixel s * x + c)
  = pixel_byte s input_rows c x.
Proof.
  intros HL Hx Hxs Hy Hc. rewrite U8_ProcessRow_spec by lia. cbv zeta.
  set (base := base_ptr s xextra xpos ypos). set (bpp := bytes_per_pixel s).
  assert (Hbpp : bpp = 3 \/ bpp = 4).
  { unfold bpp, bytes_per_pixel. destruct (U8.rgba_ s); auto. }
  destruct (Z.leb_spec base (base + bpp * x + c)); [|nia].
  destruct (Z.ltb_spec (base + bpp * x + c) (base + bpp * xsize)); [|nia].
  simpl.
  replace (base + bpp * x + c - base) with (x * bpp + c) by lia.
  rewrite pix_mod, pix_div by lia. reflexivity.
Qed.

(** C2.  The raw buffer sink writes, for every pixel [x] of the row, the
    bytes obtained from the float samples by clamping to [0,1], scaling by
    255, rounding to nearest and narrowing to 8 bits, at
    [base + bytes * x + c]; without an alpha plane the alpha byte is 255.
    The clamped sample lies between 0 and 1, the rounding is within one half
    of the exact quotient, and the byte is between 0 and 255.
    For the 2x2 RGBA tile with red samples 0.0, 0.5 / 1.0, 0.25 and alpha
    1.0 (stride 8, height 2) the red bytes are 0, 128, 255, 64 and the alpha
    bytes are 255, whatever the green and blue samples and the lane count
    are. *)
Theorem C2_u8_conversion Lanes s input_rows xextra xsize xpos ypos thread_id
    rgb x :
  0 < Lanes -> 0 <= x < xsize -> xsize < 2 ^ 64 -> ypos < U8.height_ s ->
  let m := U8.ProcessRow Lanes s input_rows xextra xsize xpos ypos thread_id rgb in
  let p := base_ptr s xextra xpos ypos + bytes_per_pixel s * x in
  (m p = to_u8 (input_rows 0 x)
   /\ m (p + 1) = to_u8 (input_rows 1 x)
   /\ m (p + 2) = to_u8 (input_rows 2 x)
   /\ (U8.rgba_ s = true ->
       m (p + 3) = if U8.has_alpha_ s
                   then to_u8 (input_rows (U8.alpha_c_ s) x) else 255))
  /\ (forall v,
        0 <= to_u8 v <= 255
        /\ F32.leb F32.zero (F32.Clamp F32.zero v F32.one) = true
        /\ F32.leb (F32.Clamp F32.zero v F32.one) F32.one = true)
  /\ (forall m d, 0 < d ->
        2 * m - d <= 2 * d * F32.round_half_even m d <= 2 * m + d)
  /\ (forall g0 b0 g1 b1 rgb0,
        let t :=
          U8.ProcessRow Lanes u8_rgba_h2 (tile_row F32.one f_quarter g1 b1)
            0 2 0 1 0
            (U8.ProcessRow Lanes u8_rgba_h2 (tile_row F32.zero f_half g0 b0)
               0 2 0 0 0 rgb0) in
        (t 0 = 0 /\ t 4 = 128 /\ t 8 = 255 /\ t 12 = 64)
        /\ (t 3 = 255 /\ t 7 = 255 /\ t 11 = 255 /\ t 15 = 255)).
Proof.
  intros HL Hx Hxs Hy m p.
  assert (Hbpp : bytes_per_pixel s = 3 \/ bytes_per_pixel s = 4).
  { unfold bytes_per_pixel. destruct (U8.rgba_ s); auto. }
  assert (Hm : forall c, 0 <= c < bytes_per_pixel s ->
            m (p + c) = pixel_byte s input_rows c x).
  { intros c Hc. apply U8_ProcessRow_pixel; assumption. }
  split; [|split; [|split]].
  - rewrite <- (Z.add_0_r p) at 1.
    rewrite !Hm by lia. repeat split; try reflexivity.
    intros Hrgba. rewrite Hm.
    + reflexivity.
    + unfold bytes_per_pixel. rewrite Hrgba. lia.
  - intros v. split; [|apply Clamp_unit]. unfold to_u8, F32.U8FromU32.
    pose proof (Z.mod_pos_bound
      (F32.BitCastU32 (F32.NearestInt
         (F32.Mul (F32.Clamp F32.zero v F32.one) (F32.of_Z 255)))) 256
      ltac:(lia)). lia.
  - intros m0 d Hd. apply round_half_even_nearest. exact Hd.
  - intros g0 b0 g1 b1 rgb0 t. unfold t.
    repeat split; rewrite !U8_ProcessRow_spec by (simpl; lia);
      reflexivity.
Qed.

Lemma C2_u8_conversion_witness :
  let m := U8.ProcessRow 4 u8_rgba_h2 (tile_row F32.zero f_half (ramp_rows 1) (ramp_rows 2))
             0 2 0 0 0 (fun _ => 7) in
  m 4 = to_u8 f_half.
Proof.
  intros m.
  destruct (C2_u8_conversion 4 u8_rgba_h2 (tile_row F32.zero f_half (ramp_rows 1) (ramp_rows 2))
              0 2 0 0 0 (fun _ => 7) 1) as [(H0 & _) _].
  - lia.
  - lia.
  - lia.
  - simpl. lia.
  - exact H0.
Defined.

(** C5.  With [has_alpha = false] and [rgba = true] the alpha byte of every
    pixel the raw buffer sink writes is 255; the bytes written depend on the
    input channels 0, 1 and 2 only, so the contents of any alpha plane are
    never read, and the stage asks for no input channel beyond the three
    colour channels. *)
Theorem C5_alpha_default Lanes s input_rows xextra xsize xpos ypos thread_id
    rgb x :
  0 < Lanes -> U8.has_alpha_ s = false -> U8.rgba_ s = true ->
  0 <= x < xsize -> xsize < 2 ^ 64 -> ypos < U8.height_ s ->
  U8.ProcessRow Lanes s input_rows xextra xsize xpos ypos thread_id rgb
    (base_ptr s xextra xpos ypos + 4 * x + 3) = 255
  /\ (forall input_rows' : RowInfo,
        input_rows' 0 = input_rows 0 -> input_rows' 1 = input_rows 1 ->
        input_rows' 2 = input_rows 2 ->
        U8.ProcessRow Lanes s input_rows' xextra xsize xpos ypos thread_id rgb
        = U8.ProcessRow Lanes s input_rows xextra xsize xpos ypos thread_id rgb)
  /\ (forall c, U8.GetChannelMode s c = (c <? 3)).
Proof.
  intros HL Ha Hrgba Hx Hxs Hy. split; [|split].
  - pose proof (U8_ProcessRow_pixel Lanes s input_rows xextra xsize xpos ypos
                  thread_id rgb x 3 HL Hx Hxs Hy) as H3.
    unfold bytes_per_pixel, pixel_byte in H3. rewrite Hrgba, Ha in H3.
    apply H3. lia.
  - intros input_rows' H0 H1 H2. unfold U8.ProcessRow, GetInputRow.
    rewrite Ha, H0, H1, H2. reflexivity.
  - intros c. unfold U8.GetChannelMode. rewrite Ha. simpl.
    apply orb_false_r.
Qed.

Lemma C5_alpha_default_witness :
  U8.ProcessRow 4 u8_rgbx ramp_rows 0 2 0 0 0 (fun _ => 7) 7 = 255.
Proof.
  destruct (C5_alpha_default 4 u8_rgbx ramp_rows 0 2 0 0 0 (fun _ => 7) 1)
    as (H & _).
  - lia.
  - reflexivity.
  - reflexivity.
  - lia.
  - lia.
  - simpl. lia.
  - exact H.
Defined.

(** ** The copying sinks *)

Lemma memcpy_spec {A} (dst : ptr A) doff (src : ptr A) n x :
  memcpy dst doff src n x =
    if (doff <=? x) && (x <? doff + n) then src (x - doff) else dst x.
Proof.
  unfold memcpy.
  rewrite (for_n_store_stride n doff 1 0) by (intros; lia).
  rewrite Z.mod_1_r, Z.div_1_r. simpl.
  destruct (Z.leb_spec 0 (x - doff - 0)), (Z.leb_spec doff x),
    (Z.ltb_spec (x - doff - 0) (1 * n)), (Z.ltb_spec x (doff + n));
    simpl; try lia; try reflexivity.
  f_equal. lia.
Qed.

Lemma copy_row_spec row_out row_in xextra xsize xpos x :
  Planar.copy_row row_out row_in xextra xsize xpos x =
    if in_span xextra xsize xpos x then row_in (x - xpos) else row_out x.
Proof.
  unfold Planar.copy_row, in_span. rewrite memcpy_spec.
  destruct ((xpos - xextra <=? x) && (x <? xpos - xextra + (xsize + 2 * xextra)));
    [|reflexivity].
  unfold ptr_add. f_equal. lia.
Qed.

Lemma copy_color_spec im (input_rows : RowInfo) xextra xsize xpos ypos c y x :
  Planar.PlaneRow (Planar.copy_color im input_rows xextra xsize xpos ypos) c y x
  = if (0 <=? c) && (c <? 3) && (y =? ypos) && in_span xextra xsize xpos x
    then input_rows c (x - xpos)
    else Planar.PlaneRow im c y x.
Proof.
  unfold Planar.copy_color, for_n. simpl.
  unfold Planar.PlaneRow, Planar.set_PlaneRow, GetInputRow.
  change (0 + 1 + 1) with 2. change (0 + 1) with 1.
  change (2 =? 1) with false. change (1 =? 0) with false.
  change (2 =? 0) with false. cbv iota.
  destruct (Z.eqb_spec c 2) as [->|N2].
  { change ((0 <=? 2) && (2 <? 3)) with true. simpl andb. unfold Planar.set_Row.
    simpl Planar.Row.
    destruct (Z.eqb_spec y ypos) as [->|]; [|reflexivity].
    rewrite copy_row_spec. reflexivity. }
  destruct (Z.eqb_spec c 1) as [->|N1].
  { change ((0 <=? 1) && (1 <? 3)) with true. simpl andb. unfold Planar.set_Row.
    simpl Planar.Row.
    destruct (Z.eqb_spec y ypos) as [->|]; [|reflexivity].
    rewrite copy_row_spec. reflexivity. }
  destruct (Z.eqb_spec c 0) as [->|N0].
  { change ((0 <=? 0) && (0 <? 3)) with true. simpl andb. unfold Planar.set_Row.
    simpl Planar.Row.
    destruct (Z.eqb_spec y ypos) as [->|]; [|reflexivity].
    rewrite copy_row_spec. reflexivity. }
  destruct (Z.leb_spec 0 c), (Z.ltb_spec c 3); simpl; try reflexivity. lia.
Qed.

Lemma ProcessRow_ImageBundle_spec input_rows xextra xsize xpos ypos thread_id ib :
  (forall e, e ∈ Planar.extra_channels ib ->
     xpos + xsize + xextra <= Planar.xsize e) ->
  exists ib',
    Planar.ProcessRow_ImageBundle input_rows xextra xsize xpos ypos thread_id ib
    = Some ib'
    /\ Planar.color ib'
       = Planar.copy_color (Planar.color ib) input_rows xextra xsize xpos ypos
    /\ length (Planar.extra_channels ib') = length (Planar.extra_channels ib)
    /\ forall ec, 0 <= ec < Z.of_nat (length (Planar.extra_channels ib)) ->
         Planar.extra_channels ib' !!! Z.to_nat ec
         = copied_extra input_rows xextra xsize xpos ypos (3 + ec)
             (Planar.extra_channels ib !!! Z.to_nat ec).
Proof.
  intros Hsize. unfold Planar.ProcessRow_ImageBundle. cbv zeta. simpl.
  set (n := Z.of_nat (length (Planar.extra_channels ib))).
  set (col := Planar.copy_color (Planar.color ib) input_rows xextra xsize xpos ypos).
  match goal with
  | |- context [for_n n ?body ?init] =>
      pose proof (for_n_rule
        (fun k acc => exists ib',
           acc = Some ib' /\ Planar.color ib' = col
           /\ length (Planar.extra_channels ib')
              = length (Planar.extra_channels ib)
           /\ forall ec, 0 <= ec < n ->
                Planar.extra_channels ib' !!! Z.to_nat ec
                = if ec <? k
                  then copied_extra input_rows xextra xsize xpos ypos (3 + ec)
                         (Planar.extra_channels ib !!! Z.to_nat ec)
                  else Planar.extra_channels ib !!! Z.to_nat ec)
        n body init) as H
  end.
  destruct H as (ib' & Hib' & Hcol & Hlen & Hl).
  - eexists. split; [reflexivity|]. simpl. repeat split.
    intros ec Hec. destruct (Z.ltb_spec ec 0); [lia | reflexivity].
  - intros k acc Hk (ib' & -> & Hcol & Hlen & Hl).
    rewrite (Hl k) by lia. rewrite Z.ltb_irrefl.
    set (e := Planar.extra_channels ib !!! Z.to_nat k).
    assert (He : e ∈ Planar.extra_channels ib).
    { apply list_elem_of_lookup. exists (Z.to_nat k).
      apply list_lookup_lookup_total_lt. unfold n in Hk. lia. }
    specialize (Hsize e He).
    destruct (Z.ltb_spec (Planar.xsize e) (xpos + xsize + xextra)); [lia|].
    eexists. split; [reflexivity|]. simpl. split; [exact Hcol|].
    split; [rewrite length_insert; exact Hlen|].
    intros ec Hec. unfold n in *.
    rewrite lookup_total_insert_Z by lia.
    destruct (Z.eqb_spec ec k) as [->|Hne].
    + destruct (Z.ltb_spec k (k + 1)); [reflexivity | lia].
    + rewrite Hl by lia.
      destruct (Z.ltb_spec ec k), (Z.ltb_spec ec (k + 1)); try reflexivity; lia.
  - exists ib'. split; [exact Hib'|]. split; [exact Hcol|].
    split; [exact Hlen|]. intros ec Hec. rewrite Hl by exact Hec.
    destruct (Z.ltb_spec ec (Z.max 0 n)); [reflexivity | lia].
Qed.

(** C9.  A row call of the planar sink and of the frame sink copies, for
    every channel, the [xsize + 2 xextra] input samples of the row window
    unchanged to the positions [xpos - xextra ...] of row [ypos] of the
    target plane: the target sample at [x] is the input sample at
    [x - xpos], and every other sample of the colour planes is left as it
    was.  The frame sink does so for the colour planes and for every extra
    channel, provided each extra channel is wide enough for the window
    (otherwise its assertion aborts). *)
Theorem C9_copy_exact input_rows xextra xsize xpos ypos thread_id image ib :
  (forall e, e ∈ Planar.extra_channels ib ->
     xpos + xsize + xextra <= Planar.xsize e) ->
  (forall c y x,
     Planar.PlaneRow
       (Planar.ProcessRow_Image3F input_rows xextra xsize xpos ypos thread_id
          image) c y x
     = if (0 <=? c) && (c <? 3) && (y =? ypos) && in_span xextra xsize xpos x
       then input_rows c (x - xpos)
       else Planar.PlaneRow image c y x)
  /\ exists ib',
       Planar.ProcessRow_ImageBundle input_rows xextra xsize xpos ypos
         thread_id ib = Some ib'
       /\ (forall c y x,
             Planar.PlaneRow (Planar.color ib') c y x
             = if (0 <=? c) && (c <? 3) && (y =? ypos)
                  && in_span xextra xsize xpos x
               then input_rows c (x - xpos)
               else Planar.PlaneRow (Planar.color ib) c y x)
       /\ length (Planar.extra_channels ib')
          = length (Planar.extra_channels ib)
       /\ (forall ec y x,
             0 <= ec < Z.of_nat (length (Planar.extra_channels ib)) ->
             Planar.Row (Planar.extra_channels ib' !!! Z.to_nat ec) y x
             = if (y =? ypos) && in_span xextra xsize xpos x
               then input_rows (3 + ec) (x - xpos)
               else Planar.Row (Planar.extra_channels ib !!! Z.to_nat ec) y x).
Proof.
  intros Hsize. split.
  - intros c y x. unfold Planar.ProcessRow_Image3F. apply copy_color_spec.
  - destruct (ProcessRow_ImageBundle_spec input_rows xextra xsize xpos ypos
                thread_id ib Hsize) as (ib' & Hib' & Hcol & Hlen & Hl).
    exists ib'. split; [exact Hib'|]. split; [|split; [exact Hlen|]].
    + intros c y x. rewrite Hcol. apply copy_color_spec.
    + intros ec y x Hec. rewrite Hl by exact Hec.
      unfold copied_extra, Planar.set_Row, GetInputRow. simpl.
      destruct (Z.eqb_spec y ypos) as [->|Hne]; simpl; [|reflexivity].
      apply copy_row_spec.
Qed.

Lemma C9_copy_exact_witness :
  Planar.PlaneRow
    (Planar.ProcessRow_Image3F ramp_rows 1 4 1 0 0 (fun _ => plane8)) 0 0 2
  = ramp_rows 0 1.
Proof.
  destruct (C9_copy_exact ramp_rows 1 4 1 0 0 (fun _ => plane8) bundle8)
    as [H _].
  - intros e He. apply list_elem_of_singleton in He. subst e. simpl. lia.
  - rewrite H. reflexivity.
Defined.

(** ** Flipping twice *)

Lemma wrap_sub_l a b : wrap (wrap a - b) = wrap (a - b).
Proof. unfold wrap. apply Zminus_mod_idemp_l. Qed.

(** C8.  Applying the horizontal flip of the callback sink twice to a batch
    (the pixels reversed and [xstart] mapped to [width - xstart - xlen],
    then the same again) gives back the batch in its original order and the
    original [xstart], for every content of the batch and every batch
    length. *)
Theorem C8_flip_twice s (temp : list float) xstart xlen :
  0 < CB.num_channels_ s -> 0 <= xlen ->
  xlen * CB.num_channels_ s < 2 ^ 64 ->
  Z.of_nat (length temp) = xlen * CB.num_channels_ s ->
  0 <= xstart < 2 ^ 64 ->
  CB.FlipX s (fst (CB.FlipX s temp xstart xlen))
    (snd (CB.FlipX s temp xstart xlen)) xlen
  = (temp, xstart).
Proof.
  intros Hnc Hxlen Hb Hlen Hxs.
  destruct (FlipX_spec s temp xstart xlen Hnc Hxlen Hb Hlen) as [HL1 HP1].
  set (t1 := fst (CB.FlipX s temp xstart xlen)) in *.
  assert (Hlen1 : Z.of_nat (length t1) = xlen * CB.num_channels_ s)
    by (rewrite HL1; exact Hlen).
  destruct (FlipX_spec s t1 (snd (CB.FlipX s temp xstart xlen)) xlen
              Hnc Hxlen Hb Hlen1) as [HL2 HP2].
  rewrite (surjective_pairing (CB.FlipX s t1 _ xlen)). f_equal.
  - apply (list_eq_same_length _ _ (length temp)); [reflexivity | congruence |].
    intros i x y Hi Hx Hy.
    apply list_lookup_total_correct in Hx, Hy. rewrite <- Hx, <- Hy.
    destruct (pix_split (Z.of_nat i) (CB.num_channels_ s) Hnc) as [Hs Hm].
    assert (Hp : 0 <= Z.of_nat i / CB.num_channels_ s < xlen).
    { split; [apply Z.div_pos; lia|]. apply Z.div_lt_upper_bound; lia. }
    replace i with (Z.to_nat (Z.of_nat i / CB.num_channels_ s * CB.num_channels_ s
                              + Z.of_nat i mod CB.num_channels_ s)) by lia.
    rewrite HP2, HP1 by lia. do 2 f_equal. lia.
  - unfold CB.FlipX. simpl.
    rewrite !wrap_sub_l. unfold wrap.
    rewrite (Z.mod_eq (CB.width_ s - xstart - xlen) (2 ^ 64)) by lia.
    replace (CB.width_ s
             - (CB.width_ s - xstart - xlen
                - 2 ^ 64 * ((CB.width_ s - xstart - xlen) / 2 ^ 64)) - xlen)
      with (xstart + (CB.width_ s - xstart - xlen) / 2 ^ 64 * 2 ^ 64) by lia.
    rewrite Z.mod_add by lia. apply Z.mod_small. exact Hxs.
Qed.

Lemma C8_flip_twice_witness :
  CB.FlipX cb_flip (fst (CB.FlipX cb_flip [F32.zero; f_half; F32.one] 2 3))
    (snd (CB.FlipX cb_flip [F32.zero; f_half; F32.one] 2 3)) 3
  = ([F32.zero; f_half; F32.one], 2).
Proof.
  apply (C8_flip_twice cb_flip [F32.zero; f_half; F32.one] 2 3).
  - simpl. lia.
  - lia.
  - simpl. lia.
  - reflexivity.
  - lia.
Defined.

Example FlipX_once :
  CB.FlipX cb_flip [F32.zero; f_half; F32.one] 2 3
  = ([F32.one; f_half; F32.zero], 3).
Proof. reflexivity. Qed.

(** ** Failure of the callback initialisation *)

(** C6.  When the callback's [Init] returns the null handle,
    [PrepareForThreads] reports failure, leaves [run_opaque_] null and
    allocates no scratch; the driver then reports the failure as the status
    of the decode, and the log of the whole run holds the single [Init]
    call: no row was processed, [Init] was not called again and nothing is
    destroyed. *)
Theorem C6_init_failure k s num_threads rows :
  Init (CB.pixel_callback_ s) num_threads CB.kMaxPixelsPerCall = 0 ->
  let st := snd (CB.PrepareForThreads s num_threads CB.initial) in
  fst (CB.PrepareForThreads s num_threads CB.initial) = false
  /\ CB.run_opaque_ st = 0 /\ CB.tempf_ st = 0 /\ CB.tempu_ st = 0
  /\ CB.events st = [EvInit num_threads CB.kMaxPixelsPerCall]
  /\ fst (Driver.RunSink k s num_threads rows CB.initial) = false
  /\ CB.events (snd (Driver.RunSink k s num_threads rows CB.initial))
     = [EvInit num_threads CB.kMaxPixelsPerCall].
Proof.
  intros Hinit st. unfold st, Driver.RunSink, CB.PrepareForThreads.
  cbv zeta. rewrite Hinit. simpl. repeat split; reflexivity.
Qed.

Lemma C6_init_failure_witness :
  fst (Driver.RunSink k26 (cb_rgba_h4 cb_null) 4
         [{| rc_input_rows := ramp_rows; rc_xextra := 0; rc_xsize := 2;
             rc_xpos := 0; rc_ypos := 0; rc_thread_id := 0 |}] CB.initial)
  = false.
Proof.
  destruct (C6_init_failure k26 (cb_rgba_h4 cb_null) 4
    [{| rc_input_rows := ramp_rows; rc_xextra := 0; rc_xsize := 2;
        rc_xpos := 0; rc_ypos := 0; rc_thread_id := 0 |}])
    as (_ & _ & _ & _ & _ & H & _).
  - reflexivity.
  - exact H.
Defined.

(** ** The pixels handed to the callback *)

Lemma pixels_one {A} nc (f : Z -> Z -> A) :
  0 < nc -> pixels nc 1 f = f 0 <$> seqZ 0 nc.
Proof.
  intros Hnc. unfold pixels. rewrite Z.mul_1_l.
  apply list_fmap_ext. intros i j Hj.
  apply lookup_seqZ in Hj as [-> Hlt]. rewrite Z.add_0_l.
  rewrite Z.div_small, Z.mod_small by lia. reflexivity.
Qed.

Lemma fmap_seqZ_rev {A} (g : Z -> A) n :
  0 <= n -> (fun i => g (n - 1 - i)) <$> seqZ 0 n ≡ₚ g <$> seqZ 0 n.
Proof.
  revert n. apply (natlike_ind
    (fun n => (fun i => g (n - 1 - i)) <$> seqZ 0 n ≡ₚ g <$> seqZ 0 n)).
  - reflexivity.
  - intros n Hn IH. unfold Z.succ.
    rewrite (seqZ_snoc 0 n) at 2 by lia.
    rewrite (seqZ_cons 0 (n + 1)) by lia.
    rewrite fmap_app, fmap_cons. simpl.
    rewrite <- Permutation_cons_append.
    replace (n + 1 - 1 - 0) with n by lia. rewrite Z.add_0_l.
    apply Permutation_cons; [reflexivity|].
    rewrite <- IH.
    replace (Z.pred (n + 1)) with n by lia.
    replace (Z.succ 0) with (1 + 0) by lia.
    rewrite <- fmap_add_seqZ, <- list_fmap_compose.
    erewrite list_fmap_ext; [reflexivity|].
    intros i j _. simpl. f_equal. lia.
Qed.

Lemma batch_pixels k s input_rows h thread_id xpos ypos limit x0 :
  0 < CB.num_channels_ s -> x0 < limit ->
  delivered_pixels s
    (batch_events k s input_rows h thread_id xpos ypos limit x0)
  ≡ₚ (fun r => (xpos + r, out_pixel k s input_rows r))
       <$> seqZ x0 (Z.min CB.kMaxPixelsPerCall (limit - x0)).
Proof.
  intros Hnc Hlim. unfold batch_events. cbv zeta.
  set (xlen := Z.min CB.kMaxPixelsPerCall (limit - x0)).
  assert (Hxlen : 0 < xlen) by (unfold xlen, CB.kMaxPixelsPerCall; lia).
  set (g := fun r => (xpos + r, out_pixel k s input_rows r)).
  set (f := fun p c =>
         narrow s (unpremultiplied k s input_rows c
                     (x0 + (if CB.flip_x_ s then xlen - 1 - p else p)))).
  set (xstart := if CB.flip_x_ s then CB.width_ s - (xpos + x0) - xlen
                 else xpos + x0).
  assert (Hall : delivered_pixels s
                   (call_events s h thread_id ypos xstart xlen f)
                 = (fun i => g (x0 + (if CB.flip_x_ s then xlen - 1 - i else i)))
                     <$> seqZ 0 xlen).
  { unfold delivered_pixels, call_events.
    destruct (CB.transpose_ s) eqn:Ht.
    - rewrite list_fmap_bind.
      assert (Hb : forall l : list Z,
        (forall i, i ∈ l -> 0 <= i < xlen) ->
        l ≫= (call_pixels s
                ∘ (fun i => EvRun h thread_id ypos (xstart + i) 1
                              (pixels (CB.num_channels_ s) 1 (fun _ c => f i c))))
        = (fun i => g (x0 + (if CB.flip_x_ s then xlen - 1 - i else i))) <$> l).
      { induction l as [|i l IH]; intros Hl; [reflexivity|].
        rewrite bind_cons, fmap_cons, IH
          by (intros j Hj; apply Hl; right; exact Hj).
        f_equal. simpl. rewrite Ht.
        change (seqZ 0 1) with [0]. simpl.
        rewrite pixels_take_drop by lia.
        rewrite pixels_one by lia. unfold g, out_pixel, f, xstart.
        f_equal. f_equal.
        destruct (CB.flip_x_ s); lia. }
      apply Hb. intros i Hi. apply elem_of_seqZ in Hi. lia.
    - simpl. rewrite Ht. rewrite app_nil_r.
      apply list_fmap_ext. intros j i Hi.
      apply lookup_seqZ in Hi as [-> Hlt]. rewrite Z.add_0_l.
      rewrite pixels_take_drop by lia.
      rewrite pixels_one by lia. unfold g, out_pixel, f, xstart.
      f_equal.
      destruct (CB.flip_x_ s); lia. }
  rewrite Hall.
  assert (Hseq : seqZ x0 xlen = Z.add x0 <$> seqZ 0 xlen)
    by (rewrite fmap_add_seqZ; f_equal; lia).
  rewrite Hseq, <- list_fmap_compose.
  destruct (CB.flip_x_ s).
  - rewrite <- (fmap_seqZ_rev (g ∘ Z.add x0)) by lia. reflexivity.
  - reflexivity.
Qed.

Lemma delivered_pixels_app s e1 e2 :
  delivered_pixels s (e1 ++ e2) = delivered_pixels s e1 ++ delivered_pixels s e2.
Proof. unfold delivered_pixels. apply bind_app. Qed.

Lemma row_pixels k s input_rows h xextra xsize xpos ypos thread_id :
  0 < CB.num_channels_ s -> 0 <= row_limit s xextra xsize xpos + xextra ->
  delivered_pixels s
    (row_events k s input_rows h xextra xsize xpos ypos thread_id)
  ≡ₚ (fun r => (xpos + r, out_pixel k s input_rows r))
       <$> seqZ (- xextra) (row_limit s xextra xsize xpos + xextra).
Proof.
  intros Hnc HT. unfold row_events. cbv zeta.
  set (limit := row_limit s xextra xsize xpos) in *.
  set (T := limit + xextra) in *.
  set (g := fun r => (xpos + r, out_pixel k s input_rows r)).
  set (bev := fun b =>
         batch_events k s input_rows h thread_id xpos (ypos_out s ypos) limit
           (- xextra + CB.kMaxPixelsPerCall * b)).
  destruct (RoundUpTo_bounds T CB.kMaxPixelsPerCall
              ltac:(unfold CB.kMaxPixelsPerCall; lia) HT) as (Hr1 & Hr2 & Hr3).
  unfold RoundUpTo in Hr1, Hr2.
  set (nb := DivCeil T CB.kMaxPixelsPerCall) in *.
  unfold CB.kMaxPixelsPerCall in *.
  assert (Hind : forall b, 0 <= b -> b <= nb ->
            delivered_pixels s (concat (bev <$> seqZ 0 b))
            ≡ₚ g <$> seqZ (- xextra) (Z.min T (1024 * b))).
  { apply (natlike_ind (fun b => b <= nb ->
            delivered_pixels s (concat (bev <$> seqZ 0 b))
            ≡ₚ g <$> seqZ (- xextra) (Z.min T (1024 * b)))).
    - intros _. rewrite Z.min_r by lia. reflexivity.
    - intros b Hb IH Hle. unfold Z.succ.
      rewrite seqZ_snoc, fmap_app, concat_app by lia. simpl.
      rewrite app_nil_r, delivered_pixels_app.
      rewrite IH by lia.
      unfold bev. rewrite batch_pixels by (unfold limit in *; lia).
      fold g. unfold CB.kMaxPixelsPerCall.
      rewrite (Z.min_r T (1024 * b)) by lia.
      replace (Z.min T (1024 * (b + 1)))
        with (1024 * b + Z.min 1024 (limit - (- xextra + 1024 * b)))
        by (unfold T; lia).
      rewrite seqZ_app, fmap_app by lia. reflexivity. }
  rewrite (Hind nb) by lia.
  rewrite Z.min_l by lia. reflexivity.
Qed.

Lemma row_xs k s input_rows h xextra xsize xpos ypos thread_id :
  0 < CB.num_channels_ s -> 0 <= row_limit s xextra xsize xpos + xextra ->
  delivered_xs s (row_events k s input_rows h xextra xsize xpos ypos thread_id)
  ≡ₚ seqZ (xpos - xextra) (row_limit s xextra xsize xpos + xextra).
Proof.
  intros Hnc HT. unfold delivered_xs.
  rewrite row_pixels by assumption.
  rewrite <- list_fmap_compose.
  replace (xpos - xextra) with (xpos + - xextra) by lia.
  rewrite <- fmap_add_seqZ. reflexivity.
Qed.

(** ** The span of a row that is delivered *)

(** C10, as the code has it.  For a row call with [ypos < height] (and
    [xextra <= xpos <= width]) the pixels handed to the callback are, each
    exactly once, those at the x positions from [xpos - xextra] up to
    [min(xpos + xsize + xextra, width) - 1]: the border is delivered on both
    sides and the span is cut at [width], so every delivered position, and
    its mirror image under a horizontal flip, lies in [0, width). *)
Theorem C10_delivered_span k s input_rows xextra xsize xpos ypos thread_id st :
  wf_stage s -> row_args_ok s xextra xsize xpos ypos ->
  exists new,
    CB.events (CB.ProcessRow k s input_rows xextra xsize xpos ypos thread_id st)
    = CB.events st ++ new
    /\ delivered_xs s new
       ≡ₚ seqZ (xpos - xextra)
            (Z.min (xpos + xsize + xextra) (CB.width_ s) - (xpos - xextra))
    /\ forall x, x ∈ delivered_xs s new ->
         0 <= x < CB.width_ s /\ 0 <= CB.width_ s - 1 - x < CB.width_ s.
Proof.
  intros Hwf Hargs. pose proof Hwf as (Hnc & _).
  pose proof Hargs as (Hxe & Hxp & Hw & Hxs & Hsum & Hy & Hh).
  eexists. split.
  { rewrite CB_ProcessRow_spec by assumption. reflexivity. }
  assert (HT : row_limit s xextra xsize xpos + xextra
               = Z.min (xpos + xsize + xextra) (CB.width_ s) - (xpos - xextra))
    by (unfold row_limit; lia).
  assert (Hperm := row_xs k s input_rows (CB.run_opaque_ st) xextra xsize xpos
                     ypos thread_id ltac:(lia) ltac:(unfold row_limit; lia)).
  rewrite HT in Hperm. split; [exact Hperm|].
  intros x Hx. rewrite Hperm in Hx. apply elem_of_seqZ in Hx. lia.
Qed.

Lemma C10_delivered_span_witness :
  exists new,
    CB.events (CB.ProcessRow k26 cb_gray_w100 ramp_rows 1 4 8 0 0 CB.initial)
    = CB.events CB.initial ++ new
    /\ delivered_xs cb_gray_w100 new ≡ₚ seqZ 7 6.
Proof.
  destruct (C10_delivered_span k26 cb_gray_w100 ramp_rows 1 4 8 0 0 CB.initial)
    as (new & H1 & H2 & _).
  - apply constructor_wf. lia.
  - unfold row_args_ok. simpl. lia.
  - exists new. split; [exact H1 | exact H2].
Defined.

(** C10 as it was stated fails: with a border of one sample ([xextra = 1],
    [xsize = 4], [xpos = 8], [width = 100]) the positions 7..12 are
    delivered, position 12 lying beyond [min(xpos + xsize, width) - 1 = 11]. *)
Lemma C10_counterexample :
  delivered_xs cb_gray_w100
    (CB.events (CB.ProcessRow k26 cb_gray_w100 ramp_rows 1 4 8 0 0 CB.initial))
  = [7; 8; 9; 10; 11; 12]
  /\ ~ (forall x,
          x ∈ delivered_xs cb_gray_w100
                (CB.events (CB.ProcessRow k26 cb_gray_w100 ramp_rows 1 4 8 0 0
                              CB.initial))
          <-> 8 - 1 <= x <= Z.min (8 + 4) 100 - 1).
Proof.
  assert (H : delivered_xs cb_gray_w100
                (CB.events (CB.ProcessRow k26 cb_gray_w100 ramp_rows 1 4 8 0 0
                              CB.initial))
              = [7; 8; 9; 10; 11; 12]) by (vm_compute; reflexivity).
  split; [exact H|].
  rewrite H. intros Hall. specialize (Hall 12). destruct Hall as [Hall _].
  assert (H12 : 12 ∈ [7; 8; 9; 10; 11; 12]) by (rewrite !elem_of_cons; tauto).
  specialize (Hall H12). lia.
Qed.

(** ** One call per batch, one call per pixel under transposition *)

Lemma concat_bind {A B C} (f : A -> list B) (g : B -> list C) (l : list A) :
  concat (f <$> l) ≫= g = concat ((fun x => f x ≫= g) <$> l).
Proof.
  induction l as [|x l IH]; [reflexivity|].
  rewrite !fmap_cons. simpl. rewrite bind_app, IH. reflexivity.
Qed.

Lemma concat_singletons {A B} (f : A -> B) (l : list A) :
  concat ((fun x => [f x]) <$> l) = f <$> l.
Proof.
  induction l as [|x l IH]; [reflexivity|].
  rewrite !fmap_cons. simpl. rewrite IH. reflexivity.
Qed.

Lemma call_events_split s s0 h thread_id ypos xstart xlen f :
  CB.num_channels_ s0 = CB.num_channels_ s -> 0 < CB.num_channels_ s ->
  CB.transpose_ s = true -> CB.transpose_ s0 = false ->
  call_events s h thread_id ypos xstart xlen f
  = call_events s0 h thread_id ypos xstart xlen f
      ≫= split_call (CB.num_channels_ s).
Proof.
  intros Hnc0 Hnc Ht Ht0. unfold call_events. rewrite Ht, Ht0, Hnc0.
  rewrite bind_cons. simpl. rewrite app_nil_r.
  apply list_fmap_ext. intros j i Hi.
  apply lookup_seqZ in Hi as [-> Hlt]. rewrite Z.add_0_l.
  rewrite pixels_take_drop by lia. reflexivity.
Qed.

Lemma row_events_untransposed k s input_rows h xextra xsize xpos ypos
    thread_id :
  CB.transpose_ s = false ->
  0 <= row_limit s xextra xsize xpos + xextra ->
  Z.of_nat
    (length (row_events k s input_rows h xextra xsize xpos ypos thread_id))
  = DivCeil (row_limit s xextra xsize xpos + xextra) CB.kMaxPixelsPerCall
  /\ Forall batch_call
       (row_events k s input_rows h xextra xsize xpos ypos thread_id).
Proof.
  intros Ht HT. unfold row_events, batch_events, call_events. cbv zeta.
  rewrite Ht. rewrite concat_singletons.
  destruct (RoundUpTo_bounds _ CB.kMaxPixelsPerCall
              ltac:(unfold CB.kMaxPixelsPerCall; lia) HT) as (Hr1 & Hr2 & Hr3).
  unfold RoundUpTo in Hr1, Hr2. split.
  - rewrite length_fmap, length_seqZ. lia.
  - rewrite Forall_fmap. apply Forall_seqZ. intros b Hb. simpl.
    unfold CB.kMaxPixelsPerCall in *. lia.
Qed.

(** C4.  A row call makes one callback invocation per batch, each for 1 to
    1024 pixels, when the orientation to undo has no transposition; when it
    has one, every such batch call for [xlen] pixels at [(xstart, ypos)] is
    replaced by [xlen] calls for one pixel each, the call for pixel [i]
    getting the coordinates [(ypos, xstart + i)], that is, exchanged. *)
Theorem C4_calls_per_batch k cb width height num_channels has_alpha
    unpremul_alpha alpha_c swap_endianness o data_type input_rows
    xextra xsize xpos ypos thread_id st :
  1 <= num_channels <= 4 ->
  let s := CB.WriteToPixelCallbackStage cb width height num_channels has_alpha
             unpremul_alpha alpha_c swap_endianness o data_type in
  let s0 := CB.WriteToPixelCallbackStage cb width height num_channels has_alpha
              unpremul_alpha alpha_c swap_endianness (untransposed o)
              data_type in
  row_args_ok s xextra xsize xpos ypos ->
  exists new new0,
    CB.events (CB.ProcessRow k s input_rows xextra xsize xpos ypos thread_id st)
    = CB.events st ++ new
    /\ CB.events
         (CB.ProcessRow k s0 input_rows xextra xsize xpos ypos thread_id st)
       = CB.events st ++ new0
    /\ Forall batch_call new0
    /\ Z.of_nat (length new0)
       = DivCeil (Z.min (xpos + xsize + xextra) width - (xpos - xextra))
           CB.kMaxPixelsPerCall
    /\ (CB.ShouldTranspose o = false -> new = new0)
    /\ (CB.ShouldTranspose o = true ->
        new = new0 ≫= split_call num_channels
        /\ Forall single_pixel_call new).
Proof.
  intros Hnc s s0 Hargs.
  assert (Hwf : wf_stage s) by (apply constructor_wf; exact Hnc).
  assert (Hwf0 : wf_stage s0) by (apply constructor_wf; exact Hnc).
  assert (Hargs0 : row_args_ok s0 xextra xsize xpos ypos) by exact Hargs.
  pose proof Hargs as (Hxe & Hxp & Hw & Hxs & Hsum & Hy & Hh).
  simpl in Hxp, Hw.
  assert (HT : row_limit s0 xextra xsize xpos + xextra
               = Z.min (xpos + xsize + xextra) width - (xpos - xextra))
    by (unfold row_limit; simpl; lia).
  assert (Ht0 : CB.transpose_ s0 = false) by (destruct o; reflexivity).
  destruct (row_events_untransposed k s0 input_rows (CB.run_opaque_ st)
              xextra xsize xpos ypos thread_id Ht0 ltac:(lia)) as [Hlen Hall].
  rewrite HT in Hlen.
  exists (row_events k s input_rows (CB.run_opaque_ st) xextra xsize xpos ypos
            thread_id),
         (row_events k s0 input_rows (CB.run_opaque_ st) xextra xsize xpos ypos
            thread_id).
  split; [rewrite CB_ProcessRow_spec by assumption; reflexivity|].
  split; [rewrite CB_ProcessRow_spec by assumption; reflexivity|].
  split; [exact Hall|]. split; [exact Hlen|]. split.
  - intros Ht. destruct o; try discriminate Ht; reflexivity.
  - intros Ht.
    assert (Heq : row_events k s input_rows (CB.run_opaque_ st) xextra xsize
                    xpos ypos thread_id
                  = row_events k s0 input_rows (CB.run_opaque_ st) xextra xsize
                      xpos ypos thread_id ≫= split_call num_channels).
    { unfold row_events. cbv zeta. rewrite concat_bind.
      f_equal. apply list_fmap_ext. intros j b _.
      unfold batch_events. cbv zeta.
      rewrite (call_events_split s s0);
        [| reflexivity | simpl; lia | exact Ht | exact Ht0].
      destruct o; try discriminate Ht; reflexivity. }
    split; [exact Heq|].
    rewrite Heq. rewrite Forall_bind.
    eapply Forall_impl; [exact Hall|].
    intros e He. destruct e; simpl in He; try contradiction.
    simpl. rewrite Forall_fmap. apply Forall_seqZ. intros i _. reflexivity.
Qed.

Lemma C4_calls_per_batch_witness :
  exists new,
    CB.events (CB.ProcessRow k26 cb_transposed ramp_rows 0 8 0 1 0 CB.initial)
    = CB.events CB.initial ++ new
    /\ Forall single_pixel_call new.
Proof.
  destruct (C4_calls_per_batch k26 cb_ok 8 4 3 false false 3 false kTranspose
              JXL_TYPE_UINT8 ramp_rows 0 8 0 1 0 CB.initial)
    as (new & new0 & H1 & _ & _ & _ & _ & H2).
  - lia.
  - unfold row_args_ok. simpl. lia.
  - exists new. split; [exact H1|]. apply H2. reflexivity.
Defined.

Example transposed_calls :
  CB.events (CB.ProcessRow k26 cb_transposed ramp_rows 0 2 0 1 0 CB.initial)
  = [EvRun 0 0 1 0 1 [SampleU8 0; SampleU8 26; SampleU8 51];
     EvRun 0 0 1 1 1 [SampleU8 3; SampleU8 28; SampleU8 54]].
Proof. vm_compute. reflexivity. Qed.

(** ** Division by a positive float never yields NaN *)

Lemma shr_1_nonneg mrs : 0 <= shr_m mrs -> 0 <= shr_m (shr_1 mrs).
Proof.
  destruct mrs as [m r s]. simpl.
  destruct m as [|p|p]; [simpl; lia | | intros H; exfalso; lia].
  destruct p; simpl; lia.
Qed.

Lemma iter_pos_shr_1_nonneg p mrs :
  0 <= shr_m mrs -> 0 <= shr_m (SpecFloat.iter_pos shr_1 p mrs).
Proof.
  revert mrs. induction p as [p IH|p IH|]; intros mrs H; simpl.
  - apply IH, IH, shr_1_nonneg, H.
  - apply IH, IH, H.
  - apply shr_1_nonneg, H.
Qed.

Lemma shr_fexp_nonneg prec emax m e l :
  0 <= m -> 0 <= shr_m (fst (shr_fexp prec emax m e l)).
Proof.
  intros Hm. unfold shr_fexp, shr.
  assert (H0 : 0 <= shr_m (shr_record_of_loc m l)).
  { destruct l as [|[]]; simpl; exact Hm. }
  destruct (fexp prec emax (Zdigits2 m + e) - e); simpl;
    [exact H0 | apply iter_pos_shr_1_nonneg, H0 | exact H0].
Qed.

Lemma round_nearest_even_nonneg m l : 0 <= m -> 0 <= round_nearest_even m l.
Proof.
  intros Hm. unfold round_nearest_even.
  destruct l as [|[]]; try lia. destruct (Z.even m); lia.
Qed.

Lemma binary_round_aux_not_nan prec emax sx mx ex lx :
  0 <= mx -> F32.is_nan (binary_round_aux prec emax sx mx ex lx) = false.
Proof.
  intros Hm. unfold binary_round_aux.
  pose proof (shr_fexp_nonneg prec emax mx ex lx Hm) as H1.
  destruct (shr_fexp prec emax mx ex lx) as [mrs' e']. simpl in H1.
  pose proof (shr_fexp_nonneg prec emax
                (round_nearest_even (shr_m mrs') (loc_of_shr_record mrs'))
                e' loc_Exact (round_nearest_even_nonneg _ _ H1)) as H2.
  destruct (shr_fexp prec emax _ e' loc_Exact) as [mrs'' e'']. simpl in H2.
  destruct (shr_m mrs'') as [|p|p]; [reflexivity | | lia].
  destruct (e'' <=? emax - prec); reflexivity.
Qed.

Lemma Div_positive_not_nan c mk ek :
  F32.is_nan c = false ->
  F32.is_nan (F32.Div c (S754_finite false mk ek)) = false.
Proof.
  intros Hc. unfold F32.Div, SFdiv.
  destruct c as [s|s| |s m e]; try reflexivity; try discriminate.
  unfold SFdiv_core_binary.
  set (e' := Z.min _ _). set (sh := e - ek - e').
  set (m' := match sh with
             | 0 => Z.pos m | Z.pos _ => Z.shiftl (Z.pos m) sh | Z.neg _ => 0
             end).
  assert (Hm' : 0 <= m').
  { unfold m'. destruct sh; [lia | | lia]. apply Z.shiftl_nonneg. lia. }
  pose proof (Z.div_pos m' (Z.pos mk) Hm' ltac:(lia)) as Hq.
  unfold Z.div in Hq.
  destruct (Z.div_eucl m' (Z.pos mk)) as [q r].
  apply binary_round_aux_not_nan. exact Hq.
Qed.

Lemma Div_zero c mk ek :
  is_zero c = true -> is_zero (F32.Div c (S754_finite false mk ek)) = true.
Proof. destruct c; try discriminate. reflexivity. Qed.

Lemma std_max_zero_alpha mk ek a :
  is_zero a = true ->
  F32.std_max (S754_finite false mk ek) a = S754_finite false mk ek.
Proof. destruct a; try discriminate. reflexivity. Qed.

(** ** Shifts and digits *)

Lemma shr_1_div2 mrs :
  0 <= shr_m mrs -> shr_m (shr_1 mrs) = shr_m mrs / 2.
Proof.
  destruct mrs as [m r s]. simpl. intros Hm.
  destruct m as [|p|p]; [reflexivity | | lia].
  destruct p as [p|p|]; simpl.
  - apply (Z.div_unique_pos _ _ _ 1); lia.
  - apply (Z.div_unique_pos _ _ _ 0); lia.
  - reflexivity.
Qed.

Lemma iter_pos_shr_1_div p mrs :
  0 <= shr_m mrs ->
  shr_m (SpecFloat.iter_pos shr_1 p mrs) = shr_m mrs / 2 ^ Z.pos p.
Proof.
  revert mrs. induction p as [p IH|p IH|]; intros mrs Hm; simpl SpecFloat.iter_pos.
  - rewrite IH by (apply iter_pos_shr_1_nonneg, shr_1_nonneg, Hm).
    rewrite IH by (apply shr_1_nonneg, Hm).
    rewrite shr_1_div2 by exact Hm.
    assert (Hp : 0 < 2 ^ Z.pos p) by (apply Z.pow_pos_nonneg; lia).
    rewrite !Z.div_div by lia.
    f_equal. change (Z.pos p~1) with (2 * Z.pos p + 1).
    replace (2 * Z.pos p + 1) with (1 + Z.pos p + Z.pos p) by lia.
    rewrite !Z.pow_add_r by lia. rewrite Z.pow_1_r. lia.
  - rewrite IH by (apply iter_pos_shr_1_nonneg, Hm).
    rewrite IH by exact Hm.
    assert (Hp : 0 < 2 ^ Z.pos p) by (apply Z.pow_pos_nonneg; lia).
    rewrite !Z.div_div by lia.
    f_equal. change (Z.pos p~0) with (2 * Z.pos p).
    replace (2 * Z.pos p) with (Z.pos p + Z.pos p) by lia.
    rewrite !Z.pow_add_r by lia. lia.
  - apply shr_1_div2. exact Hm.
Qed.

Lemma shr_record_of_loc_m m l : shr_m (shr_record_of_loc m l) = m.
Proof. destruct l as [|[]]; reflexivity. Qed.

Lemma round_nearest_even_bounds m l :
  m <= round_nearest_even m l <= m + 1.
Proof.
  unfold round_nearest_even. destruct l as [|[]]; try lia.
  destruct (Z.even m); lia.
Qed.

Lemma digits2_pos_lower p : 2 ^ (Z.pos (digits2_pos p) - 1) <= Z.pos p.
Proof.
  induction p as [p IH|p IH|]; simpl digits2_pos.
  - rewrite Pos2Z.inj_succ.
    replace (Z.succ (Z.pos (digits2_pos p)) - 1)
      with (Z.succ (Z.pos (digits2_pos p) - 1)) by lia.
    rewrite Z.pow_succ_r by lia. lia.
  - rewrite Pos2Z.inj_succ.
    replace (Z.succ (Z.pos (digits2_pos p)) - 1)
      with (Z.succ (Z.pos (digits2_pos p) - 1)) by lia.
    rewrite Z.pow_succ_r by lia. lia.
  - simpl. lia.
Qed.

Lemma digits2_pos_upper p : Z.pos p < 2 ^ Z.pos (digits2_pos p).
Proof.
  induction p as [p IH|p IH|]; simpl digits2_pos.
  - rewrite Pos2Z.inj_succ, Z.pow_succ_r by lia. lia.
  - rewrite Pos2Z.inj_succ, Z.pow_succ_r by lia. lia.
  - simpl. lia.
Qed.

Lemma digits2_pos_le p n :
  0 <= n -> Z.pos p < 2 ^ n -> Z.pos (digits2_pos p) <= n.
Proof.
  intros Hn Hp.
  destruct (Z.le_gt_cases (Z.pos (digits2_pos p)) n) as [H|H]; [exact H|].
  exfalso. pose proof (digits2_pos_lower p) as Hl.
  assert (2 ^ n <= 2 ^ (Z.pos (digits2_pos p) - 1))
    by (apply Z.pow_le_mono_r; lia).
  lia.
Qed.

(** ** Unpremultiplication in the callback sink *)

Lemma delivered_pixel_inv k s input_rows h xextra xsize xpos ypos thread_id
    x px :
  0 < CB.num_channels_ s -> 0 <= row_limit s xextra xsize xpos + xextra ->
  (x, px) ∈ delivered_pixels s
              (row_events k s input_rows h xextra xsize xpos ypos thread_id) ->
  px = out_pixel k s input_rows (x - xpos).
Proof.
  intros Hnc HT Hin. rewrite row_pixels in Hin by assumption.
  apply list_elem_of_fmap in Hin as (r & Heq & _).
  injection Heq as -> ->. f_equal. lia.
Qed.

Lemma out_pixel_lookup k s input_rows r c :
  0 <= c < CB.num_channels_ s ->
  out_pixel k s input_rows r !! Z.to_nat c
  = Some (narrow s (unpremultiplied k s input_rows c r)).
Proof.
  intros Hc. unfold out_pixel.
  rewrite list_lookup_fmap, lookup_seqZ_lt by lia. simpl.
  rewrite Z2Nat.id by lia. reflexivity.
Qed.

(** C1, as the code has it.  With an alpha plane and unpremultiplication
    requested, a row call delivers every pixel as follows.  When the output
    carries alpha ([num_channels] 2 or 4) each colour sample is the input
    colour divided by the pixel's own alpha, clamped from below by
    [kSmallAlpha], and only then narrowed to the output type; the pixel keeps
    its own quotient wherever the horizontal flip places it.  When the
    output carries no alpha ([num_channels] 1 or 3) the colour samples are
    narrowed undivided. *)
Theorem C1_unpremultiply_then_narrow k cb width height num_channels alpha_c
    swap_endianness o data_type input_rows xextra xsize xpos ypos thread_id
    st :
  1 <= num_channels <= 4 ->
  let s := CB.WriteToPixelCallbackStage cb width height num_channels true true
             alpha_c swap_endianness o data_type in
  row_args_ok s xextra xsize xpos ypos ->
  exists new,
    CB.events (CB.ProcessRow k s input_rows xextra xsize xpos ypos thread_id st)
    = CB.events st ++ new
    /\ (forall x px, (x, px) ∈ delivered_pixels s new ->
          px = (fun c =>
                  narrow s
                    (if c <? CB.num_color_ s
                     then (if (num_channels =? 2) || (num_channels =? 4)
                           then F32.Div (input_rows c (x - xpos))
                                  (F32.std_max k
                                     (input_rows alpha_c (x - xpos)))
                           else input_rows c (x - xpos))
                     else input_rows alpha_c (x - xpos)))
                 <$> seqZ 0 num_channels)
    /\ (num_channels = 2 \/ num_channels = 4 ->
        divided_by_alpha k s input_rows xpos new).
Proof.
  intros Hnc s Hargs.
  assert (Hwf : wf_stage s) by (apply constructor_wf; exact Hnc).
  pose proof Hargs as (Hxe & Hxp & Hw & Hxs & Hsum & Hy & Hh).
  assert (HT : 0 <= row_limit s xextra xsize xpos + xextra)
    by (unfold row_limit; lia).
  eexists. split.
  { rewrite CB_ProcessRow_spec by assumption. reflexivity. }
  split.
  - intros x px Hin.
    apply delivered_pixel_inv in Hin; [|simpl; lia | exact HT]. subst px.
    unfold out_pixel. apply list_fmap_ext. intros j c Hc. f_equal.
    unfold unpremultiplied, chan. simpl.
    destruct ((num_channels =? 2) || (num_channels =? 4));
      destruct (c <? (if num_channels <? 3 then 1 else 3)); simpl;
      try reflexivity.
    rewrite Z.ltb_irrefl. reflexivity.
  - intros H24 x px c Hin Hc Hc'.
    apply delivered_pixel_inv in Hin; [|simpl; lia | exact HT]. subst px.
    rewrite out_pixel_lookup by (simpl in *; lia).
    unfold unpremultiplied, chan. simpl in *.
    destruct (Z.ltb_spec c (if num_channels <? 3 then 1 else 3)); [|lia].
    rewrite Z.ltb_irrefl.
    destruct H24 as [-> | ->]; reflexivity.
Qed.

Lemma C1_unpremultiply_then_narrow_witness :
  exists new,
    CB.events
      (CB.ProcessRow k26
         (CB.WriteToPixelCallbackStage cb_ok 8 4 4 true true 3 false
            kFlipHorizontal JXL_TYPE_UINT16)
         ramp_rows 0 8 0 1 0 CB.initial)
    = CB.events CB.initial ++ new
    /\ divided_by_alpha k26
         (CB.WriteToPixelCallbackStage cb_ok 8 4 4 true true 3 false
            kFlipHorizontal JXL_TYPE_UINT16)
         ramp_rows 0 new.
Proof.
  destruct (C1_unpremultiply_then_narrow k26 cb_ok 8 4 4 3 false
              kFlipHorizontal JXL_TYPE_UINT16 ramp_rows 0 8 0 1 0 CB.initial)
    as (new & H1 & _ & H2).
  - lia.
  - unfold row_args_ok. simpl. lia.
  - exists new. split; [exact H1|]. apply H2. right. reflexivity.
Defined.

(** C1 as it was stated fails for [num_channels = 3]: with an alpha plane
    and unpremultiplication requested, the colour 0.25 of a pixel with alpha
    0.5 is delivered as 0.25, not as the quotient 0.5. *)
Lemma C1_counterexample :
  CB.events (CB.ProcessRow k26 cb_rgb_unpremul quarter_rows 0 1 0 0 0 CB.initial)
  = [EvRun 0 0 0 0 1
       [SampleF32 f_quarter; SampleF32 f_quarter; SampleF32 f_quarter]]
  /\ F32.Div f_quarter (F32.std_max k26 f_half) = f_half
  /\ ~ divided_by_alpha k26 cb_rgb_unpremul quarter_rows 0
         (CB.events
            (CB.ProcessRow k26 cb_rgb_unpremul quarter_rows 0 1 0 0 0
               CB.initial)).
Proof.
  assert (He : CB.events
                 (CB.ProcessRow k26 cb_rgb_unpremul quarter_rows 0 1 0 0 0
                    CB.initial)
               = [EvRun 0 0 0 0 1
                    [SampleF32 f_quarter; SampleF32 f_quarter;
                     SampleF32 f_quarter]])
    by (vm_compute; reflexivity).
  split; [exact He|]. split; [vm_compute; reflexivity|].
  rewrite He. intros H.
  specialize (H 0 [SampleF32 f_quarter; SampleF32 f_quarter; SampleF32 f_quarter]
                0).
  assert (Hin : (0, [SampleF32 f_quarter; SampleF32 f_quarter;
                     SampleF32 f_quarter])
                ∈ delivered_pixels cb_rgb_unpremul
                    [EvRun 0 0 0 0 1
                       [SampleF32 f_quarter; SampleF32 f_quarter;
                        SampleF32 f_quarter]])
    by (vm_compute; left).
  specialize (H Hin ltac:(simpl; lia) ltac:(simpl; lia)).
  vm_compute in H. discriminate H.
Qed.

(** ** The range of a rounded value *)

Lemma Zdigits2_upper m : 0 <= m -> m < 2 ^ Zdigits2 m.
Proof.
  destruct m as [|p|p]; simpl; [lia | | lia].
  intros _. apply digits2_pos_upper.
Qed.

Lemma Zdigits2_le m n : 0 <= n -> 0 <= m < 2 ^ n -> Zdigits2 m <= n.
Proof.
  destruct m as [|p|p]; simpl; [lia | | lia].
  intros Hn [_ Hp]. apply digits2_pos_le; assumption.
Qed.

Lemma pow2_pos n : 0 <= n -> 0 < 2 ^ n.
Proof. intros. apply Z.pow_pos_nonneg; lia. Qed.

Lemma pow2_split a b : 0 <= a -> 0 <= b -> 2 ^ (a + b) = 2 ^ a * 2 ^ b.
Proof. intros. apply Z.pow_add_r; assumption. Qed.

(** A non-negative [m] below [2 ^ n] with [n] negative is zero. *)
Lemma below_neg_pow m n : 0 <= m -> m < 2 ^ n -> 0 <= n.
Proof.
  intros Hm Hlt. destruct (Z.le_gt_cases 0 n) as [H|H]; [exact H|].
  rewrite Z.pow_neg_r in Hlt by lia. lia.
Qed.

Section RoundingRange.

Variable prec : Z.
Variable emax : Z.
Hypothesis Hprec : 0 < prec.
Hypothesis Hemax : 2 <= emax.

Lemma fexp_mono a b : a <= b -> fexp prec emax a <= fexp prec emax b.
Proof. unfold fexp. lia. Qed.

Lemma fexp_emin a : emin prec emax <= fexp prec emax a.
Proof. unfold fexp. lia. Qed.

Lemma shr_fexp_exponent m e l :
  0 <= m ->
  let r := shr_fexp prec emax m e l in
  shr_m (fst r) = m / 2 ^ (snd r - e)
  /\ (snd r = e /\ fexp prec emax (Zdigits2 m + e) <= e
      \/ e < snd r /\ snd r = fexp prec emax (Zdigits2 m + e)).
Proof.
  intros Hm. unfold shr_fexp, shr. cbv zeta.
  destruct (fexp prec emax (Zdigits2 m + e) - e) as [|n|n] eqn:Hn;
    simpl fst; simpl snd.
  - rewrite Z.sub_diag, Z.div_1_r, shr_record_of_loc_m.
    split; [reflexivity|]. left. lia.
  - rewrite iter_pos_shr_1_div by (rewrite shr_record_of_loc_m; exact Hm).
    rewrite shr_record_of_loc_m.
    replace (e + Z.pos n - e) with (Z.pos n) by lia.
    split; [reflexivity|]. right. lia.
  - rewrite Z.sub_diag, Z.div_1_r, shr_record_of_loc_m.
    split; [reflexivity|]. left. lia.
Qed.

(** One shift to the exponent of the format, for a mantissa [m] at
    exponent [e] whose value is below [2 ^ W]. *)
Lemma shr_fexp_range m e l W :
  0 <= m -> m = 0 \/ m < 2 ^ (W - e) -> e <= fexp prec emax W ->
  let r := shr_fexp prec emax m e l in
  let m1 := shr_m (fst r) in
  let e1 := snd r in
  0 <= m1 < 2 ^ prec
  /\ (m1 = 0 \/ m1 < 2 ^ (W - e1))
  /\ emin prec emax <= e1 <= fexp prec emax W.
Proof.
  intros Hm HW He r m1 e1.
  destruct (shr_fexp_exponent m e l Hm) as (Hm1 & Hcase).
  fold r in Hm1, Hcase. fold m1 in Hm1. fold e1 in Hm1, Hcase.
  pose proof (Zdigits2_upper m Hm) as Hu.
  assert (Hd0 : 0 <= Zdigits2 m) by (destruct m; simpl; lia).
  assert (Hdw : fexp prec emax (Zdigits2 m + e) <= fexp prec emax W).
  { destruct HW as [->|HW].
    - simpl. pose proof (fexp_emin W). unfold fexp in *. lia.
    - apply fexp_mono.
      pose proof (below_neg_pow _ _ Hm HW).
      pose proof (Zdigits2_le m (W - e) ltac:(lia) ltac:(lia)). lia. }
  destruct Hcase as [[He1 Hf]|[He1 Hf]].
  - rewrite He1 in *. rewrite Z.sub_diag, Z.div_1_r in Hm1. rewrite Hm1.
    assert (Zdigits2 m <= prec) by (unfold fexp in Hf; lia).
    assert (2 ^ Zdigits2 m <= 2 ^ prec) by (apply Z.pow_le_mono_r; lia).
    pose proof (fexp_emin (Zdigits2 m + e)).
    split; [lia|]. split; [exact HW|]. lia.
  - set (n := e1 - e) in *. assert (Hn : 0 < n) by lia.
    pose proof (pow2_pos n ltac:(lia)) as Hpn.
    assert (H0 : 0 <= m1) by (rewrite Hm1; apply Z.div_pos; lia).
    split; [|split].
    + split; [exact H0|]. rewrite Hm1.
      apply Z.div_lt_upper_bound; [exact Hpn|].
      rewrite <- pow2_split by lia.
      eapply Z.lt_le_trans; [exact Hu|].
      apply Z.pow_le_mono_r; [lia|]. unfold fexp in Hf. lia.
    + destruct HW as [->|HW]; [left; rewrite Hm1; apply Z.div_0_l; lia|].
      pose proof (below_neg_pow _ _ Hm HW).
      destruct (Z.le_gt_cases e1 W) as [Hle|Hgt].
      * right. rewrite Hm1. apply Z.div_lt_upper_bound; [exact Hpn|].
        rewrite <- pow2_split by lia.
        replace (n + (W - e1)) with (W - e) by lia. exact HW.
      * left. rewrite Hm1. apply Z.div_small. split; [exact Hm|].
        eapply Z.lt_le_trans; [exact HW|].
        apply Z.pow_le_mono_r; lia.
    + pose proof (fexp_emin (Zdigits2 m + e)). lia.
Qed.

(** Rounding a value below [2 ^ W], given at an exponent that is not above
    the one of the format, yields zero or a float of the format of at most
    [2 ^ W]; it does not overflow when [W < emax]. *)
Lemma binary_round_aux_range sx m e l W :
  0 <= m -> m = 0 \/ m < 2 ^ (W - e) -> e <= fexp prec emax W ->
  emin prec emax <= W -> W + 1 <= emax ->
  match binary_round_aux prec emax sx m e l with
  | S754_zero _ => True
  | S754_finite _ m' e' =>
      Z.pos m' < 2 ^ prec /\ Z.pos m' < 2 ^ (W + 1 - e')
      /\ emin prec emax <= e' <= emax - prec
  | _ => False
  end.
Proof.
  intros Hm HW He HminW HWmax. unfold binary_round_aux.
  pose proof (shr_fexp_range m e l W Hm HW He) as H1. cbv zeta in H1.
  destruct (shr_fexp prec emax m e l) as [mrs1 e1].
  simpl fst in H1; simpl snd in H1.
  destruct H1 as (Hm1 & HW1 & He1).
  set (m2 := round_nearest_even (shr_m mrs1) (loc_of_shr_record mrs1)).
  pose proof (round_nearest_even_bounds (shr_m mrs1) (loc_of_shr_record mrs1))
    as Hr. fold m2 in Hr.
  assert (HfW : fexp prec emax W <= W) by (unfold fexp; lia).
  assert (Hm2 : m2 < 2 ^ (W + 1 - e1)).
  { replace (W + 1 - e1) with (1 + (W - e1)) by lia.
    rewrite pow2_split, Z.pow_1_r by lia.
    pose proof (pow2_pos (W - e1) ltac:(lia)).
    destruct HW1 as [H0|Hlt]; lia. }
  pose proof (shr_fexp_range m2 e1 loc_Exact (W + 1) ltac:(lia)
                (or_intror Hm2)
                ltac:(pose proof (fexp_mono W (W + 1) ltac:(lia)); lia))
    as H2.
  cbv zeta in H2.
  destruct (shr_fexp prec emax m2 e1 loc_Exact) as [mrs2 e2].
  simpl fst in H2; simpl snd in H2.
  destruct H2 as (Hm3 & HW3 & He3).
  destruct (shr_m mrs2) as [|p|p]; [exact I | | lia].
  assert (Hle : e2 <= emax - prec) by (unfold fexp, emin in *; lia).
  destruct (Z.leb_spec e2 (emax - prec)); [|lia].
  split; [lia|]. split; [|lia].
  destruct HW3 as [H0|Hlt]; [discriminate H0 | exact Hlt].
Qed.

End RoundingRange.

(** ** Division by the clamp constant *)

(** The quotient of a finite colour by a positive finite divisor, in terms
    of their binary exponents: it is zero, or a binary32 value of at most
    [2 ^ W]. *)
Lemma Div_range sc mc ec mk ek :
  let W := Z.max (Z.pos (digits2_pos mc) + ec - (Z.pos (digits2_pos mk) + ek) + 1)
             (- 149) in
  W + 1 <= 128 ->
  match F32.Div (S754_finite sc mc ec) (S754_finite false mk ek) with
  | S754_zero _ => True
  | S754_finite _ m e =>
      Z.pos m < 2 ^ 24 /\ Z.pos m < 2 ^ (W + 1 - e) /\ - 149 <= e <= 104
  | _ => False
  end.
Proof.
  intros W HW. unfold F32.Div, SFdiv, SFdiv_core_binary.
  set (d1 := Zdigits2 (Z.pos mc)). set (d2 := Zdigits2 (Z.pos mk)).
  set (e' := Z.min (fexp F32.prec F32.emax (d1 + ec - (d2 + ek))) (ec - ek)).
  set (sh := ec - ek - e').
  set (m' := match sh with
             | 0 => Z.pos mc | Z.pos _ => Z.shiftl (Z.pos mc) sh | Z.neg _ => 0
             end).
  assert (Hsh : 0 <= sh) by (unfold sh, e'; lia).
  assert (Hm' : m' = Z.pos mc * 2 ^ sh).
  { unfold m'. destruct sh as [|p|p]; [simpl; lia | | lia].
    apply Z.shiftl_mul_pow2. lia. }
  pose proof (digits2_pos_upper mc) as Hu1.
  pose proof (digits2_pos_lower mk) as Hl2.
  change (Z.pos (digits2_pos mc)) with d1 in Hu1, W.
  change (Z.pos (digits2_pos mk)) with d2 in Hl2, W.
  assert (Hd1 : 0 < d1) by (unfold d1; simpl; lia).
  assert (Hd2 : 0 < d2) by (unfold d2; simpl; lia).
  pose proof (pow2_pos sh Hsh) as Hps.
  assert (Hq : 0 <= m' / Z.pos mk
               /\ (m' / Z.pos mk = 0 \/ m' / Z.pos mk < 2 ^ (W - e'))).
  { split; [apply Z.div_pos; lia|].
    assert (Hlt : m' < 2 ^ (d1 + sh)).
    { rewrite Hm', pow2_split by lia. apply Z.mul_lt_mono_pos_r; lia. }
    destruct (Z.le_gt_cases (d2 - 1) (d1 + sh)) as [Hge|Hsmall].
    - right. apply Z.div_lt_upper_bound; [lia|].
      eapply Z.lt_le_trans; [exact Hlt|].
      replace (d1 + sh) with ((d2 - 1) + (d1 + sh - (d2 - 1))) by lia.
      rewrite pow2_split by lia.
      pose proof (pow2_pos (d2 - 1) ltac:(lia)).
      pose proof (pow2_pos (d1 + sh - (d2 - 1)) ltac:(lia)).
      assert (2 ^ (d1 + sh - (d2 - 1)) <= 2 ^ (W - e'))
        by (apply Z.pow_le_mono_r; [lia|]; unfold W, sh; lia).
      apply Z.mul_le_mono_nonneg; lia.
    - left. apply Z.div_small. split; [lia|].
      eapply Z.lt_le_trans; [exact Hlt|].
      eapply Z.le_trans; [|exact Hl2].
      apply Z.pow_le_mono_r; lia. }
  unfold Z.div in Hq.
  destruct (Z.div_eucl m' (Z.pos mk)) as [q r].
  destruct Hq as [Hq0 Hq].
  apply (binary_round_aux_range F32.prec F32.emax ltac:(reflexivity)
           ltac:(unfold F32.emax; lia) (xorb sc false) q e' _ W Hq0 Hq).
  - unfold e'. eapply Z.le_trans; [apply Z.le_min_l|].
    apply fexp_mono. unfold W. lia.
  - unfold W. change (emin F32.prec F32.emax) with (- 149). lia.
  - exact HW.
Qed.

Lemma Div_finite col mk ek :
  below_pow2 col (binary_exponent (S754_finite false mk ek) + 126) = true ->
  F32.is_finite (F32.Div col (S754_finite false mk ek)) = true.
Proof.
  destruct col as [s|s| |s m e]; try discriminate; [reflexivity|].
  unfold below_pow2, binary_exponent. rewrite Z.leb_le. intros H.
  pose proof (Div_range s m e mk ek) as Hr. cbv zeta in Hr.
  destruct (F32.Div (S754_finite s m e) (S754_finite false mk ek));
    try reflexivity; exfalso; apply Hr; lia.
Qed.

Lemma Div_not_finite col mk ek :
  F32.is_finite col = false ->
  F32.is_finite (F32.Div col (S754_finite false mk ek)) = false.
Proof. destruct col; try discriminate; reflexivity. Qed.

(** ** Conversion to float16 *)

Lemma iter_xO m d : Z.pos (Pos.iter xO m d) = Z.pos m * 2 ^ Z.pos d.
Proof.
  induction d as [|d IH] using Pos.peano_ind.
  - change (Pos.iter xO m 1) with (m~0)%positive.
    rewrite Pos2Z.inj_xO, Z.pow_1_r. lia.
  - rewrite Pos.iter_succ, Pos2Z.inj_xO, IH, Pos2Z.inj_succ.
    rewrite Z.pow_succ_r by lia. lia.
Qed.

(** A value below [2 ^ 15] is converted to a finite float16. *)
Lemma to_f16_range s m e D :
  Z.pos m < 2 ^ (D - e) -> D <= 15 ->
  match F32.to_f16 (S754_finite s m e) with
  | S754_zero _ => True
  | S754_finite _ m' e' => Z.pos m' < 2 ^ 11 /\ - 24 <= e' <= 5
  | _ => False
  end.
Proof.
  intros Hm HD.
  pose proof (below_neg_pow (Z.pos m) (D - e) ltac:(lia) Hm) as HDe.
  assert (Hd : Z.pos (digits2_pos m) + e <= D).
  { pose proof (digits2_pos_le m (D - e) HDe Hm). lia. }
  set (W := Z.max D (- 24)).
  assert (Hgoal : forall sx,
            match binary_round 11 16 sx m e with
            | S754_zero _ => True
            | S754_finite _ m' e' => Z.pos m' < 2 ^ 11 /\ - 24 <= e' <= 5
            | _ => False
            end).
  { intros sx. unfold binary_round, shl_align.
    set (e0 := fexp 11 16 (Z.pos (digits2_pos m) + e)).
    assert (He0 : e0 <= fexp 11 16 W)
      by (apply fexp_mono; unfold W; lia).
    assert (Hr : forall mz ez,
              Z.pos mz < 2 ^ (W - ez) -> ez <= fexp 11 16 W ->
              match binary_round_aux 11 16 sx (Z.pos mz) ez loc_Exact with
              | S754_zero _ => True
              | S754_finite _ m' e' => Z.pos m' < 2 ^ 11 /\ - 24 <= e' <= 5
              | _ => False
              end).
    { intros mz ez Hmz Hez.
      pose proof (binary_round_aux_range 11 16 ltac:(lia) ltac:(lia) sx
                    (Z.pos mz) ez loc_Exact W ltac:(lia) (or_intror Hmz) Hez
                    ltac:(unfold W; change (emin 11 16) with (- 24); lia)
                    ltac:(unfold W; lia)) as H.
      destruct (binary_round_aux 11 16 sx (Z.pos mz) ez loc_Exact);
        try exact H.
      change (emin 11 16) with (- 24) in H. change (16 - 11) with 5 in H.
      tauto. }
    assert (HmW : Z.pos m < 2 ^ (W - e)).
    { eapply Z.lt_le_trans; [exact Hm|].
      apply Z.pow_le_mono_r; unfold W; lia. }
    destruct (e0 - e) as [|p|p] eqn:Hp.
    - apply Hr; [exact HmW | lia].
    - apply Hr; [exact HmW | lia].
    - apply Hr; [|exact He0].
      rewrite iter_xO.
      replace (W - e0) with ((W - e) + Z.pos p) by lia.
      rewrite pow2_split by (unfold W; lia).
      apply Z.mul_lt_mono_pos_r; [apply pow2_pos; lia | exact HmW]. }
  unfold F32.to_f16, binary_normalize. destruct s; apply Hgoal.
Qed.

(** The float16 bit patterns of finite values: the exponent field is not
    31 (all ones). *)
Lemma f16_bits_finite h :
  match h with
  | S754_zero _ => True
  | S754_finite _ m e => Z.pos m < 2 ^ 11 /\ - 24 <= e <= 5
  | _ => False
  end ->
  F32.f16_bits h mod 2 ^ 15 < 31744.
Proof.
  assert (Hsb : forall (s : bool) r,
            0 <= r < 31744 -> ((if s then 2 ^ 15 else 0) + r) mod 2 ^ 15 < 31744).
  { intros s r Hr. destruct s.
    - replace (2 ^ 15 + r) with (r + 1 * 2 ^ 15) by lia.
      rewrite Z.mod_add, Z.mod_small by lia. lia.
    - rewrite Z.add_0_l, Z.mod_small by lia. lia. }
  destruct h as [s|s| |s m e]; simpl; try tauto.
  - intros _. destruct s; reflexivity.
  - intros (Hm & He).
    change (2 ^ 11) with 2048 in Hm.
    apply (Hsb s). change (2 ^ 10) with 1024.
    destruct (Z.ltb_spec (Z.pos m) 1024); lia.
Qed.

Lemma DemoteToF16Bits_finite col mk ek :
  below_pow2 col (binary_exponent (S754_finite false mk ek) + 13) = true ->
  F32.DemoteToF16Bits (F32.Div col (S754_finite false mk ek)) mod 2 ^ 15
  < 31744.
Proof.
  destruct col as [s|s| |s m e]; try discriminate.
  - intros _. destruct s; reflexivity.
  - unfold below_pow2, binary_exponent. rewrite Z.leb_le. intros H.
    pose proof (Div_range s m e mk ek) as Hr. cbv zeta in Hr.
    set (W := Z.max (Z.pos (digits2_pos m) + e
                     - (Z.pos (digits2_pos mk) + ek) + 1) (- 149)) in *.
    assert (HW : W <= 14) by (unfold W; lia).
    specialize (Hr ltac:(lia)).
    unfold F32.DemoteToF16Bits. apply f16_bits_finite.
    destruct (F32.Div (S754_finite s m e) (S754_finite false mk ek))
      as [s'|s'| |s' m' e']; try exact Hr.
    destruct Hr as (_ & Hm' & _).
    apply (to_f16_range s' m' e' (W + 1)); [exact Hm' | lia].
Qed.

(** ** Alpha exactly zero *)

(** C7, as the model has it.  With unpremultiplication applied (an alpha
    plane that is delivered, so [num_channels] 2 or 4) and a positive finite
    clamp constant, a pixel whose alpha is exactly 0 has each colour sample
    divided by the clamp constant instead of by 0, and the quotient is
    converted to the output type.  The quotient is not NaN unless the
    colour is NaN, it is 0 when the colour is 0, and it is finite whenever
    the colour is finite and below [2 ^ (E + 126)], [E] the binary exponent
    of the clamp constant; it is not finite when the colour is NaN or
    infinite.  For uint8 and uint16 output the delivered value is an integer
    of that type for every colour.  For float16 output the delivered bit
    pattern is that of a finite value (exponent field below 31) whenever
    the colour is below [2 ^ (E + 13)]. *)
Theorem C7_zero_alpha_division mk ek s input_rows xextra xsize xpos ypos
    thread_id st :
  wf_stage s -> row_args_ok s xextra xsize xpos ypos ->
  CB.has_alpha_ s = true -> CB.want_alpha_ s = true ->
  CB.unpremul_alpha_ s = true ->
  let k := S754_finite false mk ek in
  exists new,
    CB.events (CB.ProcessRow k s input_rows xextra xsize xpos ypos thread_id st)
    = CB.events st ++ new
    /\ forall x px c,
         (x, px) ∈ delivered_pixels s new ->
         is_zero (input_rows (CB.alpha_c_ s) (x - xpos)) = true ->
         0 <= c < CB.num_color_ s ->
         let col := input_rows c (x - xpos) in
         let q := F32.Div col k in
         px !! Z.to_nat c = Some (narrow s q)
         /\ (F32.is_nan col = false -> F32.is_nan q = false)
         /\ (is_zero col = true -> is_zero q = true)
         /\ (below_pow2 col (binary_exponent k + 126) = true ->
             F32.is_finite q = true)
         /\ (F32.is_finite col = false -> F32.is_finite q = false)
         /\ match CB.data_type_ s with
            | JXL_TYPE_UINT8 =>
                exists u, narrow s q = SampleU8 u /\ 0 <= u <= 255
            | JXL_TYPE_UINT16 =>
                exists u,
                  narrow s q
                  = SampleU16 (if CB.swap_endianness_ s then JXL_BSWAP16 u
                               else u)
                  /\ 0 <= u <= 65535
            | JXL_TYPE_FLOAT =>
                narrow s q
                = SampleF32 (if CB.swap_endianness_ s then F32.BSwapFloat q
                             else q)
            | JXL_TYPE_FLOAT16 =>
                let u := F32.DemoteToF16Bits q in
                narrow s q
                = SampleU16 (if CB.swap_endianness_ s then JXL_BSWAP16 u
                             else u)
                /\ (below_pow2 col (binary_exponent k + 13) = true ->
                    u mod 2 ^ 15 < 31744)
            end.
Proof.
  intros Hwf Hargs Ha Hwa Hun k.
  pose proof Hwf as (Hnc & Hncol & Hle & Hwant). specialize (Hwant Hwa).
  pose proof Hargs as (Hxe & Hxp & Hw & Hxs & Hsum & Hy & Hh).
  assert (HT : 0 <= row_limit s xextra xsize xpos + xextra)
    by (unfold row_limit; lia).
  eexists. split.
  { rewrite CB_ProcessRow_spec by assumption. reflexivity. }
  intros x px c Hin Hz Hc col q.
  apply delivered_pixel_inv in Hin; [|lia | exact HT]. subst px.
  rewrite out_pixel_lookup by lia.
  assert (Hq : unpremultiplied k s input_rows c (x - xpos) = q).
  { unfold unpremultiplied, chan. rewrite Ha, Hwa, Hun. simpl.
    destruct (Z.ltb_spec c (CB.num_color_ s)); [|lia].
    rewrite Z.ltb_irrefl. unfold k.
    rewrite std_max_zero_alpha by exact Hz. reflexivity. }
  rewrite Hq.
  split; [reflexivity|].
  split; [apply Div_positive_not_nan|].
  split; [apply Div_zero|].
  split; [apply Div_finite|].
  split; [apply Div_not_finite|].
  unfold narrow. destruct (CB.data_type_ s).
  - reflexivity.
  - eexists. split; [reflexivity|]. unfold F32.DemoteToU8. lia.
  - eexists. split; [reflexivity|]. unfold F32.DemoteToU16. lia.
  - cbv zeta. split; [reflexivity|]. apply DemoteToF16Bits_finite.
Qed.

Lemma C7_zero_alpha_division_witness :
  exists new,
    CB.events
      (CB.ProcessRow k26 cb_ga_unpremul (zero_alpha_rows f_half) 0 1 0 0 0
         CB.initial)
    = CB.events CB.initial ++ new
    /\ forall x px,
         (x, px) ∈ delivered_pixels cb_ga_unpremul new ->
         px !! 0%nat = Some (SampleF32 (F32.Div f_half k26))
         /\ F32.is_finite (F32.Div f_half k26) = true.
Proof.
  destruct (C7_zero_alpha_division 8388608 (-49) cb_ga_unpremul
              (zero_alpha_rows f_half) 0 1 0 0 0 CB.initial)
    as (new & H1 & H2).
  - apply constructor_wf. lia.
  - unfold row_args_ok. simpl. lia.
  - reflexivity.
  - reflexivity.
  - reflexivity.
  - exists new. split; [exact H1|].
    intros x px Hin.
    destruct (H2 x px 0 Hin) as (H & _ & _ & Hf & _).
    + reflexivity.
    + simpl. lia.
    + split; [exact H|]. apply Hf. reflexivity.
Defined.

(** C7 as it was stated fails: with alpha exactly 0, a NaN colour is
    delivered as NaN (for every clamp constant), the largest finite
    colour is delivered as +infinity (clamp constant 2^-26), and for
    float16 output the colour 0.5 is delivered as the bit pattern
    [0x7c00] of +infinity. *)
Lemma C7_counterexample :
  (forall k,
     CB.events
       (CB.ProcessRow k cb_ga_unpremul (zero_alpha_rows S754_nan) 0 1 0 0 0
          CB.initial)
     = [EvRun 0 0 0 0 1 [SampleF32 S754_nan; SampleF32 F32.zero]])
  /\ CB.events
       (CB.ProcessRow k26 cb_ga_unpremul (zero_alpha_rows f_max) 0 1 0 0 0
          CB.initial)
     = [EvRun 0 0 0 0 1 [SampleF32 (S754_infinity false); SampleF32 F32.zero]]
  /\ ~ finite_at_zero_alpha cb_ga_unpremul (zero_alpha_rows S754_nan) 0
         (CB.events
            (CB.ProcessRow k26 cb_ga_unpremul (zero_alpha_rows S754_nan)
               0 1 0 0 0 CB.initial))
  /\ ~ finite_at_zero_alpha cb_ga_unpremul (zero_alpha_rows f_max) 0
         (CB.events
            (CB.ProcessRow k26 cb_ga_unpremul (zero_alpha_rows f_max)
               0 1 0 0 0 CB.initial))
  /\ CB.events
       (CB.ProcessRow k26 cb_ga_unpremul_f16 (zero_alpha_rows f_half)
          0 1 0 0 0 CB.initial)
     = [EvRun 0 0 0 0 1 [SampleU16 0x7c00; SampleU16 0]].
Proof.
  assert (Hnan : forall k,
            CB.events
              (CB.ProcessRow k cb_ga_unpremul (zero_alpha_rows S754_nan)
                 0 1 0 0 0 CB.initial)
            = [EvRun 0 0 0 0 1 [SampleF32 S754_nan; SampleF32 F32.zero]]).
  { intros k. reflexivity. }
  assert (Hmax : CB.events
                   (CB.ProcessRow k26 cb_ga_unpremul (zero_alpha_rows f_max)
                      0 1 0 0 0 CB.initial)
                 = [EvRun 0 0 0 0 1
                      [SampleF32 (S754_infinity false); SampleF32 F32.zero]])
    by (vm_compute; reflexivity).
  split; [exact Hnan|]. split; [exact Hmax|]. split; [|split].
  - rewrite Hnan. intros H.
    destruct (H 0 [SampleF32 S754_nan; SampleF32 F32.zero] 0) as (v & Hv & Hf).
    + vm_compute. left.
    + reflexivity.
    + simpl. lia.
    + injection Hv as <-. discriminate Hf.
  - rewrite Hmax. intros H.
    destruct (H 0 [SampleF32 (S754_infinity false); SampleF32 F32.zero] 0)
      as (v & Hv & Hf).
    + vm_compute. left.
    + reflexivity.
    + simpl. lia.
    + injection Hv as <-. discriminate Hf.
  - vm_compute. reflexivity.
Qed.

(** ** Sanity checks of the arithmetic model *)

(** The portable [StoreRGBA] is the generic one for a single lane. *)
Lemma StoreRGBA_scalar_generic r g b a alpha n extra buf m x :
  U8.StoreRGBA_scalar r g b a alpha n extra buf m x
  = U8.StoreRGBA r g b a alpha 1 extra buf m x.
Proof.
  unfold U8.StoreRGBA_scalar, U8.StoreRGBA, for_n. simpl.
  destruct alpha; cbv zeta; unfold store;
    repeat match goal with
           | |- context [Z.eqb ?u ?v] => destruct (Z.eqb_spec u v)
           end; try reflexivity; exfalso; lia.
Qed.

Example of_Z_255 : F32.of_Z 255 = S754_finite false 16711680 (-16).
Proof. reflexivity. Qed.

Example to_u8_samples :
  to_u8 F32.zero = 0 /\ to_u8 f_half = 128 /\ to_u8 F32.one = 255
  /\ to_u8 f_quarter = 64 /\ to_u8 S754_nan = 0
  /\ to_u8 (F32.of_Z 7) = 255 /\ to_u8 (F32.of_Z (-7)) = 0.
Proof. repeat split; reflexivity. Qed.

Example bits_one :
  F32.to_bits F32.one = 0x3f800000 /\ F32.of_bits 0x3f800000 = F32.one.
Proof. split; reflexivity. Qed.

Example f16_one : F32.DemoteToF16Bits F32.one = 0x3c00.
Proof. reflexivity. Qed.

(** * Further properties *)

(** ** [StoreRGBA] on every target *)

Lemma div_mod_range x mul n :
  0 < mul -> 0 <= x < mul * n -> 0 <= x mod mul < mul /\ 0 <= x / mul < n.
Proof.
  intros Hmul Hx. split; [apply Z.mod_pos_bound; lia|].
  split; [apply Z.div_pos; lia | apply Z.div_lt_upper_bound; lia].
Qed.

Lemma generic_store_ok Lanes : store_ok Lanes U8.StoreRGBA.
Proof.
  intros r g b a alpha n extra buf m x Hn He mul. unfold mul.
  rewrite StoreRGBA_spec. cbv zeta.
  assert (Hm : 3 <= (if alpha then 4 else 3) <= 4) by (destruct alpha; lia).
  split; intros Hx.
  - destruct (Z.leb_spec buf x), (Z.ltb_spec x (buf + (if alpha then 4 else 3) * n));
      simpl; try reflexivity; lia.
  - destruct (Z.leb_spec buf x), (Z.ltb_spec x (buf + (if alpha then 4 else 3) * n));
      simpl; try reflexivity; nia.
Qed.

Lemma scalar_store_ok : store_ok 1 U8.StoreRGBA_scalar.
Proof.
  intros r g b a alpha n extra buf m x Hn He mul. unfold mul.
  assert (n = 1) as -> by lia.
  rewrite StoreRGBA_scalar_generic.
  apply (generic_store_ok 1); lia.
Qed.

Lemma neon_store_ok : store_ok 4 U8Target.StoreRGBA_neon.
Proof.
  intros r g b a alpha n extra buf m x Hn He mul. unfold mul.
  unfold U8Target.StoreRGBA_neon.
  destruct alpha.
  - destruct (Z.leb_spec 8 extra).
    + unfold U8Target.vst4_u8. split; intros Hx.
      * destruct (Z.leb_spec buf x), (Z.ltb_spec x (buf + 4 * 8)); simpl;
          try reflexivity; lia.
      * destruct (Z.leb_spec buf x), (Z.ltb_spec x (buf + 4 * 8)); simpl;
          try reflexivity; lia.
    + cbv zeta. rewrite memcpy_spec. unfold U8Target.vst4_u8. split; intros Hx.
      * destruct (Z.leb_spec buf x), (Z.ltb_spec x (buf + n * 4)); simpl; try lia.
        destruct (Z.leb_spec 0 (x - buf)), (Z.ltb_spec (x - buf) (0 + 4 * 8));
          simpl; try lia.
        rewrite Z.sub_0_r. reflexivity.
      * destruct (Z.leb_spec buf x), (Z.ltb_spec x (buf + n * 4)); simpl;
          try reflexivity; lia.
  - destruct (Z.leb_spec 8 extra).
    + unfold U8Target.vst3_u8. split; intros Hx.
      * destruct (Z.leb_spec buf x), (Z.ltb_spec x (buf + 3 * 8)); simpl;
          try lia.
        destruct (div_mod_range (x - buf) 3 n ltac:(lia) ltac:(lia)) as [Hk _].
        unfold lane_byte.
        destruct (Z.eqb_spec ((x - buf) mod 3) 0); [reflexivity|].
        destruct (Z.eqb_spec ((x - buf) mod 3) 1); [reflexivity|].
        destruct (Z.eqb_spec ((x - buf) mod 3) 2); [reflexivity|]. lia.
      * destruct (Z.leb_spec buf x), (Z.ltb_spec x (buf + 3 * 8)); simpl;
          try reflexivity; lia.
    + cbv zeta. rewrite memcpy_spec. unfold U8Target.vst3_u8. split; intros Hx.
      * destruct (Z.leb_spec buf x), (Z.ltb_spec x (buf + n * 3)); simpl; try lia.
        destruct (Z.leb_spec 0 (x - buf)), (Z.ltb_spec (x - buf) (0 + 3 * 8));
          simpl; try lia.
        rewrite Z.sub_0_r.
        destruct (div_mod_range (x - buf) 3 n ltac:(lia) ltac:(lia)) as [Hk _].
        unfold lane_byte.
        destruct (Z.eqb_spec ((x - buf) mod 3) 0); [reflexivity|].
        destruct (Z.eqb_spec ((x - buf) mod 3) 1); [reflexivity|].
        destruct (Z.eqb_spec ((x - buf) mod 3) 2); [reflexivity|]. lia.
      * destruct (Z.leb_spec buf x), (Z.ltb_spec x (buf + n * 3)); simpl;
          try reflexivity; lia.
Qed.

Lemma Target_row_step_spec Lanes Store pad s input_rows xextra xsize xpos ypos
    x rgb :
  store_ok Lanes Store -> 0 < Lanes -> 0 <= x < xsize -> xsize < 2 ^ 64 ->
  let m' :=
    U8Target.row_step Lanes Store pad s (GetInputRow input_rows 0)
      (GetInputRow input_rows 1) (GetInputRow input_rows 2)
      (if U8.has_alpha_ s then Some (GetInputRow input_rows (U8.alpha_c_ s))
       else None)
      (bytes_per_pixel s) (base_ptr s xextra xpos ypos) xsize x rgb in
  let buf := base_ptr s xextra xpos ypos + bytes_per_pixel s * x in
  (forall a, buf <= a < buf + bytes_per_pixel s * Z.min Lanes (xsize - x) ->
     m' a = pixel_byte s input_rows ((a - buf) mod bytes_per_pixel s)
              (x + (a - buf) / bytes_per_pixel s))
  /\ (forall a, a < buf \/ buf + bytes_per_pixel s * (xsize - x) <= a ->
        m' a = rgb a).
Proof.
  intros Hok HL Hx Hxs m' buf. unfold m', U8Target.row_step. cbv zeta.
  assert (Hn : wrap (xsize - x) = xsize - x).
  { unfold wrap. apply Z.mod_small. lia. }
  rewrite Hn. fold buf.
  assert (Hbpp : bytes_per_pixel s = if U8.rgba_ s then 4 else 3) by reflexivity.
  assert (Hb34 : 3 <= bytes_per_pixel s <= 4)
    by (rewrite Hbpp; destruct (U8.rgba_ s); lia).
  set (cnt := Z.min Lanes (xsize - x)).
  match goal with
  | |- (forall a, _ -> (if _ then Store ?r ?g ?b ?al ?rg _ ?e ?bf ?m
                        else Store _ _ _ _ _ _ ?e ?bf ?m) a = _) /\ _ =>
      assert (Hcnt : (if Lanes <=? xsize - x then Store r g b al rg Lanes e bf m
                      else Store r g b al rg e e bf m)
                     = Store r g b al rg cnt e bf m)
        by (unfold cnt; destruct (Z.leb_spec Lanes (xsize - x));
            [rewrite Z.min_l by lia | rewrite Z.min_r by lia]; reflexivity);
      rewrite Hcnt; clear Hcnt;
      pose proof (fun a => Hok r g b al rg cnt e bf m a
                             ltac:(unfold cnt; lia) ltac:(unfold cnt; lia))
        as Hst
  end.
  cbv zeta in Hst. rewrite <- Hbpp in Hst.
  split; intros a Ha.
  - destruct (Hst a) as [H1 _]. rewrite H1 by exact Ha.
    destruct (div_mod_range (a - buf) (bytes_per_pixel s) cnt ltac:(lia)
                ltac:(lia)) as [Hk Hi].
    unfold lane_byte, pixel_byte, U8Target.reg.
    destruct (Z.ltb_spec ((a - buf) / bytes_per_pixel s) Lanes);
      [|unfold cnt in Hi; lia].
    repeat match goal with
           | |- context [Z.eqb ?u ?v] => destruct (Z.eqb_spec u v)
           end; try reflexivity.
    destruct (U8.has_alpha_ s); reflexivity.
  - destruct (Hst a) as [_ H2]. apply H2. exact Ha.
Qed.

Lemma Target_ProcessRow_spec Lanes Store pad s input_rows xextra xsize xpos
    ypos thread_id rgb a :
  store_ok Lanes Store -> 0 < Lanes -> 0 <= xsize < 2 ^ 64 ->
  ypos < U8.height_ s ->
  U8Target.ProcessRow Lanes Store pad s input_rows xextra xsize xpos ypos
    thread_id rgb a =
  let base := base_ptr s xextra xpos ypos in
  if (base <=? a) && (a <? base + bytes_per_pixel s * xsize)
  then pixel_byte s input_rows ((a - base) mod bytes_per_pixel s)
         ((a - base) / bytes_per_pixel s)
  else rgb a.
Proof.
  intros Hok HL Hxs Hy. unfold U8Target.ProcessRow.
  destruct (Z.leb_spec (U8.height_ s) ypos) as [?|_]; [lia|].
  cbv zeta. fold (bytes_per_pixel s). fold (base_ptr s xextra xpos ypos).
  set (base := base_ptr s xextra xpos ypos).
  set (bpp := bytes_per_pixel s).
  assert (Hbpp : bpp = 3 \/ bpp = 4).
  { unfold bpp, bytes_per_pixel. destruct (U8.rgba_ s); auto. }
  destruct (RoundUpTo_bounds xsize Lanes HL ltac:(lia)) as (Hr1 & Hr2 & Hr3).
  match goal with
  | |- snd (loop ?fuel ?c ?st ?body 0 rgb) a = _ =>
      destruct (loop_rule
        (fun x m => 0 <= x /\ x mod Lanes = 0 /\
           (forall a, base <= a < base + bpp * Z.min x xsize ->
              m a = pixel_byte s input_rows ((a - base) mod bpp)
                      ((a - base) / bpp))
           /\ (forall a, a < base \/ base + bpp * xsize <= a -> m a = rgb a))
        fuel (RoundUpTo xsize Lanes) Lanes body 0 rgb)
        as (Hend & Hx0 & Hxm & Hin & Hout)
  end.
  - exact HL.
  - unfold RoundUpTo in *. lia.
  - split; [lia|]. split; [apply Z.mod_0_l; lia|]. split.
    + intros a' Ha'. rewrite Z.min_l in Ha' by lia. lia.
    + reflexivity.
  - intros x m Hlt (Hx0 & Hxm & Hin & Hout).
    assert (Hxlt : x < xsize).
    { unfold RoundUpTo in *.
      pose proof (Z.div_mod x Lanes ltac:(lia)) as Hd. rewrite Hxm in Hd.
      assert (x / Lanes < DivCeil xsize Lanes) by nia.
      nia. }
    split; [lia|]. split.
    { rewrite <- (Z.mul_1_l Lanes) at 1. rewrite Z.mod_add by lia. exact Hxm. }
    destruct (Target_row_step_spec Lanes Store pad s input_rows xextra xsize
                xpos ypos x m Hok HL ltac:(lia) ltac:(lia)) as [Hs1 Hs2].
    cbv zeta in Hs1, Hs2. fold base in Hs1, Hs2. fold bpp in Hs1, Hs2.
    split.
    + intros a' Ha'.
      destruct (Z.lt_ge_cases a' (base + bpp * x)) as [Hlo|Hhi].
      * rewrite Hs2 by lia. apply Hin. lia.
      * rewrite Hs1 by lia.
        replace (a' - (base + bpp * x)) with (a' - base + (- x) * bpp) by lia.
        rewrite Z.mod_add by lia. rewrite Z.div_add by lia.
        f_equal. lia.
    + intros a' Ha'. rewrite Hs2 by nia. apply Hout. exact Ha'.
  - cbv zeta.
    destruct (Z.leb_spec base a), (Z.ltb_spec a (base + bpp * xsize)); simpl.
    + apply Hin. lia.
    + apply Hout. lia.
    + apply Hout. lia.
    + apply Hout. lia.
Qed.

(** ** The targets of [StoreRGBA] *)

Lemma U8_skip Lanes s input_rows xextra xsize xpos ypos thread_id rgb :
  U8.height_ s <= ypos ->
  U8.ProcessRow Lanes s input_rows xextra xsize xpos ypos thread_id rgb = rgb.
Proof.
  intros H. unfold U8.ProcessRow.
  destruct (Z.leb_spec (U8.height_ s) ypos); [reflexivity | lia].
Qed.

Lemma Target_skip Lanes Store pad s input_rows xextra xsize xpos ypos
    thread_id rgb :
  U8.height_ s <= ypos ->
  U8Target.ProcessRow Lanes Store pad s input_rows xextra xsize xpos ypos
    thread_id rgb = rgb.
Proof.
  intros H. unfold U8Target.ProcessRow.
  destruct (Z.leb_spec (U8.height_ s) ypos); [reflexivity | lia].
Qed.

(** With the generic [StoreRGBA] the stage of [U8Target] is the stage of
    [U8]. *)
Lemma Target_generic Lanes pad s input_rows xextra xsize xpos ypos thread_id
    rgb a :
  0 < Lanes -> 0 <= xsize < 2 ^ 64 ->
  U8Target.ProcessRow Lanes U8.StoreRGBA pad s input_rows xextra xsize xpos
    ypos thread_id rgb a
  = U8.ProcessRow Lanes s input_rows xextra xsize xpos ypos thread_id rgb a.
Proof.
  intros HL Hxs.
  destruct (Z.le_gt_cases (U8.height_ s) ypos) as [Hy|Hy].
  - rewrite Target_skip, U8_skip by exact Hy. reflexivity.
  - rewrite Target_ProcessRow_spec, U8_ProcessRow_spec
      by (assumption || lia || apply generic_store_ok). reflexivity.
Qed.

(** X1.  On the NEON target [StoreRGBA] stores all 8 lanes of the byte
    registers when at least 8 pixels are left in the row, and copies the
    [n] pixels asked for through a temporary otherwise.  Whatever the four
    lanes beyond the stage's own hold, a row call leaves the buffer as the
    generic target does: every pixel of the row holds its converted bytes
    and no byte outside the [bytes * xsize] bytes of the row is changed. *)
Theorem X1_neon_store pad s input_rows xextra xsize xpos ypos thread_id rgb a :
  0 <= xsize < 2 ^ 64 ->
  let m := U8Target.ProcessRow 4 U8Target.StoreRGBA_neon pad s input_rows
             xextra xsize xpos ypos thread_id rgb in
  m a = U8.ProcessRow 4 s input_rows xextra xsize xpos ypos thread_id rgb a
  /\ (ypos < U8.height_ s ->
      let base := base_ptr s xextra xpos ypos in
      m a = if (base <=? a) && (a <? base + bytes_per_pixel s * xsize)
            then pixel_byte s input_rows ((a - base) mod bytes_per_pixel s)
                   ((a - base) / bytes_per_pixel s)
            else rgb a).
Proof.
  intros Hxs m. unfold m. split.
  - destruct (Z.le_gt_cases (U8.height_ s) ypos) as [Hy|Hy].
    + rewrite Target_skip, U8_skip by exact Hy. reflexivity.
    + rewrite Target_ProcessRow_spec, U8_ProcessRow_spec
        by (assumption || lia || apply neon_store_ok). reflexivity.
  - intros Hy. apply Target_ProcessRow_spec; (assumption || lia || idtac).
    apply neon_store_ok.
Qed.

Lemma X1_neon_store_witness :
  U8Target.ProcessRow 4 U8Target.StoreRGBA_neon pad99 u8_rgba_h2 ramp_rows
    0 9 0 0 0 (fun _ => 7) 21
  = U8.ProcessRow 4 u8_rgba_h2 ramp_rows 0 9 0 0 0 (fun _ => 7) 21.
Proof.
  destruct (X1_neon_store pad99 u8_rgba_h2 ramp_rows 0 9 0 0 0 (fun _ => 7) 21)
    as [H _].
  - lia.
  - exact H.
Defined.

(** X2.  The portable target, whose [StoreRGBA] stores one pixel, and the
    generic target at any number of lanes leave the same bytes in the
    buffer after a row call: the result does not depend on the vector
    width, nor on how the tail of a row shorter than a vector is stored. *)
Theorem X2_targets_agree Lanes Lanes' pad s input_rows xextra xsize xpos ypos
    thread_id rgb a :
  0 < Lanes -> 0 < Lanes' -> 0 <= xsize < 2 ^ 64 ->
  U8Target.ProcessRow 1 U8.StoreRGBA_scalar pad s input_rows xextra xsize xpos
    ypos thread_id rgb a
  = U8.ProcessRow Lanes s input_rows xextra xsize xpos ypos thread_id rgb a
  /\ U8.ProcessRow Lanes' s input_rows xextra xsize xpos ypos thread_id rgb a
     = U8.ProcessRow Lanes s input_rows xextra xsize xpos ypos thread_id rgb a.
Proof.
  intros HL HL' Hxs.
  destruct (Z.le_gt_cases (U8.height_ s) ypos) as [Hy|Hy].
  - rewrite Target_skip, !U8_skip by exact Hy. split; reflexivity.
  - rewrite Target_ProcessRow_spec, !U8_ProcessRow_spec
      by (assumption || lia || apply scalar_store_ok). split; reflexivity.
Qed.

Lemma X2_targets_agree_witness :
  U8Target.ProcessRow 1 U8.StoreRGBA_scalar pad99 u8_rgba_h2 ramp_rows
    0 3 0 0 0 (fun _ => 7) 9
  = U8.ProcessRow 4 u8_rgba_h2 ramp_rows 0 3 0 0 0 (fun _ => 7) 9.
Proof.
  destruct (X2_targets_agree 4 2 pad99 u8_rgba_h2 ramp_rows 0 3 0 0 0
              (fun _ => 7) 9) as [H _].
  - lia.
  - lia.
  - lia.
  - exact H.
Defined.

(** ** What the raw buffer sink reads *)

(** X3.  A row call of the raw buffer sink depends on the input samples at
    the positions [0 <= x < xsize] of the channels for which
    [GetChannelMode] answers [kInput], and on nothing else: the samples the
    last vector loads beyond [xsize] and the channels it ignores have no
    influence on the buffer. *)
Theorem X3_u8_reads Lanes s (input_rows input_rows' : RowInfo) xextra xsize
    xpos ypos thread_id rgb a :
  0 < Lanes -> 0 <= xsize < 2 ^ 64 ->
  (forall c x, U8.GetChannelMode s c = true -> 0 <= x < xsize ->
     input_rows' c x = input_rows c x) ->
  U8.ProcessRow Lanes s input_rows' xextra xsize xpos ypos thread_id rgb a
  = U8.ProcessRow Lanes s input_rows xextra xsize xpos ypos thread_id rgb a.
Proof.
  intros HL Hxs Hagree.
  destruct (Z.le_gt_cases (U8.height_ s) ypos) as [Hy|Hy].
  - rewrite !U8_skip by exact Hy. reflexivity.
  - rewrite !U8_ProcessRow_spec by (assumption || lia). cbv zeta.
    set (base := base_ptr s xextra xpos ypos).
    assert (Hb34 : 3 <= bytes_per_pixel s <= 4)
      by (unfold bytes_per_pixel; destruct (U8.rgba_ s); lia).
    destruct (Z.leb_spec base a), (Z.ltb_spec a (base + bytes_per_pixel s * xsize));
      simpl; try reflexivity.
    destruct (div_mod_range (a - base) (bytes_per_pixel s) xsize ltac:(lia)
                ltac:(lia)) as [Hk Hi].
    unfold pixel_byte.
    assert (Hc : forall c, c < 3 -> U8.GetChannelMode s c = true).
    { intros c Hc. unfold U8.GetChannelMode.
      destruct (Z.ltb_spec c 3); [reflexivity | lia]. }
    rewrite !(Hagree 0), !(Hagree 1), !(Hagree 2) by (auto; lia).
    destruct (U8.has_alpha_ s) eqn:Ha; [|reflexivity].
    rewrite (Hagree (U8.alpha_c_ s)); [reflexivity | | lia].
    unfold U8.GetChannelMode. rewrite Ha, Z.eqb_refl. apply orb_true_r.
Qed.

Lemma X3_u8_reads_witness :
  U8.ProcessRow 4 u8_rgba_h2
    (fun c x => if x <? 3 then ramp_rows c x else S754_nan) 0 3 0 0 0
    (fun _ => 7) 9
  = U8.ProcessRow 4 u8_rgba_h2 ramp_rows 0 3 0 0 0 (fun _ => 7) 9.
Proof.
  apply (X3_u8_reads 4 u8_rgba_h2 ramp_rows
           (fun c x => if x <? 3 then ramp_rows c x else S754_nan)).
  - lia.
  - lia.
  - intros c x _ Hx. destruct (Z.ltb_spec x 3); [reflexivity | lia].
Defined.

(** ** A whole image through the raw buffer sink *)

Lemma U8_drive_snoc Lanes s rows xsize ys y rgb :
  U8_drive Lanes s rows xsize (ys ++ [y]) rgb
  = U8.ProcessRow Lanes s (rows y) 0 xsize 0 y 0
      (U8_drive Lanes s rows xsize ys rgb).
Proof. unfold U8_drive. rewrite foldl_app. reflexivity. Qed.

Lemma U8_drive_image Lanes s rows xsize ys rgb a :
  0 < Lanes -> 0 <= xsize < 2 ^ 64 -> 0 < U8.stride_ s ->
  bytes_per_pixel s * xsize <= U8.stride_ s ->
  (forall y, y ∈ ys -> 0 <= y < U8.height_ s) ->
  U8_drive Lanes s rows xsize ys rgb a = u8_image s rows xsize ys rgb a.
Proof.
  intros HL Hxs Hst Hfit. revert a.
  induction ys as [|y ys IH] using rev_ind; intros a Hys.
  - unfold U8_drive, u8_image. simpl. reflexivity.
  - rewrite U8_drive_snoc.
    assert (Hy : 0 <= y < U8.height_ s)
      by (apply Hys, elem_of_app; right; apply list_elem_of_singleton; reflexivity).
    rewrite U8_ProcessRow_spec by lia. cbv zeta.
    unfold base_ptr. change (wrap (0 - 0)) with 0.
    rewrite Z.mul_0_r, Z.add_0_r.
    set (bpp := bytes_per_pixel s) in *. set (st := U8.stride_ s) in *.
    pose proof (Z.div_mod a st ltac:(lia)) as Hd.
    pose proof (Z.mod_pos_bound a st Hst) as Hm.
    destruct (Z.leb_spec (y * st) a) as [H1|H1];
      [destruct (Z.ltb_spec a (y * st + bpp * xsize)) as [H2|H2]|]; simpl.
    + assert (Hq : a / st = y) by nia.
      assert (Ho : a mod st = a - y * st) by lia.
      unfold u8_image. fold st. fold bpp. rewrite Hq, Ho.
      rewrite bool_decide_eq_true_2
        by (apply elem_of_app; right; apply list_elem_of_singleton; reflexivity).
      destruct (Z.ltb_spec (a - y * st) (bpp * xsize)); [reflexivity | lia].
    + rewrite IH by (intros y' Hy'; apply Hys, elem_of_app; left; exact Hy').
      unfold u8_image. fold st. fold bpp.
      destruct (Z.ltb_spec (a mod st) (bpp * xsize)) as [Ho|Ho];
        [|rewrite !andb_false_r; reflexivity].
      assert (Hne : a / st <> y) by nia.
      rewrite !andb_true_r.
      destruct (decide (a / st ∈ ys)) as [Hin|Hnin].
      * rewrite !bool_decide_eq_true_2;
          [reflexivity | apply elem_of_app; left; exact Hin | exact Hin].
      * rewrite !bool_decide_eq_false_2; [reflexivity | | exact Hnin].
        rewrite elem_of_app, list_elem_of_singleton. tauto.
    + rewrite IH by (intros y' Hy'; apply Hys, elem_of_app; left; exact Hy').
      unfold u8_image. fold st. fold bpp.
      destruct (Z.ltb_spec (a mod st) (bpp * xsize)) as [Ho|Ho];
        [|rewrite !andb_false_r; reflexivity].
      assert (Hne : a / st <> y) by nia.
      rewrite !andb_true_r.
      destruct (decide (a / st ∈ ys)) as [Hin|Hnin].
      * rewrite !bool_decide_eq_true_2;
          [reflexivity | apply elem_of_app; left; exact Hin | exact Hin].
      * rewrite !bool_decide_eq_false_2; [reflexivity | | exact Hnin].
        rewrite elem_of_app, list_elem_of_singleton. tauto.
Qed.

(** X4.  Rows of [xsize] pixels written through the raw buffer sink, in any
    order and any number of times each, assemble the image: when a row fits
    into the stride, the byte of component [k] of pixel [x] of every
    processed row [y] is at [y * stride + bytes * x + k] and holds the
    converted sample of that row; the padding bytes of the stride and the
    rows not processed keep their contents.  The buffer depends on the set
    of rows processed only. *)
Theorem X4_u8_image Lanes s rows xsize ys rgb a :
  0 < Lanes -> 0 <= xsize < 2 ^ 64 -> 0 < U8.stride_ s ->
  bytes_per_pixel s * xsize <= U8.stride_ s ->
  (forall y, y ∈ ys -> 0 <= y < U8.height_ s) ->
  U8_drive Lanes s rows xsize ys rgb a = u8_image s rows xsize ys rgb a
  /\ (forall y x k, y ∈ ys -> 0 <= x < xsize -> 0 <= k < bytes_per_pixel s ->
        U8_drive Lanes s rows xsize ys rgb
          (y * U8.stride_ s + bytes_per_pixel s * x + k)
        = pixel_byte s (rows y) k x)
  /\ (forall ys', (forall y, y ∈ ys' <-> y ∈ ys) ->
        U8_drive Lanes s rows xsize ys' rgb a
        = U8_drive Lanes s rows xsize ys rgb a).
Proof.
  intros HL Hxs Hst Hfit Hys. split; [|split].
  - apply U8_drive_image; assumption.
  - intros y x k Hy Hx Hk. rewrite U8_drive_image by assumption.
    unfold u8_image.
    set (bpp := bytes_per_pixel s) in *. set (st := U8.stride_ s) in *.
    assert (Ho : 0 <= bpp * x + k < st) by nia.
    replace (y * st + bpp * x + k) with (bpp * x + k + y * st) by lia.
    rewrite Z.div_add, Z.mod_add by lia.
    rewrite Z.div_small, Z.mod_small by lia. simpl.
    rewrite bool_decide_eq_true_2 by exact Hy.
    destruct (Z.ltb_spec (bpp * x + k) (bpp * xsize)); [|nia]. simpl.
    replace (bpp * x + k) with (x * bpp + k) by lia.
    rewrite pix_mod, pix_div by lia. reflexivity.
  - intros ys' Hsame. rewrite !U8_drive_image; try assumption.
    + unfold u8_image.
      destruct (decide (a / U8.stride_ s ∈ ys)) as [Hin|Hnin].
      * rewrite !bool_decide_eq_true_2; [reflexivity | exact Hin |].
        apply Hsame. exact Hin.
      * rewrite !bool_decide_eq_false_2; [reflexivity | exact Hnin |].
        rewrite Hsame. exact Hnin.
    + intros y Hy. apply Hys, Hsame. exact Hy.
Qed.

Lemma X4_u8_image_witness :
  U8_drive 4 u8_rgba_h4 (fun _ => ramp_rows) 2 [1; 0; 1] (fun _ => 7) 12
  = pixel_byte u8_rgba_h4 ramp_rows 0 1.
Proof.
  destruct (X4_u8_image 4 u8_rgba_h4 (fun _ => ramp_rows) 2 [1; 0; 1]
              (fun _ => 7) 12) as (_ & H & _).
  - lia.
  - lia.
  - change (0 < 8). lia.
  - change (4 * 2 <= 8). lia.
  - intros y Hy. change (U8.height_ u8_rgba_h4) with 4.
    rewrite !elem_of_cons in Hy.
    destruct Hy as [-> | [-> | [-> | Hy]]]; try lia.
    apply elem_of_nil in Hy. contradiction.
  - apply (H 1 1 0).
    + left.
    + lia.
    + change (0 <= 0 < 4). lia.
Defined.

(** ** Chunks of a row in the raw buffer sink *)

(** X5.  A row written by the raw buffer sink in two adjacent chunks
    leaves the same bytes in the buffer as the row written in one piece. *)
Theorem X5_u8_chunks Lanes s input_rows n1 n2 xpos ypos thread_id rgb a :
  0 < Lanes -> 0 <= n1 -> 0 <= n2 -> 0 <= xpos -> xpos + n1 + n2 < 2 ^ 64 ->
  U8.ProcessRow Lanes s (shift_rows n1 input_rows) 0 n2 (xpos + n1) ypos
    thread_id
    (U8.ProcessRow Lanes s input_rows 0 n1 xpos ypos thread_id rgb) a
  = U8.ProcessRow Lanes s input_rows 0 (n1 + n2) xpos ypos thread_id rgb a.
Proof.
  intros HL Hn1 Hn2 Hxp Hsum.
  destruct (Z.le_gt_cases (U8.height_ s) ypos) as [Hy|Hy].
  - rewrite !U8_skip by exact Hy. reflexivity.
  - rewrite !U8_ProcessRow_spec by lia. cbv zeta.
    unfold base_ptr. rewrite !Z.sub_0_r, !wrap_small by lia.
    set (bpp := bytes_per_pixel s).
    assert (Hbpp : bpp = 3 \/ bpp = 4).
    { unfold bpp, bytes_per_pixel. destruct (U8.rgba_ s); auto. }
    set (b1 := ypos * U8.stride_ s + bpp * xpos).
    replace (ypos * U8.stride_ s + bpp * (xpos + n1)) with (b1 + bpp * n1)
      by (unfold b1; lia).
    destruct (Z.leb_spec (b1 + bpp * n1) a) as [H1|H1];
      destruct (Z.ltb_spec a (b1 + bpp * n1 + bpp * n2)) as [H2|H2];
      destruct (Z.leb_spec b1 a) as [H3|H3];
      destruct (Z.ltb_spec a (b1 + bpp * n1)) as [H4|H4];
      destruct (Z.ltb_spec a (b1 + bpp * (n1 + n2))) as [H5|H5];
      simpl; try reflexivity; try (exfalso; nia).
    replace (a - b1) with (a - (b1 + bpp * n1) + n1 * bpp) by lia.
    rewrite Z.mod_add, Z.div_add by lia.
    unfold pixel_byte, shift_rows, ptr_add.
    rewrite (Z.add_comm n1). reflexivity.
Qed.

Lemma X5_u8_chunks_witness :
  U8.ProcessRow 4 u8_rgba_h2 (shift_rows 3 ramp_rows) 0 5 (0 + 3) 0 0
    (U8.ProcessRow 4 u8_rgba_h2 ramp_rows 0 3 0 0 0 (fun _ => 7)) 17
  = U8.ProcessRow 4 u8_rgba_h2 ramp_rows 0 (3 + 5) 0 0 0 (fun _ => 7) 17.
Proof.
  apply (X5_u8_chunks 4 u8_rgba_h2 ramp_rows 3 5 0 0 0 (fun _ => 7) 17); lia.
Defined.

(** ** Where the callback is told to put the pixels *)

Lemma placed_call_events s h thread_id yo xstart xlen f :
  0 < CB.num_channels_ s -> 0 <= xlen ->
  call_events s h thread_id yo xstart xlen f
    ≫= placed_pixels (CB.num_channels_ s)
  = (fun i => (if CB.transpose_ s then (yo, xstart + i) else (xstart + i, yo),
               f i <$> seqZ 0 (CB.num_channels_ s)))
      <$> seqZ 0 xlen.
Proof.
  intros Hnc Hxlen. unfold call_events.
  destruct (CB.transpose_ s).
  - rewrite list_fmap_bind.
    assert (Hb : forall l : list Z,
      l ≫= (placed_pixels (CB.num_channels_ s)
              ∘ (fun i => EvRun h thread_id yo (xstart + i) 1
                            (pixels (CB.num_channels_ s) 1 (fun _ c => f i c))))
      = (fun i => ((yo, xstart + i), f i <$> seqZ 0 (CB.num_channels_ s)))
          <$> l).
    { induction l as [|i l IH]; [reflexivity|].
      rewrite bind_cons, fmap_cons, IH. f_equal. simpl.
      change (seqZ 0 1) with [0]. simpl.
      rewrite pixels_take_drop by lia.
      rewrite pixels_one by lia. rewrite Z.add_0_r. reflexivity. }
    apply Hb.
  - rewrite bind_cons. simpl. rewrite app_nil_r.
    apply list_fmap_ext. intros j i Hi.
    apply lookup_seqZ in Hi as [-> Hlt]. rewrite Z.add_0_l.
    rewrite pixels_take_drop by lia.
    rewrite pixels_one by lia. reflexivity.
Qed.

Lemma batch_placed k s input_rows h thread_id xpos y limit x0 :
  0 < CB.num_channels_ s -> x0 < limit ->
  batch_events k s input_rows h thread_id xpos (ypos_out s y) limit x0
    ≫= placed_pixels (CB.num_channels_ s)
  ≡ₚ (fun r => (oriented s (xpos + r) y, out_pixel k s input_rows r))
       <$> seqZ x0 (Z.min CB.kMaxPixelsPerCall (limit - x0)).
Proof.
  intros Hnc Hlim. unfold batch_events. cbv zeta.
  set (xlen := Z.min CB.kMaxPixelsPerCall (limit - x0)).
  assert (Hxlen : 0 < xlen) by (unfold xlen, CB.kMaxPixelsPerCall; lia).
  rewrite placed_call_events by lia.
  set (g := fun r => (oriented s (xpos + r) y, out_pixel k s input_rows r)).
  assert (Hseq : seqZ x0 xlen = Z.add x0 <$> seqZ 0 xlen)
    by (rewrite fmap_add_seqZ; f_equal; lia).
  rewrite Hseq, <- list_fmap_compose.
  destruct (CB.flip_x_ s) eqn:Hfx.
  - rewrite <- (fmap_seqZ_rev (g ∘ Z.add x0)) by lia.
    erewrite list_fmap_ext; [reflexivity|].
    intros j i Hi. simpl. unfold g, oriented, out_pixel, ypos_out.
    rewrite Hfx. cbv zeta.
    replace (CB.width_ s - 1 - (xpos + (x0 + (xlen - 1 - i))))
      with (CB.width_ s - (xpos + x0) - xlen + i) by lia.
    destruct (CB.transpose_ s); reflexivity.
  - erewrite list_fmap_ext; [reflexivity|].
    intros j i Hi. simpl. unfold g, oriented, out_pixel, ypos_out.
    rewrite Hfx. cbv zeta.
    replace (xpos + (x0 + i)) with (xpos + x0 + i) by lia.
    destruct (CB.transpose_ s); reflexivity.
Qed.

(** The calls of a row, batch by batch, under any reading [F] of a call. *)
Lemma row_bind {B} (F : Event -> list B) (g : Z -> B) k s input_rows h
    xextra xsize xpos ypos thread_id :
  (forall x0, x0 < row_limit s xextra xsize xpos ->
     batch_events k s input_rows h thread_id xpos (ypos_out s ypos)
       (row_limit s xextra xsize xpos) x0 ≫= F
     ≡ₚ g <$> seqZ x0 (Z.min CB.kMaxPixelsPerCall
                          (row_limit s xextra xsize xpos - x0))) ->
  0 <= row_limit s xextra xsize xpos + xextra ->
  row_events k s input_rows h xextra xsize xpos ypos thread_id ≫= F
  ≡ₚ g <$> seqZ (- xextra) (row_limit s xextra xsize xpos + xextra).
Proof.
  intros Hbatch HT. unfold row_events. cbv zeta.
  set (limit := row_limit s xextra xsize xpos) in *.
  set (T := limit + xextra) in *.
  set (bev := fun b =>
         batch_events k s input_rows h thread_id xpos (ypos_out s ypos) limit
           (- xextra + CB.kMaxPixelsPerCall * b)).
  destruct (RoundUpTo_bounds T CB.kMaxPixelsPerCall
              ltac:(unfold CB.kMaxPixelsPerCall; lia) HT) as (Hr1 & Hr2 & Hr3).
  unfold RoundUpTo in Hr1, Hr2.
  set (nb := DivCeil T CB.kMaxPixelsPerCall) in *.
  unfold CB.kMaxPixelsPerCall in *.
  assert (Hind : forall b, 0 <= b -> b <= nb ->
            concat (bev <$> seqZ 0 b) ≫= F
            ≡ₚ g <$> seqZ (- xextra) (Z.min T (1024 * b))).
  { apply (natlike_ind (fun b => b <= nb ->
            concat (bev <$> seqZ 0 b) ≫= F
            ≡ₚ g <$> seqZ (- xextra) (Z.min T (1024 * b)))).
    - intros _. rewrite Z.min_r by lia. reflexivity.
    - intros b Hb IH Hle. unfold Z.succ.
      rewrite seqZ_snoc, fmap_app, concat_app by lia. simpl.
      rewrite app_nil_r, bind_app.
      rewrite IH by lia.
      unfold bev. rewrite Hbatch by lia.
      rewrite (Z.min_r T (1024 * b)) by lia.
      replace (Z.min T (1024 * (b + 1)))
        with (1024 * b + Z.min 1024 (limit - (- xextra + 1024 * b)))
        by (unfold T; lia).
      rewrite seqZ_app, fmap_app by lia. reflexivity. }
  rewrite (Hind nb) by lia.
  rewrite Z.min_l by lia. reflexivity.
Qed.

Lemma row_placed k s input_rows h xextra xsize xpos ypos thread_id :
  0 < CB.num_channels_ s -> 0 <= row_limit s xextra xsize xpos + xextra ->
  row_events k s input_rows h xextra xsize xpos ypos thread_id
    ≫= placed_pixels (CB.num_channels_ s)
  ≡ₚ (fun r => (oriented s (xpos + r) ypos, out_pixel k s input_rows r))
       <$> seqZ (- xextra) (row_limit s xextra xsize xpos + xextra).
Proof.
  intros Hnc HT. apply row_bind; [|exact HT].
  intros x0 Hx0. apply batch_placed; assumption.
Qed.

Lemma oriented_inj s x y x' y' :
  oriented s x y = oriented s x' y' -> x = x' /\ y = y'.
Proof.
  unfold oriented. cbv zeta.
  destruct (CB.flip_x_ s), (CB.flip_y_ s), (CB.transpose_ s);
    intros H; injection H as H1 H2; lia.
Qed.

Lemma oriented_range s x y :
  0 <= x < CB.width_ s -> 0 <= y < CB.height_ s ->
  0 <= fst (oriented s x y)
       < (if CB.transpose_ s then CB.height_ s else CB.width_ s)
  /\ 0 <= snd (oriented s x y)
          < (if CB.transpose_ s then CB.width_ s else CB.height_ s).
Proof.
  intros Hx Hy. unfold oriented. cbv zeta.
  destruct (CB.flip_x_ s), (CB.flip_y_ s), (CB.transpose_ s); simpl; lia.
Qed.

(** X6.  A row call hands every pixel of its span to the callback exactly
    once, with the samples of that pixel and at the coordinates the
    orientation to undo gives it: the x coordinate mirrored in the width
    under a horizontal flip, the row mirrored in the height under a vertical
    flip, and the two exchanged under a transposition.  The coordinates lie
    inside the oriented frame, and two pixels of the stored frame never get
    the same coordinates. *)
Theorem X6_orientation k s input_rows xextra xsize xpos ypos thread_id st :
  wf_stage s -> row_args_ok s xextra xsize xpos ypos ->
  exists new,
    CB.events (CB.ProcessRow k s input_rows xextra xsize xpos ypos thread_id st)
    = CB.events st ++ new
    /\ new ≫= placed_pixels (CB.num_channels_ s)
       ≡ₚ (fun x => (oriented s x ypos, out_pixel k s input_rows (x - xpos)))
            <$> seqZ (xpos - xextra)
                  (Z.min (xpos + xsize + xextra) (CB.width_ s)
                   - (xpos - xextra))
    /\ (forall p px, (p, px) ∈ new ≫= placed_pixels (CB.num_channels_ s) ->
          0 <= fst p < (if CB.transpose_ s then CB.height_ s else CB.width_ s)
          /\ 0 <= snd p
                  < (if CB.transpose_ s then CB.width_ s else CB.height_ s))
    /\ (forall x y x' y',
          oriented s x y = oriented s x' y' -> x = x' /\ y = y').
Proof.
  intros Hwf Hargs. pose proof Hwf as (Hnc & _).
  pose proof Hargs as (Hxe & Hxp & Hw & Hxs & Hsum & Hy & Hh).
  assert (HT : row_limit s xextra xsize xpos + xextra
               = Z.min (xpos + xsize + xextra) (CB.width_ s) - (xpos - xextra))
    by (unfold row_limit; lia).
  assert (Hperm :
    row_events k s input_rows (CB.run_opaque_ st) xextra xsize xpos ypos
      thread_id ≫= placed_pixels (CB.num_channels_ s)
    ≡ₚ (fun x => (oriented s x ypos, out_pixel k s input_rows (x - xpos)))
         <$> seqZ (xpos - xextra)
               (Z.min (xpos + xsize + xextra) (CB.width_ s) - (xpos - xextra))).
  { rewrite row_placed by (unfold row_limit; lia).
    rewrite HT.
    replace (xpos - xextra) with (xpos + - xextra) at 2 by lia.
    rewrite <- fmap_add_seqZ, <- list_fmap_compose.
    erewrite list_fmap_ext; [reflexivity|].
    intros j r _. simpl. do 2 f_equal. lia. }
  eexists. split.
  { rewrite CB_ProcessRow_spec by assumption. reflexivity. }
  split; [exact Hperm|]. split.
  - intros p px Hin. rewrite Hperm in Hin.
    apply list_elem_of_fmap in Hin as (x & Heq & Hx).
    injection Heq as -> _. apply elem_of_seqZ in Hx.
    apply oriented_range; lia.
  - apply oriented_inj.
Qed.

Lemma X6_orientation_witness :
  exists new,
    CB.events (CB.ProcessRow k26 cb_rot90 ramp_rows 0 8 0 1 0 CB.initial)
    = CB.events CB.initial ++ new
    /\ new ≫= placed_pixels 3
       ≡ₚ (fun x => (oriented cb_rot90 x 1, out_pixel k26 cb_rot90 ramp_rows (x - 0)))
            <$> seqZ 0 8.
Proof.
  destruct (X6_orientation k26 cb_rot90 ramp_rows 0 8 0 1 0 CB.initial)
    as (new & H1 & H2 & _).
  - apply constructor_wf. lia.
  - unfold row_args_ok. simpl. lia.
  - exists new. split; [exact H1 | exact H2].
Defined.

Example rot90_places :
  oriented cb_rot90 0 1 = (2, 0) /\ oriented cb_rot90 7 1 = (2, 7)
  /\ oriented cb_rot90 0 3 = (0, 0).
Proof. repeat split; reflexivity. Qed.

(** ** Chunks of a row *)

Lemma out_pixel_shift k s input_rows n r :
  out_pixel k s (shift_rows n input_rows) r = out_pixel k s input_rows (n + r).
Proof. reflexivity. Qed.

(** X7.  A row handed to the callback sink in two adjacent chunks gives the
    callback the same pixels at the same coordinates as the row handed over
    in one piece. *)
Theorem X7_cb_chunks k s input_rows n1 n2 xpos ypos thread_id st :
  wf_stage s -> row_args_ok s 0 n1 xpos ypos ->
  xpos + n1 <= CB.width_ s -> 0 <= n2 -> n1 + n2 < 2 ^ 63 ->
  exists new1 new2 new,
    CB.events
      (CB.ProcessRow k s (shift_rows n1 input_rows) 0 n2 (xpos + n1) ypos
         thread_id
         (CB.ProcessRow k s input_rows 0 n1 xpos ypos thread_id st))
    = CB.events st ++ new1 ++ new2
    /\ CB.events
         (CB.ProcessRow k s input_rows 0 (n1 + n2) xpos ypos thread_id st)
       = CB.events st ++ new
    /\ (new1 ++ new2) ≫= placed_pixels (CB.num_channels_ s)
       ≡ₚ new ≫= placed_pixels (CB.num_channels_ s).
Proof.
  intros Hwf Hargs Hfit Hn2 Hsum. pose proof Hwf as (Hnc & _).
  pose proof Hargs as (Hxe & Hxp & Hw & Hxs & _ & Hy & Hh).
  assert (Hargs2 : row_args_ok s 0 n2 (xpos + n1) ypos)
    by (unfold row_args_ok; lia).
  assert (Hargs12 : row_args_ok s 0 (n1 + n2) xpos ypos)
    by (unfold row_args_ok; lia).
  do 3 eexists. split; [|split].
  - rewrite (CB_ProcessRow_spec k s (shift_rows n1 input_rows)) by assumption.
    rewrite (CB_ProcessRow_spec k s input_rows) by assumption.
    simpl. rewrite <- app_assoc. reflexivity.
  - rewrite CB_ProcessRow_spec by assumption. reflexivity.
  - rewrite bind_app.
    rewrite !row_placed by (unfold row_limit; lia).
    unfold row_limit. rewrite !Z.add_0_l, !Z.add_0_r.
    change (- 0) with 0.
    rewrite (Z.min_l n1) by lia.
    replace (Z.min (n1 + n2) (CB.width_ s - xpos))
      with (n1 + Z.min n2 (CB.width_ s - (xpos + n1))) by lia.
    rewrite (seqZ_app 0 n1) by lia. rewrite fmap_app.
    apply Permutation_app; [reflexivity|].
    set (L := Z.min n2 (CB.width_ s - (xpos + n1))).
    assert (Hseq : seqZ (0 + n1) L = Z.add n1 <$> seqZ 0 L)
      by (rewrite fmap_add_seqZ; f_equal; lia).
    rewrite Hseq, <- list_fmap_compose.
    erewrite list_fmap_ext; [reflexivity|].
    intros j r _. simpl. rewrite out_pixel_shift. do 2 f_equal. lia.
Qed.

Lemma X7_cb_chunks_witness :
  exists new1 new2 new,
    CB.events
      (CB.ProcessRow k26 cb_rot90 (shift_rows 3 ramp_rows) 0 5 (0 + 3) 1 0
         (CB.ProcessRow k26 cb_rot90 ramp_rows 0 3 0 1 0 CB.initial))
    = CB.events CB.initial ++ new1 ++ new2
    /\ CB.events (CB.ProcessRow k26 cb_rot90 ramp_rows 0 (3 + 5) 0 1 0 CB.initial)
       = CB.events CB.initial ++ new
    /\ (new1 ++ new2) ≫= placed_pixels (CB.num_channels_ cb_rot90)
       ≡ₚ new ≫= placed_pixels (CB.num_channels_ cb_rot90).
Proof.
  apply (X7_cb_chunks k26 cb_rot90 ramp_rows 3 5 0 1 0 CB.initial).
  - apply constructor_wf. lia.
  - unfold row_args_ok. simpl. lia.
  - simpl. lia.
  - lia.
  - lia.
Defined.

(** ** No alpha plane *)

(** X8.  When the frame has no alpha plane and the output format has an
    alpha sample ([num_channels] 2 or 4), every pixel handed to the callback
    carries the opaque alpha 1.0 in the output type, in every batch of the
    row, and its colour samples are the input samples undivided even if
    unpremultiplication was asked for; no alpha channel is asked for or
    read. *)
Theorem X8_opaque_alpha k cb width height num_channels unpremul_alpha alpha_c
    swap_endianness o data_type (input_rows : RowInfo) xextra xsize xpos ypos
    thread_id st :
  num_channels = 2 \/ num_channels = 4 ->
  let s := CB.WriteToPixelCallbackStage cb width height num_channels false
             unpremul_alpha alpha_c swap_endianness o data_type in
  row_args_ok s xextra xsize xpos ypos ->
  exists new,
    CB.events (CB.ProcessRow k s input_rows xextra xsize xpos ypos thread_id st)
    = CB.events st ++ new
    /\ (forall x px, (x, px) ∈ delivered_pixels s new ->
          px !! Z.to_nat (CB.num_color_ s) = Some (narrow s F32.one)
          /\ forall c, 0 <= c < CB.num_color_ s ->
               px !! Z.to_nat c = Some (narrow s (input_rows c (x - xpos))))
    /\ narrow s F32.one
       = match data_type with
         | JXL_TYPE_FLOAT =>
             SampleF32 (if swap_endianness then F32.of_bits 0x0000803f
                        else F32.one)
         | JXL_TYPE_UINT16 => SampleU16 65535
         | JXL_TYPE_FLOAT16 =>
             SampleU16 (if swap_endianness then 0x003c else 0x3c00)
         | JXL_TYPE_UINT8 => SampleU8 255
         end
    /\ (forall c, CB.GetChannelMode s c = (c <? CB.num_color_ s)).
Proof.
  intros Hnc s Hargs.
  assert (Hwf : wf_stage s) by (apply constructor_wf; lia).
  pose proof Hargs as (Hxe & Hxp & Hw & Hxs & Hsum & Hy & Hh).
  assert (HT : 0 <= row_limit s xextra xsize xpos + xextra)
    by (unfold row_limit; lia).
  assert (Hcol : 0 < CB.num_color_ s /\ CB.num_channels_ s = CB.num_color_ s + 1).
  { simpl. destruct Hnc as [-> | ->]; simpl; lia. }
  eexists. split.
  { rewrite CB_ProcessRow_spec by assumption. reflexivity. }
  split; [|split].
  - intros x px Hin.
    apply delivered_pixel_inv in Hin; [|simpl; lia | exact HT]. subst px.
    split.
    + rewrite out_pixel_lookup by lia.
      unfold unpremultiplied, chan. simpl CB.has_alpha_. simpl andb.
      rewrite Z.ltb_irrefl. reflexivity.
    + intros c Hc. rewrite out_pixel_lookup by lia.
      unfold unpremultiplied, chan. simpl CB.has_alpha_. simpl andb.
      destruct (Z.ltb_spec c (CB.num_color_ s)); [reflexivity | lia].
  - unfold narrow. simpl CB.data_type_. simpl CB.swap_endianness_.
    destruct data_type, swap_endianness; vm_compute; reflexivity.
  - intros c. unfold CB.GetChannelMode. simpl CB.has_alpha_. simpl andb.
    apply orb_false_r.
Qed.

Lemma X8_opaque_alpha_witness :
  exists new,
    CB.events (CB.ProcessRow k26 cb_gray_alpha ramp_rows 0 8 0 1 0 CB.initial)
    = CB.events CB.initial ++ new
    /\ forall x px, (x, px) ∈ delivered_pixels cb_gray_alpha new ->
         px !! 1%nat = Some (SampleU16 65535).
Proof.
  destruct (X8_opaque_alpha k26 cb_ok 8 4 2 true 1 false kIdentity
              JXL_TYPE_UINT16 ramp_rows 0 8 0 1 0 CB.initial)
    as (new & H1 & H2 & H3 & _).
  - left. reflexivity.
  - unfold row_args_ok. simpl. lia.
  - exists new. split; [exact H1|].
    intros x px Hin. destruct (H2 x px Hin) as [Ha _].
    rewrite H3 in Ha. exact Ha.
Defined.

(** ** What the callback sink reads *)

Lemma call_events_ext s h thread_id y xstart xlen f g :
  0 < CB.num_channels_ s ->
  (forall p c, 0 <= p < xlen -> 0 <= c < CB.num_channels_ s -> f p c = g p c) ->
  call_events s h thread_id y xstart xlen f
  = call_events s h thread_id y xstart xlen g.
Proof.
  intros Hnc Hfg. unfold call_events. destruct (CB.transpose_ s).
  - apply list_fmap_ext. intros j i Hi.
    apply lookup_seqZ in Hi as [-> Hlt]. f_equal.
    apply pixels_ext; [exact Hnc|]. intros _ c _ Hc. apply Hfg; lia.
  - do 2 f_equal. apply pixels_ext; assumption.
Qed.

Lemma row_events_ext k s (input_rows input_rows' : RowInfo) h xextra xsize xpos
    ypos thread_id :
  0 < CB.num_channels_ s ->
  (forall c r, 0 <= c < CB.num_channels_ s ->
     - xextra <= r < row_limit s xextra xsize xpos ->
     unpremultiplied k s input_rows' c r = unpremultiplied k s input_rows c r) ->
  row_events k s input_rows' h xextra xsize xpos ypos thread_id
  = row_events k s input_rows h xextra xsize xpos ypos thread_id.
Proof.
  intros Hnc Hagree. unfold row_events. cbv zeta. f_equal.
  apply list_fmap_ext. intros j b Hb.
  apply lookup_seqZ in Hb as [-> Hlt].
  unfold batch_events. cbv zeta.
  apply call_events_ext; [exact Hnc|].
  intros p c Hp Hc. f_equal. apply Hagree; [exact Hc|].
  unfold CB.kMaxPixelsPerCall in *.
  destruct (CB.flip_x_ s); lia.
Qed.

(** X9.  A row call of the callback sink depends on the input samples of
    the row window, [xextra] samples before and [xsize + xextra] samples
    from the start of the row, of the channels for which [GetChannelMode]
    answers [kInput], and on nothing else. *)
Theorem X9_cb_reads k s (input_rows input_rows' : RowInfo) xextra xsize xpos
    ypos thread_id st :
  wf_stage s -> row_args_ok s xextra xsize xpos ypos ->
  (forall c r, CB.GetChannelMode s c = true ->
     - xextra <= r < xsize + xextra ->
     input_rows' c r = input_rows c r) ->
  CB.ProcessRow k s input_rows' xextra xsize xpos ypos thread_id st
  = CB.ProcessRow k s input_rows xextra xsize xpos ypos thread_id st.
Proof.
  intros Hwf Hargs Hagree.
  pose proof Hwf as (Hnc & Hncol & Hle & Hwant).
  rewrite !CB_ProcessRow_spec by assumption. f_equal.
  assert (Hchan : forall c r, 0 <= c <= CB.num_color_ s ->
            - xextra <= r < xsize + xextra ->
            chan s input_rows' c r = chan s input_rows c r).
  { intros c r Hc Hr. unfold chan.
    destruct (Z.ltb_spec c (CB.num_color_ s)) as [Hlt|Hge].
    - apply Hagree; [|exact Hr]. unfold CB.GetChannelMode.
      destruct (Z.ltb_spec c (CB.num_color_ s)); [reflexivity | lia].
    - destruct (CB.has_alpha_ s) eqn:Ha; [|reflexivity].
      apply Hagree; [|exact Hr]. unfold CB.GetChannelMode.
      rewrite Ha, Z.eqb_refl. apply orb_true_r. }
  apply row_events_ext; [lia|].
  intros c r Hc Hr. unfold row_limit in Hr. unfold unpremultiplied.
  rewrite !Hchan by lia. reflexivity.
Qed.

Lemma X9_cb_reads_witness :
  CB.ProcessRow k26 cb_rot90
    (fun c r => if c <? 3 then ramp_rows c r else S754_nan) 0 8 0 1 0
    CB.initial
  = CB.ProcessRow k26 cb_rot90 ramp_rows 0 8 0 1 0 CB.initial.
Proof.
  apply (X9_cb_reads k26 cb_rot90 ramp_rows
           (fun c r => if c <? 3 then ramp_rows c r else S754_nan)).
  - apply constructor_wf. lia.
  - unfold row_args_ok. simpl. lia.
  - intros c r Hc _. unfold CB.GetChannelMode in Hc. simpl in Hc.
    rewrite orb_false_r in Hc. rewrite Hc. reflexivity.
Defined.

(** ** The handle of the callback *)






(** ** Calls the callback can rely on *)

Lemma JXL_BSWAP16_range x : 0 <= JXL_BSWAP16 x <= 65535.
Proof.
  unfold JXL_BSWAP16.
  pose proof (Z.mod_pos_bound x 256 ltac:(lia)).
  pose proof (Z.mod_pos_bound (x / 256) 256 ltac:(lia)).
  lia.
Qed.

Lemma narrow_sample s v : sample_of (CB.data_type_ s) (narrow s v).
Proof.
  unfold narrow. destruct (CB.data_type_ s); simpl; try exact I.
  - unfold F32.DemoteToU8. lia.
  - destruct (CB.swap_endianness_ s); [apply JXL_BSWAP16_range|].
    unfold F32.DemoteToU16. lia.
Qed.

Lemma call_events_well_formed s h thread_id y xstart xlen g :
  0 < CB.num_channels_ s -> 1 <= xlen <= CB.kMaxPixelsPerCall ->
  Forall (well_formed_call s)
    (call_events s h thread_id y xstart xlen (fun p c => narrow s (g p c))).
Proof.
  intros Hnc Hxlen. unfold call_events.
  assert (Hpix : forall n f, 0 <= n ->
            Z.of_nat (length (pixels (CB.num_channels_ s) n
                                (fun p c => narrow s (f p c))))
            = n * CB.num_channels_ s
            /\ Forall (sample_of (CB.data_type_ s))
                 (pixels (CB.num_channels_ s) n (fun p c => narrow s (f p c)))).
  { intros n f Hn. split.
    - rewrite pixels_length. nia.
    - unfold pixels. rewrite Forall_fmap. apply Forall_forall.
      intros j _. apply narrow_sample. }
  destruct (CB.transpose_ s).
  - rewrite Forall_fmap. apply Forall_forall. intros i _. simpl.
    split; [unfold CB.kMaxPixelsPerCall; lia|].
    apply (Hpix 1 (fun _ c => g i c)). lia.
  - apply Forall_singleton. simpl. split; [exact Hxlen|].
    apply Hpix. lia.
Qed.

(** X11.  Every call the callback sink makes is one the callback can
    rely on: it is a [run] call for at least 1 and at most 1024 pixels, and
    the buffer it passes holds exactly [num_pixels * num_channels] samples,
    all of the output type and, for the integer types, within its range. *)
Theorem X11_calls_well_formed k s input_rows xextra xsize xpos ypos thread_id
    st :
  wf_stage s -> row_args_ok s xextra xsize xpos ypos ->
  exists new,
    CB.events (CB.ProcessRow k s input_rows xextra xsize xpos ypos thread_id st)
    = CB.events st ++ new
    /\ Forall (well_formed_call s) new.
Proof.
  intros Hwf Hargs. pose proof Hwf as (Hnc & _).
  pose proof Hargs as (Hxe & Hxp & Hw & Hxs & Hsum & Hy & Hh).
  eexists. split.
  { rewrite CB_ProcessRow_spec by assumption. reflexivity. }
  unfold row_events. cbv zeta.
  set (limit := row_limit s xextra xsize xpos).
  assert (HT : 0 <= limit + xextra) by (unfold limit, row_limit; lia).
  destruct (RoundUpTo_bounds (limit + xextra) CB.kMaxPixelsPerCall
              ltac:(unfold CB.kMaxPixelsPerCall; lia) HT) as (Hr1 & Hr2 & Hr3).
  unfold RoundUpTo in Hr1, Hr2.
  apply Forall_concat. rewrite Forall_fmap. apply Forall_forall.
  intros b Hb. apply elem_of_seqZ in Hb. simpl.
  unfold batch_events. cbv zeta.
  apply (call_events_well_formed s _ _ _ _ _
           (fun p c => unpremultiplied k s input_rows c
                         (- xextra + CB.kMaxPixelsPerCall * b
                          + (if CB.flip_x_ s
                             then Z.min CB.kMaxPixelsPerCall
                                    (limit - (- xextra + CB.kMaxPixelsPerCall * b))
                                  - 1 - p
                             else p)))).
  - lia.
  - unfold CB.kMaxPixelsPerCall in *. lia.
Qed.

Lemma X11_calls_well_formed_witness :
  exists new,
    CB.events (CB.ProcessRow k26 cb_rot90 ramp_rows 0 8 0 1 0 CB.initial)
    = CB.events CB.initial ++ new
    /\ Forall (well_formed_call cb_rot90) new.
Proof.
  apply (X11_calls_well_formed k26 cb_rot90 ramp_rows 0 8 0 1 0 CB.initial).
  - apply constructor_wf. lia.
  - unfold row_args_ok. simpl. lia.
Defined.

(** ** Samples outside [0, 1] *)

Lemma one_eq : F32.one = S754_finite false 8388608 (-23).
Proof. reflexivity. Qed.

Lemma SFcompare_pos m e m' e' :
  SFcompare (S754_finite false m e) (S754_finite false m' e')
  = Some (match Z.compare e e' with
          | Lt => Lt
          | Gt => Gt
          | Eq => Pos.compare m m'
          end).
Proof. reflexivity. Qed.

Lemma Clamp_ge_one v :
  F32.leb F32.one v = true -> F32.Clamp F32.zero v F32.one = F32.one.
Proof.
  rewrite one_eq. unfold F32.leb, SFleb.
  destruct v as [s|s| |s m e].
  - intros H. exfalso. destruct s; vm_compute in H; discriminate.
  - destruct s; intros H; [vm_compute in H; discriminate|]. reflexivity.
  - intros H. vm_compute in H. discriminate.
  - destruct s.
    + intros H. exfalso.
      change (SFcompare (S754_finite false 8388608 (-23)) (S754_finite true m e))
        with (Some Gt) in H.
      discriminate.
    + rewrite SFcompare_pos. intros H.
      unfold F32.Clamp.
      change (F32.Max (S754_finite false m e) F32.zero)
        with (S754_finite false m e).
      unfold F32.Min.
      change (F32.is_nan (S754_finite false m e)) with false.
      change (F32.is_nan (S754_finite false 8388608 (-23))) with false.
      cbv iota.
      unfold F32.ltb, SFltb. rewrite SFcompare_pos.
      rewrite (Z.compare_antisym e (-23)), (Pos.compare_antisym m 8388608) in H.
      destruct (e ?= -23), (m ?= 8388608)%positive; simpl in *;
        try reflexivity; discriminate.
Qed.

Lemma Clamp_le_zero v :
  F32.leb v F32.zero = true -> F32.Clamp F32.zero v F32.one = F32.zero.
Proof.
  unfold F32.leb, SFleb.
  destruct v as [s|s| |s m e].
  - intros _. destruct s; reflexivity.
  - destruct s; intros H; [reflexivity | vm_compute in H; discriminate].
  - intros H. vm_compute in H. discriminate.
  - destruct s; intros H; [reflexivity|].
    change (SFcompare (S754_finite false m e) F32.zero) with (Some Gt) in H.
    discriminate.
Qed.

(** X12.  Samples outside the unit interval saturate, they do not wrap: a
    sample that is at least 1.0, +infinity included, becomes the largest
    code of the output type (255 in the raw buffer sink and in the 8-bit
    callback output, 65535 in the 16-bit one, whatever the byte order), and a
    sample that is at most 0.0, -infinity included, becomes 0. *)
Theorem X12_saturation s v :
  (F32.leb F32.one v = true ->
     to_u8 v = 255
     /\ (CB.data_type_ s = JXL_TYPE_UINT8 -> narrow s v = SampleU8 255)
     /\ (CB.data_type_ s = JXL_TYPE_UINT16 -> narrow s v = SampleU16 65535))
  /\ (F32.leb v F32.zero = true ->
        to_u8 v = 0
        /\ (CB.data_type_ s = JXL_TYPE_UINT8 -> narrow s v = SampleU8 0)
        /\ (CB.data_type_ s = JXL_TYPE_UINT16 -> narrow s v = SampleU16 0)).
Proof.
  split; intros H.
  - apply Clamp_ge_one in H. unfold to_u8, narrow. rewrite H.
    split; [vm_compute; reflexivity|].
    split; intros ->; [vm_compute; reflexivity|].
    destruct (CB.swap_endianness_ s); vm_compute; reflexivity.
  - apply Clamp_le_zero in H. unfold to_u8, narrow. rewrite H.
    split; [vm_compute; reflexivity|].
    split; intros ->; [vm_compute; reflexivity|].
    destruct (CB.swap_endianness_ s); vm_compute; reflexivity.
Qed.

Lemma X12_saturation_witness :
  to_u8 (F32.of_Z 7) = 255 /\ to_u8 (S754_infinity true) = 0.
Proof.
  destruct (X12_saturation cb_rot90 (F32.of_Z 7)) as [H1 _].
  destruct (X12_saturation cb_rot90 (S754_infinity true)) as [_ H2].
  split.
  - apply H1. reflexivity.
  - apply H2. reflexivity.
Defined.

(** ** Rounding of a product *)

(** One shift to the exponent of the format: the exponent does not go
    down, the mantissa is the quotient by the power of two shifted out. *)
Lemma shr_fexp_spec m e l :
  0 <= m ->
  let r := shr_fexp F32.prec F32.emax m e l in
  let e' := snd r in
  e <= e'
  /\ shr_m (fst r) = m / 2 ^ (e' - e)
  /\ (e' = e /\ fst r = shr_record_of_loc m l
      \/ e < e' /\ e' = fexp F32.prec F32.emax (Zdigits2 m + e)).
Proof.
  intros Hm. unfold shr_fexp, shr. cbv zeta.
  destruct (fexp F32.prec F32.emax (Zdigits2 m + e) - e) as [|n|n] eqn:Hn;
    simpl fst; simpl snd.
  - rewrite Z.sub_diag, Z.div_1_r, shr_record_of_loc_m. auto with zarith.
  - rewrite iter_pos_shr_1_div by (rewrite shr_record_of_loc_m; exact Hm).
    rewrite shr_record_of_loc_m.
    replace (e + Z.pos n - e) with (Z.pos n) by lia.
    split; [lia|]. split; [reflexivity|]. right. lia.
  - rewrite Z.sub_diag, Z.div_1_r, shr_record_of_loc_m. auto with zarith.
Qed.

(** A binary32 value below 1.0: the mantissa has at most 24 bits and the
    exponent lies between -149 and -24. *)
Lemma below_one_shape m e :
  is_binary32 (S754_finite false m e) = true ->
  F32.ltb (S754_finite false m e) F32.one = true ->
  Z.pos m < 2 ^ 24 /\ - 149 <= e <= - 24.
Proof.
  unfold is_binary32, valid_binary, bounded, canonical_mantissa, fexp, emin.
  unfold F32.prec, F32.emax.
  rewrite andb_true_iff, Z.eqb_eq, Z.leb_le. intros [Hc He].
  rewrite one_eq. unfold F32.ltb, SFltb. rewrite SFcompare_pos. intros Hlt.
  pose proof (digits2_pos_upper m) as Hu.
  pose proof (digits2_pos_lower m) as Hl.
  assert (Hd : Z.pos (digits2_pos m) <= 24) by lia.
  assert (Hm : Z.pos m < 2 ^ 24).
  { eapply Z.lt_le_trans; [exact Hu|]. apply Z.pow_le_mono_r; lia. }
  split; [exact Hm|]. split; [lia|].
  destruct (Z.compare_spec e (-23)) as [->|Hlt'|Hgt]; [|lia|discriminate].
  exfalso.
  assert (Hd24 : Z.pos (digits2_pos m) = 24) by lia.
  rewrite Hd24 in Hl. change (2 ^ (24 - 1)) with 8388608 in Hl.
  destruct (Pos.compare_spec m 8388608) as [->|Hlt'|Hgt]; try discriminate.
  apply Pos2Z.pos_lt_pos in Hlt'. clear - Hl Hlt'. lia.
Qed.

Section Scaling.

(** The largest code [C] as a binary32 constant: mantissa [mk], exponent
    [ek]. *)
Variable C : Z.
Variable mk : positive.
Variable ek : Z.
Hypothesis HC : 0 < C < 2 ^ 24.
Hypothesis Hek : - 24 <= ek <= - 2.
Hypothesis Hmk : Z.pos mk = C * 2 ^ (- ek).
Hypothesis Hmk24 : Z.pos mk < 2 ^ 24.

Lemma product_rounds_below m e :
  Z.pos m < 2 ^ 24 -> - 149 <= e <= - 24 ->
  0 <= F32.NearestInt
         (F32.Mul (S754_finite false m e) (S754_finite false mk ek)) <= C.
Proof.
  intros Hm He. unfold F32.Mul, SFmul. simpl xorb.
  unfold binary_round_aux.
  set (P := Z.pos (m * mk)). set (E := e + ek).
  assert (HP : P = Z.pos m * Z.pos mk) by reflexivity.
  assert (HP0 : 0 < P) by (unfold P; lia).
  set (Y := 2 ^ (- ek)) in *.
  assert (HY : 4 <= Y).
  { unfold Y. change 4 with (2 ^ 2). apply Z.pow_le_mono_r; lia. }
  assert (HY24 : Y <= 2 ^ 24).
  { unfold Y. apply Z.pow_le_mono_r; lia. }
  (* the first shift *)
  pose proof (shr_fexp_spec P E loc_Exact ltac:(lia)) as Hs1.
  cbv zeta in Hs1.
  destruct (shr_fexp F32.prec F32.emax P E loc_Exact) as [mrs' e'].
  simpl fst in Hs1. simpl snd in Hs1.
  destruct Hs1 as (Hee & Hq1 & Hcase1).
  set (m1 := round_nearest_even (shr_m mrs') (loc_of_shr_record mrs')).
  pose proof (round_nearest_even_bounds (shr_m mrs') (loc_of_shr_record mrs'))
    as Hm1. fold m1 in Hm1.
  set (A := 2 ^ (e' - E)) in *.
  assert (HA : 0 < A) by (unfold A; apply Z.pow_pos_nonneg; lia).
  assert (Hq1' : shr_m mrs' * A <= P).
  { rewrite Hq1. rewrite Z.mul_comm. apply Z.mul_div_le. exact HA. }
  assert (Hq1p : 0 <= shr_m mrs').
  { rewrite Hq1. apply Z.div_pos; lia. }
  (* the exponent after rounding is at most [ek], unless nothing was
     shifted out *)
  set (X := 2 ^ (- 24 - e)).
  assert (HX : 1 <= X).
  { unfold X. change 1 with (2 ^ 0). apply Z.pow_le_mono_r; lia. }
  assert (HXY : 2 ^ (- E) = 2 ^ 24 * X * Y).
  { unfold X, Y, E. rewrite <- !Z.pow_add_r by lia. f_equal. lia. }
  assert (Hval1 : m1 * A <= P + 2 ^ 24 * X /\ (e' = E -> m1 = P)).
  { destruct Hcase1 as [[-> Hrec]|[Hlt Hfexp]].
    - assert (m1 = P) as ->.
      { unfold m1. rewrite Hrec. simpl. reflexivity. }
      unfold A. rewrite Z.sub_diag. simpl. split; [lia | reflexivity].
    - split; [|lia].
      assert (HAle : A <= 2 ^ 24 * X).
      { unfold A, X. rewrite <- Z.pow_add_r by lia.
        apply Z.pow_le_mono_r; [lia|].
        rewrite Hfexp. unfold fexp, emin, F32.prec, F32.emax, E.
        assert (Hd : Zdigits2 P <= 48).
        { unfold P. simpl Zdigits2. apply digits2_pos_le; [lia|].
          rewrite Pos2Z.inj_mul, Hmk.
          change (2 ^ 48) with (2 ^ 24 * 2 ^ 24).
          rewrite Hmk in Hmk24. fold Y in Hmk24.
          apply Z.mul_lt_mono_nonneg; lia. }
        lia. }
      nia. }
  destruct Hval1 as [Hval1 Hexact].
  (* the second shift *)
  assert (Hm1p : 0 <= m1) by lia.
  pose proof (shr_fexp_spec m1 e' loc_Exact Hm1p) as Hs2.
  cbv zeta in Hs2.
  destruct (shr_fexp F32.prec F32.emax m1 e' loc_Exact) as [mrs'' e''].
  simpl fst in Hs2. simpl snd in Hs2.
  destruct Hs2 as (Hee2 & Hq2 & _).
  set (B := 2 ^ (e'' - e')) in *.
  assert (HB : 0 < B) by (unfold B; apply Z.pow_pos_nonneg; lia).
  assert (Hq2' : shr_m mrs'' * B <= m1).
  { rewrite Hq2. rewrite Z.mul_comm. apply Z.mul_div_le. exact HB. }
  assert (Hq2p : 0 <= shr_m mrs'').
  { rewrite Hq2. apply Z.div_pos; lia. }
  destruct (shr_m mrs'') as [|m2|m2] eqn:Hm2; [simpl; lia | | lia].
  (* the value of the result is below [C + 1/2] *)
  assert (Hval : 2 * (Z.pos m2 * (A * B)) < (2 * C + 1) * (2 ^ 24 * X * Y)).
  { assert (H1 : Z.pos m2 * (A * B) <= P + 2 ^ 24 * X).
    { assert (Z.pos m2 * B * A <= m1 * A)
        by (apply Z.mul_le_mono_nonneg_r; lia).
      lia. }
    assert (H2 : P <= (2 ^ 24 - 1) * (C * Y)).
    { rewrite HP, Hmk. fold Y. apply Z.mul_le_mono_nonneg_r; lia. }
    assert (H3 : (2 ^ 24 - 1) * (C * Y) <= (2 ^ 24 - 1) * (C * Y) * X).
    { assert (0 <= (2 ^ 24 - 1) * (C * Y)) by lia.
      clear - H HX. nia. }
    assert (H4 : 2 * ((2 ^ 24 - 1) * (C * Y)) + 2 * 2 ^ 24
                 < (2 * C + 1) * (2 ^ 24 * Y)).
    { clear - HC HY. nia. }
    assert (H5 : (2 * ((2 ^ 24 - 1) * (C * Y)) + 2 * 2 ^ 24) * X
                 < (2 * C + 1) * (2 ^ 24 * Y) * X).
    { apply Z.mul_lt_mono_pos_r; lia. }
    lia. }
  assert (HAB : A * B = 2 ^ (e'' - E)).
  { unfold A, B. rewrite <- Z.pow_add_r by lia. f_equal. lia. }
  rewrite HAB, <- HXY in Hval.
  assert (He'' : e'' <= 104).
  { destruct (Z.le_gt_cases e'' 104) as [H|H]; [exact H|]. exfalso.
    assert (2 ^ (30 - E) <= 2 ^ (e'' - E)) by (apply Z.pow_le_mono_r; lia).
    assert (2 ^ (30 - E) = 2 ^ 30 * 2 ^ (- E))
      by (rewrite <- Z.pow_add_r by lia; f_equal; lia).
    assert (0 < 2 ^ (- E)) by (apply Z.pow_pos_nonneg; unfold E; lia).
    clear - Hval H0 H1 H2 HC. nia. }
  destruct (Z.leb_spec e'' (F32.emax - F32.prec)) as [_|Hov];
    [|unfold F32.emax, F32.prec in Hov; lia].
  unfold F32.NearestInt.
  assert (HE0 : 0 < 2 ^ (- E)) by (apply Z.pow_pos_nonneg; unfold E; lia).
  destruct (Z.leb_spec 0 e'') as [Hpos|Hneg].
  - assert (Hsplit : 2 ^ (e'' - E) = 2 ^ e'' * 2 ^ (- E))
      by (rewrite <- Z.pow_add_r by (unfold E; lia); f_equal; lia).
    rewrite Hsplit in Hval.
    assert (0 < 2 ^ e'') by (apply Z.pow_pos_nonneg; lia).
    assert (Z.pos m2 * 2 ^ e'' <= C) by (clear - Hval HE0 HC; nia).
    clear - H0 H. lia.
  - assert (Hsplit : 2 ^ (- E) = 2 ^ (e'' - E) * 2 ^ (- e''))
      by (rewrite <- Z.pow_add_r by (unfold E; lia); f_equal; lia).
    rewrite Hsplit in Hval.
    assert (HD : 0 < 2 ^ (- e'')) by (apply Z.pow_pos_nonneg; lia).
    assert (H2 : 0 < 2 ^ (e'' - E)) by (apply Z.pow_pos_nonneg; unfold E; lia).
    assert (Hlt : 2 * Z.pos m2 < (2 * C + 1) * 2 ^ (- e''))
      by (clear - Hval H2; nia).
    pose proof (round_half_even_nearest (Z.pos m2) (2 ^ (- e'')) HD) as Hr.
    assert (0 <= F32.round_half_even (Z.pos m2) (2 ^ (- e'')) <= C)
      by (clear - Hr Hlt HD HC; nia).
    clear - H HC. lia.
Qed.

End Scaling.

Lemma Clamp_cases v :
  F32.Clamp F32.zero v F32.one = F32.zero
  \/ F32.Clamp F32.zero v F32.one = F32.one
  \/ exists m e, v = S754_finite false m e
       /\ F32.ltb v F32.one = true
       /\ F32.Clamp F32.zero v F32.one = v.
Proof.
  destruct v as [s|s| |s m e].
  - left. destruct s; reflexivity.
  - destruct s; [left | right; left]; reflexivity.
  - left. reflexivity.
  - destruct s; [left; reflexivity|].
    unfold F32.Clamp.
    change (F32.Max (S754_finite false m e) F32.zero)
      with (S754_finite false m e).
    change (F32.Min (S754_finite false m e) F32.one)
      with (if F32.ltb (S754_finite false m e) F32.one
            then S754_finite false m e else F32.one).
    destruct (F32.ltb (S754_finite false m e) F32.one) eqn:Hlt.
    + right. right. exists m, e. auto.
    + right. left. reflexivity.
Qed.

Lemma scaled_255_range v :
  is_binary32 v = true -> 0 <= scaled 255 v <= 255.
Proof.
  intros Hv. unfold scaled.
  destruct (Clamp_cases v) as [-> | [-> | (m & e & -> & Hlt & ->)]].
  - vm_compute. split; discriminate.
  - vm_compute. split; discriminate.
  - destruct (below_one_shape m e Hv Hlt) as [Hm He].
    change (F32.of_Z 255) with (S754_finite false 16711680 (-16)).
    apply (product_rounds_below 255 16711680 (-16)); try lia; reflexivity.
Qed.

Lemma scaled_65535_range v :
  is_binary32 v = true -> 0 <= scaled 65535 v <= 65535.
Proof.
  intros Hv. unfold scaled.
  destruct (Clamp_cases v) as [-> | [-> | (m & e & -> & Hlt & ->)]].
  - vm_compute. split; discriminate.
  - vm_compute. split; discriminate.
  - destruct (below_one_shape m e Hv Hlt) as [Hm He].
    change (F32.of_Z 65535) with (S754_finite false 16776960 (-8)).
    apply (product_rounds_below 65535 16776960 (-8)); try lia; reflexivity.
Qed.

(** X13.  For every binary32 sample the scaled and rounded value lies
    between 0 and the largest code of the output type, so narrowing never
    changes it: the byte the raw buffer sink stores (the low byte of the
    integer) and the sample of the 8-bit callback output (the integer
    saturated to 8 bits) are both that value, hence equal, and the 16-bit
    callback output is the value scaled to 65535. *)
Theorem X13_codes_agree s v :
  is_binary32 v = true ->
  (0 <= scaled 255 v <= 255
   /\ to_u8 v = scaled 255 v
   /\ (CB.data_type_ s = JXL_TYPE_UINT8 -> narrow s v = SampleU8 (to_u8 v)))
  /\ (0 <= scaled 65535 v <= 65535
      /\ (CB.data_type_ s = JXL_TYPE_UINT16 -> CB.swap_endianness_ s = false ->
          narrow s v = SampleU16 (scaled 65535 v))).
Proof.
  intros Hv.
  pose proof (scaled_255_range v Hv) as H8.
  pose proof (scaled_65535_range v Hv) as H16.
  assert (Hu8 : to_u8 v = scaled 255 v).
  { unfold to_u8, F32.U8FromU32, F32.BitCastU32. fold (scaled 255 v).
    rewrite (Z.mod_small (scaled 255 v) (2 ^ 32)) by lia.
    apply Z.mod_small. lia. }
  split; [split; [exact H8 | split; [exact Hu8|]] | split; [exact H16|]].
  - intros Hdt. unfold narrow. rewrite Hdt, Hu8. fold (scaled 255 v).
    unfold F32.DemoteToU8. f_equal. lia.
  - intros Hdt Hsw. unfold narrow. rewrite Hdt, Hsw. fold (scaled 65535 v).
    unfold F32.DemoteToU16. f_equal. lia.
Qed.

Lemma X13_codes_agree_witness :
  to_u8 f_quarter = scaled 255 f_quarter.
Proof.
  destruct (X13_codes_agree cb_rot90 f_quarter) as [(_ & H & _) _].
  - reflexivity.
  - exact H.
Defined.

(** ** Empty row windows *)

(** X14.  A row call for an empty window does nothing: the raw buffer sink
    with [xsize = 0] writes no byte, the callback sink with no border and
    either [xsize = 0] or [xpos = width] makes no call, and the copying
    sinks with no border and [xsize = 0] change no sample. *)
Theorem X14_empty_window Lanes k s8 sc input_rows xextra xsize xpos ypos
    thread_id rgb st image :
  0 < Lanes -> 0 <= xsize ->
  U8.ProcessRow Lanes s8 input_rows xextra 0 xpos ypos thread_id rgb = rgb
  /\ CB.ProcessRow k sc input_rows 0 0 xpos ypos thread_id st = st
  /\ CB.ProcessRow k sc input_rows 0 xsize (CB.width_ sc) ypos thread_id st = st
  /\ (forall c y x,
        Planar.PlaneRow
          (Planar.ProcessRow_Image3F input_rows 0 0 xpos ypos thread_id image)
          c y x
        = Planar.PlaneRow image c y x).
Proof.
  intros HL Hxs. split; [|split; [|split]].
  - unfold U8.ProcessRow. destruct (U8.height_ s8 <=? ypos); [reflexivity|].
    cbv zeta. unfold DivCeil.
    rewrite Z.div_small by lia. reflexivity.
  - unfold CB.ProcessRow. destruct (CB.height_ sc <=? ypos); [reflexivity|].
    cbv zeta.
    assert (Hw : 0 <= wrap (CB.width_ sc - xpos))
      by (unfold wrap; apply Z.mod_pos_bound; lia).
    rewrite Z.min_l by lia. reflexivity.
  - unfold CB.ProcessRow. destruct (CB.height_ sc <=? ypos); [reflexivity|].
    cbv zeta. rewrite Z.sub_diag. change (wrap 0) with 0.
    rewrite Z.min_r by lia. reflexivity.
  - intros c y x. unfold Planar.ProcessRow_Image3F.
    rewrite copy_color_spec. unfold in_span.
    destruct (Z.leb_spec (xpos - 0) x), (Z.ltb_spec x (xpos - 0 + (0 + 2 * 0)));
      rewrite ?andb_false_r; try reflexivity; lia.
Qed.

Lemma X14_empty_window_witness :
  CB.ProcessRow k26 cb_rot90 ramp_rows 0 5 (CB.width_ cb_rot90) 1 0 CB.initial
  = CB.initial.
Proof.
  destruct (X14_empty_window 4 k26 u8_rgba_h2 cb_rot90 ramp_rows 0 5 8 1 0
              (fun _ => 7) CB.initial (fun _ => plane8)) as (_ & _ & H & _).
  - lia.
  - lia.
  - exact H.
Defined.

(** ** Byte order *)

(** X15.  For 8-bit output the callback sink does not look at
    [swap_endianness]: the calls of a row are the same with and without
    it. *)
Theorem X15_uint8_byte_order k cb width height num_channels has_alpha
    unpremul_alpha alpha_c swap_endianness o input_rows xextra xsize xpos ypos
    thread_id st :
  CB.ProcessRow k
    (CB.WriteToPixelCallbackStage cb width height num_channels has_alpha
       unpremul_alpha alpha_c swap_endianness o JXL_TYPE_UINT8)
    input_rows xextra xsize xpos ypos thread_id st
  = CB.ProcessRow k
      (CB.WriteToPixelCallbackStage cb width height num_channels has_alpha
         unpremul_alpha alpha_c false o JXL_TYPE_UINT8)
      input_rows xextra xsize xpos ypos thread_id st.
Proof.
  cbv beta iota zeta delta
    [CB.ProcessRow CB.batch CB.gather CB.advance CB.FlipX CB.WriteToCallback
     CB.run CB.emit CB.convert CB.WriteToPixelCallbackStage
     CB.pixel_callback_ CB.width_ CB.height_ CB.num_channels_ CB.num_color_
     CB.want_alpha_ CB.has_alpha_ CB.unpremul_alpha_ CB.alpha_c_
     CB.swap_endianness_ CB.flip_x_ CB.flip_y_ CB.transpose_ CB.data_type_].
  reflexivity.
Qed.

(** ** Orientations *)

Lemma place_eq o w h x y :
  place o w h (x, y)
  = let fx := if CB.ShouldFlipX o then w - 1 - x else x in
    let fy := if CB.ShouldFlipY o then h - 1 - y else y in
    if CB.ShouldTranspose o then (fy, fx) else (fx, fy).
Proof. reflexivity. Qed.

(** X16.  The three tests [ShouldFlipX], [ShouldFlipY] and
    [ShouldTranspose] tell the eight orientations apart and every
    combination of answers belongs to an orientation.  The coordinates they
    give compose as the names of the orientations say: placing by an
    orientation and then by the one that undoes it (the same one, except
    that the rotations by 90 and 270 degrees undo each other) gives back
    the coordinates, and two rotations by 90 degrees are one by 180. *)
Theorem X16_orientations :
  (forall o1 o2,
     CB.ShouldFlipX o1 = CB.ShouldFlipX o2 ->
     CB.ShouldFlipY o1 = CB.ShouldFlipY o2 ->
     CB.ShouldTranspose o1 = CB.ShouldTranspose o2 -> o1 = o2)
  /\ (forall fx fy t, exists o,
        CB.ShouldFlipX o = fx /\ CB.ShouldFlipY o = fy
        /\ CB.ShouldTranspose o = t)
  /\ (forall o w h x y,
        place (inverse o) (fst (placed_size o w h)) (snd (placed_size o w h))
          (place o w h (x, y)) = (x, y))
  /\ (forall w h x y,
        place kRotate90 h w (place kRotate90 w h (x, y))
        = place kRotate180 w h (x, y)).
Proof.
  split; [|split; [|split]].
  - intros o1 o2. destruct o1, o2; simpl; intros; congruence.
  - intros [] [] [];
      [exists kAntiTranspose | exists kRotate180 | exists kRotate270
      | exists kFlipHorizontal | exists kRotate90 | exists kFlipVertical
      | exists kTranspose | exists kIdentity]; repeat split.
  - intros o w h x y. rewrite (place_eq o).
    destruct o; simpl; rewrite place_eq; simpl; f_equal; lia.
  - intros w h x y. rewrite !place_eq. simpl. rewrite place_eq. simpl.
    f_equal.
Qed.

(** ** The assertion of the frame sink *)

Lemma ImageBundle_abort input_rows xextra xsize xpos ypos thread_id ib :
  Exists (too_narrow xextra xsize xpos) (Planar.extra_channels ib) ->
  Planar.ProcessRow_ImageBundle input_rows xextra xsize xpos ypos thread_id ib
  = None.
Proof.
  intros Hex. apply Exists_exists in Hex as (e & He & Hnarrow).
  apply list_elem_of_lookup in He as [j Hj].
  assert (Hjn : (j < length (Planar.extra_channels ib))%nat)
    by (apply lookup_lt_is_Some; eauto).
  unfold Planar.ProcessRow_ImageBundle. cbv zeta. simpl.
  set (n := Z.of_nat (length (Planar.extra_channels ib))).
  match goal with
  | |- for_n n ?body ?init = None =>
      pose proof (for_n_rule
        (fun k acc =>
           (Z.of_nat j < k -> acc = None)
           /\ forall ib', acc = Some ib' ->
                length (Planar.extra_channels ib')
                = length (Planar.extra_channels ib)
                /\ forall ec, k <= ec < n ->
                     Planar.extra_channels ib' !!! Z.to_nat ec
                     = Planar.extra_channels ib !!! Z.to_nat ec)
        n body init) as H
  end.
  destruct H as [Hnone _].
  - split; [lia|]. intros ib' Hib'. injection Hib' as <-. simpl.
    split; reflexivity.
  - intros k acc Hk [Hn Hs]. split.
    + intros Hjk. destruct acc as [ib'|]; [|reflexivity].
      destruct (Hs ib' eq_refl) as [Hlen Hun].
      destruct (Z.eq_dec k (Z.of_nat j)) as [->|Hne].
      * rewrite Hun by (unfold n; lia). rewrite Nat2Z.id.
        rewrite (list_lookup_total_correct _ _ _ Hj).
        unfold too_narrow in Hnarrow.
        destruct (Z.ltb_spec (Planar.xsize e) (xpos + xsize + xextra));
          [reflexivity | lia].
      * discriminate (Hn ltac:(lia)).
    + intros ib'' Hib''. destruct acc as [ib'|]; [|discriminate].
      destruct (Hs ib' eq_refl) as [Hlen Hun].
      destruct (Planar.xsize (Planar.extra_channels ib' !!! Z.to_nat k)
                <? xpos + xsize + xextra); [discriminate|].
      injection Hib'' as <-. simpl. split.
      * rewrite length_insert. exact Hlen.
      * intros ec Hec. unfold n in *.
        rewrite lookup_total_insert_Z by lia.
        destruct (Z.eqb_spec ec k); [lia|]. apply Hun. lia.
  - apply Hnone. unfold n. lia.
Qed.

(** X17.  A row call of the frame sink aborts on its assertion exactly
    when some extra channel of the frame is narrower than the end of the
    row window, [xpos + xsize + xextra]; the width of the colour planes is
    not checked. *)
Theorem X17_bundle_assert input_rows xextra xsize xpos ypos thread_id ib :
  Planar.ProcessRow_ImageBundle input_rows xextra xsize xpos ypos thread_id ib
  = None
  <-> Exists (too_narrow xextra xsize xpos) (Planar.extra_channels ib).
Proof.
  split.
  - intros Hnone.
    assert (Hdec : forall e, Decision (too_narrow xextra xsize xpos e))
      by (intros e; unfold too_narrow; apply _).
    destruct (decide (Exists (too_narrow xextra xsize xpos)
                        (Planar.extra_channels ib))) as [Hex|Hno];
      [exact Hex|].
    exfalso.
    destruct (ProcessRow_ImageBundle_spec input_rows xextra xsize xpos ypos
                thread_id ib) as (ib' & Hsome & _).
    + intros e He.
      destruct (Z.le_gt_cases (xpos + xsize + xextra) (Planar.xsize e))
        as [Hle|Hgt]; [exact Hle|].
      exfalso. apply Hno. apply Exists_exists. exists e. split; [exact He|].
      unfold too_narrow. lia.
    + congruence.
  - apply ImageBundle_abort.
Qed.

Lemma X17_bundle_assert_witness :
  Planar.ProcessRow_ImageBundle ramp_rows 0 6 0 0 0 bundle84 = None.
Proof.
  apply X17_bundle_assert. apply Exists_exists. exists plane4. split.
  - right. left.
  - unfold too_narrow. simpl. lia.
Defined.

(** ** What the copying sinks read *)

(** X18.  A row call of the planar sink depends on the row windows of the
    three colour channels, the channels for which its [GetChannelMode]
    answers [kInput], and on nothing else; a row call of the frame sink
    depends on the row windows of the colour channels and of as many further
    channels as the frame has extra channels, and whether it aborts does not
    depend on the samples at all. *)
Theorem X18_planar_reads (input_rows input_rows' : RowInfo) xextra xsize xpos
    ypos thread_id image ib :
  ((forall c r, 0 <= c -> GetChannelMode_Image3F c = true ->
      - xextra <= r < xsize + xextra -> input_rows' c r = input_rows c r) ->
   forall c y x,
     Planar.PlaneRow
       (Planar.ProcessRow_Image3F input_rows' xextra xsize xpos ypos thread_id
          image) c y x
     = Planar.PlaneRow
         (Planar.ProcessRow_Image3F input_rows xextra xsize xpos ypos
            thread_id image) c y x)
  /\ ((forall c r,
         0 <= c < 3 + Z.of_nat (length (Planar.extra_channels ib)) ->
         - xextra <= r < xsize + xextra -> input_rows' c r = input_rows c r) ->
      match Planar.ProcessRow_ImageBundle input_rows' xextra xsize xpos ypos
              thread_id ib,
            Planar.ProcessRow_ImageBundle input_rows xextra xsize xpos ypos
              thread_id ib with
      | Some ib1, Some ib2 =>
          (forall c y x,
             Planar.PlaneRow (Planar.color ib1) c y x
             = Planar.PlaneRow (Planar.color ib2) c y x)
          /\ forall ec y x,
               0 <= ec < Z.of_nat (length (Planar.extra_channels ib)) ->
               Planar.Row (Planar.extra_channels ib1 !!! Z.to_nat ec) y x
               = Planar.Row (Planar.extra_channels ib2 !!! Z.to_nat ec) y x
      | None, None => True
      | _, _ => False
      end).
Proof.
  assert (Hcol : forall im,
    (forall c r, 0 <= c < 3 -> - xextra <= r < xsize + xextra ->
       input_rows' c r = input_rows c r) ->
    forall c y x,
    Planar.PlaneRow (Planar.copy_color im input_rows' xextra xsize xpos ypos)
      c y x
    = Planar.PlaneRow (Planar.copy_color im input_rows xextra xsize xpos ypos)
        c y x).
  { intros im Hagree c y x. rewrite !copy_color_spec.
    destruct (Z.leb_spec 0 c), (Z.ltb_spec c 3); simpl; try reflexivity.
    destruct (y =? ypos); simpl; [|reflexivity].
    unfold in_span.
    destruct (Z.leb_spec (xpos - xextra) x),
      (Z.ltb_spec x (xpos - xextra + (xsize + 2 * xextra))); simpl;
      try reflexivity.
    apply Hagree; lia. }
  split.
  - intros Hagree c y x. apply Hcol.
    intros c' r Hc Hr. apply Hagree; [lia | | exact Hr].
    unfold GetChannelMode_Image3F. destruct (Z.ltb_spec c' 3); [reflexivity | lia].
  - intros Hagree.
    assert (Hdec : forall e, Decision (too_narrow xextra xsize xpos e))
      by (intros e; unfold too_narrow; apply _).
    destruct (decide (Exists (too_narrow xextra xsize xpos)
                        (Planar.extra_channels ib))) as [Hex|Hno].
    + rewrite !ImageBundle_abort by exact Hex. exact I.
    + assert (Hwide : forall e, e ∈ Planar.extra_channels ib ->
                xpos + xsize + xextra <= Planar.xsize e).
      { intros e He.
        destruct (Z.le_gt_cases (xpos + xsize + xextra) (Planar.xsize e))
          as [Hle|Hgt]; [exact Hle|].
        exfalso. apply Hno. apply Exists_exists. exists e. split; [exact He|].
        unfold too_narrow. lia. }
      destruct (ProcessRow_ImageBundle_spec input_rows' xextra xsize xpos ypos
                  thread_id ib Hwide) as (ib1 & -> & Hc1 & Hl1 & He1).
      destruct (ProcessRow_ImageBundle_spec input_rows xextra xsize xpos ypos
                  thread_id ib Hwide) as (ib2 & -> & Hc2 & Hl2 & He2).
      split.
      * intros c y x. rewrite Hc1, Hc2. apply Hcol.
        intros c' r Hc Hr. apply Hagree; lia.
      * intros ec y x Hec. rewrite He1, He2 by exact Hec.
        unfold copied_extra, Planar.set_Row, GetInputRow. simpl.
        destruct (y =? ypos); [|reflexivity].
        rewrite !copy_row_spec. unfold in_span.
        destruct (Z.leb_spec (xpos - xextra) x),
          (Z.ltb_spec x (xpos - xextra + (xsize + 2 * xextra))); simpl;
          try reflexivity.
        apply Hagree; lia.
Qed.

Lemma X18_planar_reads_witness :
  Planar.PlaneRow
    (Planar.ProcessRow_Image3F
       (fun c r => if c <? 3 then ramp_rows c r else S754_nan) 1 4 1 0 0
       (fun _ => plane8)) 0 0 2
  = Planar.PlaneRow
      (Planar.ProcessRow_Image3F ramp_rows 1 4 1 0 0 (fun _ => plane8)) 0 0 2.
Proof.
  destruct (X18_planar_reads ramp_rows
              (fun c r => if c <? 3 then ramp_rows c r else S754_nan)
              1 4 1 0 0 (fun _ => plane8) bundle8) as [H _].
  apply H. intros c r _ Hc _. unfold GetChannelMode_Image3F in Hc.
  rewrite Hc. reflexivity.
Defined.
